(** * The movie repository and its mutation resolvers

    A shallow embedding of [pkg/models] (the [MovieQueryBuilder]) and of
    [pkg/api/resolver_mutation_movie.go].

    Conventions of the embedding.
    - A Go pointer [*T] is an [option T]; [nil] is [None].
    - A Go [[]byte] is a [slice]: the nil slice is [None], a non-nil slice
      (of any length, zero included) is [Some bs].
    - A Go pair [(value, error)] is a Rocq pair whose second component is an
      [option error]; [nil] is [None].
    - A database handle ([*sqlx.Tx] or [database.DB]) is the table contents
      it sees; a statement run on a transaction returns the new contents.
    - The storage engine may refuse any statement: the section variable
      [fault] says which, and the model holds for every such engine.
    - What the sources leave to code that is not among them is a section
      variable as well: the date a read gives back for a date written
      ([stored_date], the conversions of [models.SQLiteDate]), and the
      sidecar rows a DELETE on [movies] leaves ([images_after_delete], the
      schema).
    - Every repository call that checks [ensureTx(tx)] is given a
      transaction, so that check never panics and is left out. *)

From Stdlib Require Import ZArith List String Ascii Bool Lia.
From stdpp Require Import base gmap strings.
Import ListNotations.
Local Open Scope string_scope.
Local Open Scope Z_scope.

(** ** Go values *)

Definition bytes := list Byte.byte.

(** [[]byte]: [None] is the nil slice. *)
Definition slice := option bytes.

(** Go's [len] on a byte slice: the nil slice has length 0. *)
Definition len (s : slice) : nat :=
  match s with
  | None => 0%nat
  | Some bs => List.length bs
  end.

Inductive error : Type :=
| ErrStorage (code : nat)      (* an error of the storage engine or the driver *)
| ErrNoRows                    (* sql.ErrNoRows *)
| ErrImage (code : nat)        (* an error of utils.ProcessBase64Image *)
| ErrMovieNotFound (id : Z).   (* fmt.Errorf("movie with id %d not found", id) *)

(** ** strconv *)

Definition digit_of (c : ascii) : option Z :=
  let n := Z.of_nat (nat_of_ascii c) in
  if (48 <=? n) && (n <=? 57) then Some (n - 48) else None.

(** The error kinds of [strconv.NumError]. *)
Inductive NumError : Type := ErrSyntax | ErrRange.

Definition MaxUint64 : Z := 2 ^ 64 - 1.
Definition MaxInt64 : Z := 2 ^ 63 - 1.
Definition MinInt64 : Z := - 2 ^ 63.

(** The loop of [strconv.ParseUint(s, 10, 64)] over the bytes of the text,
    [n] being the number read so far.  A byte that is no digit is a syntax
    error.  When [n * 10] or [n * 10 + d] leaves the 64 bits the loop
    returns the largest value and a range error at once, without a look at
    the bytes that follow. *)
Fixpoint ParseUint_from (n : Z) (s : string) : Z * option NumError :=
  match s with
  | EmptyString => (n, None)
  | String c rest =>
      match digit_of c with
      | None => (0, Some ErrSyntax)
      | Some d =>
          if MaxUint64 / 10 + 1 <=? n then (MaxUint64, Some ErrRange)
          else if MaxUint64 <? 10 * n + d then (MaxUint64, Some ErrRange)
          else ParseUint_from (10 * n + d) rest
      end
  end.

(** [strconv.ParseUint(s, 10, 64)]: the empty text is a syntax error. *)
Definition ParseUint (s : string) : Z * option NumError :=
  match s with
  | EmptyString => (0, Some ErrSyntax)
  | _ => ParseUint_from 0 s
  end.

(** [strconv.ParseInt(s, 10, 64)], the value only: a leading sign is picked
    off, a syntax error of [ParseUint] gives 0, and a number out of the
    range of [int64], a range error of [ParseUint] included, gives the
    nearest bound. *)
Definition ParseInt (s : string) : Z :=
  match s with
  | EmptyString => 0
  | String c rest =>
      let neg := Ascii.eqb c "-"%char in
      let digits := if Ascii.eqb c "+"%char || neg then rest else s in
      match ParseUint digits with
      | (_, Some ErrSyntax) => 0
      | (un, _) =>
          let cutoff := 2 ^ 63 in
          if negb neg && (cutoff <=? un) then MaxInt64
          else if neg && (cutoff <? un) then MinInt64
          else if neg then - un else un
      end
  end.

(** [strconv.Atoi], the value only, on a platform whose [int] has 64 bits:
    the value of [ParseInt(s, 10, 0)], which the fast path for texts of
    fewer than 19 bytes computes as well. *)
Definition Atoi (s : string) : Z := ParseInt s.

(** ** database/sql and the models package: nullable columns *)

Module NullString.
Record t : Type := mk { String : string; Valid : bool }.
(** The zero value [sql.NullString{}]: SQL NULL. *)
Definition zero : t := mk "" false.
End NullString.

Module NullInt64.
Record t : Type := mk { Int64 : Z; Valid : bool }.
Definition zero : t := mk 0 false.
End NullInt64.

Module SQLiteDate.
Record t : Type := mk { String : string; Valid : bool }.
Definition zero : t := mk "" false.
End SQLiteDate.

(** [models.SQLiteTimestamp]: a time, counted in the unit in which the
    store keeps it. *)
Module SQLiteTimestamp.
Record t : Type := mk { Timestamp : Z }.
Definition zero : t := mk 0.
End SQLiteTimestamp.

(** ** The entity record: one row of table [movies] ([models.Movie]),
    with the columns of the INSERT statement of [Create]. *)
Module Movie.
Record t : Type := mk {
  ID : Z;
  Checksum : string;
  Name : NullString.t;
  Aliases : NullString.t;
  Duration : NullInt64.t;
  Date : SQLiteDate.t;
  Rating : NullInt64.t;
  StudioID : NullInt64.t;
  Director : NullString.t;
  Synopsis : NullString.t;
  URL : NullString.t;
  CreatedAt : SQLiteTimestamp.t;
  UpdatedAt : SQLiteTimestamp.t
}.
End Movie.

(** ** The partial patch ([models.MoviePartial]): every column but the
    primary key is a pointer, nil when the column is not mentioned. *)
Module MoviePartial.
Record t : Type := mk {
  ID : Z;
  Checksum : option string;
  Name : option NullString.t;
  Aliases : option NullString.t;
  Duration : option NullInt64.t;
  Date : option SQLiteDate.t;
  Rating : option NullInt64.t;
  StudioID : option NullInt64.t;
  Director : option NullString.t;
  Synopsis : option NullString.t;
  URL : option NullString.t;
  CreatedAt : option SQLiteTimestamp.t;
  UpdatedAt : option SQLiteTimestamp.t
}.
End MoviePartial.

(** ** Mutation inputs ([models.MovieCreateInput], [models.MovieUpdateInput]) *)
Module MovieCreateInput.
Record t : Type := mk {
  Name : string;
  Aliases : option string;
  Duration : option Z;
  Date : option string;
  Rating : option Z;
  StudioID : option string;
  Director : option string;
  Synopsis : option string;
  URL : option string;
  FrontImage : option string;
  BackImage : option string
}.
End MovieCreateInput.

Module MovieUpdateInput.
Record t : Type := mk {
  ID : string;
  Name : option string;
  Aliases : option string;
  Duration : option Z;
  Date : option string;
  Rating : option Z;
  StudioID : option string;
  Director : option string;
  Synopsis : option string;
  URL : option string;
  FrontImage : option string;
  BackImage : option string
}.
End MovieUpdateInput.

(** Column assignments on a row of [movies]. *)
Module SetMovie.
Import Movie.
Definition ID (v : Z) (m : t) : t :=
  mk v (Checksum m) (Name m) (Aliases m) (Duration m) (Date m) (Rating m)
     (StudioID m) (Director m) (Synopsis m) (URL m) (CreatedAt m) (UpdatedAt m).
Definition Checksum (v : string) (m : t) : t :=
  mk (Movie.ID m) v (Name m) (Aliases m) (Duration m) (Date m) (Rating m)
     (StudioID m) (Director m) (Synopsis m) (URL m) (CreatedAt m) (UpdatedAt m).
Definition Name (v : NullString.t) (m : t) : t :=
  mk (Movie.ID m) (Movie.Checksum m) v (Aliases m) (Duration m) (Date m) (Rating m)
     (StudioID m) (Director m) (Synopsis m) (URL m) (CreatedAt m) (UpdatedAt m).
Definition Aliases (v : NullString.t) (m : t) : t :=
  mk (Movie.ID m) (Movie.Checksum m) (Movie.Name m) v (Duration m) (Date m) (Rating m)
     (StudioID m) (Director m) (Synopsis m) (URL m) (CreatedAt m) (UpdatedAt m).
Definition Duration (v : NullInt64.t) (m : t) : t :=
  mk (Movie.ID m) (Movie.Checksum m) (Movie.Name m) (Movie.Aliases m) v (Date m) (Rating m)
     (StudioID m) (Director m) (Synopsis m) (URL m) (CreatedAt m) (UpdatedAt m).
Definition Date (v : SQLiteDate.t) (m : t) : t :=
  mk (Movie.ID m) (Movie.Checksum m) (Movie.Name m) (Movie.Aliases m) (Movie.Duration m) v
     (Rating m) (StudioID m) (Director m) (Synopsis m) (URL m) (CreatedAt m) (UpdatedAt m).
Definition Rating (v : NullInt64.t) (m : t) : t :=
  mk (Movie.ID m) (Movie.Checksum m) (Movie.Name m) (Movie.Aliases m) (Movie.Duration m)
     (Movie.Date m) v (StudioID m) (Director m) (Synopsis m) (URL m) (CreatedAt m) (UpdatedAt m).
Definition StudioID (v : NullInt64.t) (m : t) : t :=
  mk (Movie.ID m) (Movie.Checksum m) (Movie.Name m) (Movie.Aliases m) (Movie.Duration m)
     (Movie.Date m) (Movie.Rating m) v (Director m) (Synopsis m) (URL m) (CreatedAt m) (UpdatedAt m).
Definition Director (v : NullString.t) (m : t) : t :=
  mk (Movie.ID m) (Movie.Checksum m) (Movie.Name m) (Movie.Aliases m) (Movie.Duration m)
     (Movie.Date m) (Movie.Rating m) (Movie.StudioID m) v (Synopsis m) (URL m) (CreatedAt m)
     (UpdatedAt m).
Definition Synopsis (v : NullString.t) (m : t) : t :=
  mk (Movie.ID m) (Movie.Checksum m) (Movie.Name m) (Movie.Aliases m) (Movie.Duration m)
     (Movie.Date m) (Movie.Rating m) (Movie.StudioID m) (Movie.Director m) v (URL m)
     (CreatedAt m) (UpdatedAt m).
Definition URL (v : NullString.t) (m : t) : t :=
  mk (Movie.ID m) (Movie.Checksum m) (Movie.Name m) (Movie.Aliases m) (Movie.Duration m)
     (Movie.Date m) (Movie.Rating m) (Movie.StudioID m) (Movie.Director m) (Movie.Synopsis m) v
     (CreatedAt m) (UpdatedAt m).
Definition CreatedAt (v : SQLiteTimestamp.t) (m : t) : t :=
  mk (Movie.ID m) (Movie.Checksum m) (Movie.Name m) (Movie.Aliases m) (Movie.Duration m)
     (Movie.Date m) (Movie.Rating m) (Movie.StudioID m) (Movie.Director m) (Movie.Synopsis m)
     (Movie.URL m) v (UpdatedAt m).
Definition UpdatedAt (v : SQLiteTimestamp.t) (m : t) : t :=
  mk (Movie.ID m) (Movie.Checksum m) (Movie.Name m) (Movie.Aliases m) (Movie.Duration m)
     (Movie.Date m) (Movie.Rating m) (Movie.StudioID m) (Movie.Director m) (Movie.Synopsis m)
     (Movie.URL m) (Movie.CreatedAt m) v.
End SetMovie.

(** ** The partial-update translator *)

(** Modelled from the spec: the [changesetTranslator] of the api package is
    not among the sources.  Its [inputMap] is the set of field names
    explicitly present in the inbound request. *)
Definition hasField (inputMap : gset string) (field : string) : bool :=
  bool_decide (field ∈ inputMap).

(** Modelled from the spec: [changesetTranslator.nullString].  A field out
    of the presence set gives nil; a present field gives a pointer, to SQL
    NULL when the value is null. *)
Definition nullString (inputMap : gset string) (value : option string)
    (field : string) : option NullString.t :=
  if hasField inputMap field then
    Some match value with
         | Some v => NullString.mk v true
         | None => NullString.zero
         end
  else None.

(** Modelled from the spec: [changesetTranslator.nullInt64]. *)
Definition nullInt64 (inputMap : gset string) (value : option Z)
    (field : string) : option NullInt64.t :=
  if hasField inputMap field then
    Some match value with
         | Some v => NullInt64.mk v true
         | None => NullInt64.zero
         end
  else None.

(** Modelled from the spec: [changesetTranslator.sqliteDate]. *)
Definition sqliteDate (inputMap : gset string) (value : option string)
    (field : string) : option SQLiteDate.t :=
  if hasField inputMap field then
    Some match value with
         | Some v => SQLiteDate.mk v true
         | None => SQLiteDate.zero
         end
  else None.

(** Modelled from the spec: [changesetTranslator.nullInt64FromString]; the
    number is read as [MovieCreate] reads a studio id. *)
Definition nullInt64FromString (inputMap : gset string) (value : option string)
    (field : string) : option NullInt64.t :=
  if hasField inputMap field then
    Some match value with
         | Some v => NullInt64.mk (ParseInt v) true
         | None => NullInt64.zero
         end
  else None.

(** ** The SET-list of a partial update *)

Definition key_if_set {A : Type} (field : option A) (key : string) : list string :=
  match field with
  | Some _ => [key]
  | None => []
  end.

(** Modelled from the spec: the column keys [SQLGenKeysPartial] emits for a
    [MoviePartial], one per non-nil field, the primary key left out. *)
Definition partial_keys (p : MoviePartial.t) : list string :=
  key_if_set (MoviePartial.Checksum p) "checksum"
  ++ key_if_set (MoviePartial.Name p) "name"
  ++ key_if_set (MoviePartial.Aliases p) "aliases"
  ++ key_if_set (MoviePartial.Duration p) "duration"
  ++ key_if_set (MoviePartial.Date p) "date"
  ++ key_if_set (MoviePartial.Rating p) "rating"
  ++ key_if_set (MoviePartial.StudioID p) "studio_id"
  ++ key_if_set (MoviePartial.Director p) "director"
  ++ key_if_set (MoviePartial.Synopsis p) "synopsis"
  ++ key_if_set (MoviePartial.URL p) "url"
  ++ key_if_set (MoviePartial.CreatedAt p) "created_at"
  ++ key_if_set (MoviePartial.UpdatedAt p) "updated_at".

(** Modelled from the spec: [SQLGenKeysPartial], the text [k=:k, ...] spliced
    after [UPDATE movies SET]. *)
Definition SQLGenKeysPartial (p : MoviePartial.t) : string :=
  String.concat ", " (List.map (fun k => k ++ "=:" ++ k)%string (partial_keys p)).

(** ** Tables *)

(** A row of the join table [movies_scenes]. *)
Record MoviesScenesRow : Type := mkMoviesScenes { movie_id : Z; scene_id : Z }.

(** A row of the sidecar table [movies_images]. *)
Record MoviesImagesRow : Type := mkMoviesImages {
  image_movie_id : Z;
  front_image : slice;
  back_image : slice
}.

(** The tables, and the counter of the auto-assigned key of [movies]: the
    largest key the engine has handed out so far, which no delete lowers. *)
Record DB : Type := mkDB {
  movies : list Movie.t;
  movies_scenes : list MoviesScenesRow;
  movies_images : list MoviesImagesRow;
  movies_sequence : Z
}.

(** The statements the repository sends to the engine. *)
Inductive Stmt : Type :=
| InsertMovie (newMovie : Movie.t)
    (* INSERT INTO movies (checksum, ..., updated_at) VALUES (:checksum, ...) *)
| UpdateMovies (set_list : list string) (updatedMovie : MoviePartial.t)
    (* UPDATE movies SET <set_list> WHERE movies.id = :id *)
| SelectMovie (id : Z)
    (* SELECT * FROM movies WHERE id = ? LIMIT 1 *)
| DeleteMoviesScenes (id : string)
    (* DELETE FROM movies_scenes WHERE movie_id = ? *)
| DeleteByID (tableName : string) (id : string)
    (* DELETE FROM <tableName> WHERE <tableName>.id = ? *)
| DeleteMoviesImages (movieID : Z)
    (* DELETE FROM movies_images WHERE movie_id = ? *)
| InsertMoviesImages (movieID : Z) (frontImage backImage : slice)
    (* INSERT INTO movies_images (movie_id, front_image, back_image) VALUES (?, ?, ?) *)
| SelectFrontImage (movieID : Z)
    (* SELECT front_image from movies_images WHERE movie_id = ? *)
| SelectBackImage (movieID : Z)
    (* SELECT back_image from movies_images WHERE movie_id = ? *)
| Commit.

(** A nil pointer is bound as SQL NULL. *)
Definition bound {A : Type} (null : A) (field : option A) : A :=
  match field with
  | Some v => v
  | None => null
  end.

(** What a column of a row holds.  A column of [database/sql]'s nullable
    types and a key or timestamp column is given by its SQL value.  A date
    column is given by the [SQLiteDate] a read scans from it: which SQL
    value stands for a date is decided by the conversions of
    [models.SQLiteDate], outside the sources. *)
Inductive SqlValue : Type :=
| SqlNull
| SqlText (s : string)
| SqlInt (n : Z)
| SqlDate (d : SQLiteDate.t).

Definition of_NullString (v : NullString.t) : SqlValue :=
  if NullString.Valid v then SqlText (NullString.String v) else SqlNull.

Definition of_NullInt64 (v : NullInt64.t) : SqlValue :=
  if NullInt64.Valid v then SqlInt (NullInt64.Int64 v) else SqlNull.

Definition column (key : string) (row : Movie.t) : SqlValue :=
  if (key =? "id")%string then SqlInt (Movie.ID row)
  else if (key =? "checksum")%string then SqlText (Movie.Checksum row)
  else if (key =? "name")%string then of_NullString (Movie.Name row)
  else if (key =? "aliases")%string then of_NullString (Movie.Aliases row)
  else if (key =? "duration")%string then of_NullInt64 (Movie.Duration row)
  else if (key =? "date")%string then SqlDate (Movie.Date row)
  else if (key =? "rating")%string then of_NullInt64 (Movie.Rating row)
  else if (key =? "studio_id")%string then of_NullInt64 (Movie.StudioID row)
  else if (key =? "director")%string then of_NullString (Movie.Director row)
  else if (key =? "synopsis")%string then of_NullString (Movie.Synopsis row)
  else if (key =? "url")%string then of_NullString (Movie.URL row)
  else if (key =? "created_at")%string then
    SqlInt (SQLiteTimestamp.Timestamp (Movie.CreatedAt row))
  else if (key =? "updated_at")%string then
    SqlInt (SQLiteTimestamp.Timestamp (Movie.UpdatedAt row))
  else SqlNull.

(** ** Vocabulary of the properties *)

(** Whether a pointer is non-nil. *)
Definition non_nil {A : Type} (field : option A) : bool :=
  match field with
  | Some _ => true
  | None => false
  end.

Definition is_nil {A : Type} (value : option A) : bool := negb (non_nil value).

(** Whether the field of the partial with the given column key is non-nil. *)
Definition is_set (f : string) (p : MoviePartial.t) : bool :=
  if (f =? "checksum")%string then non_nil (MoviePartial.Checksum p)
  else if (f =? "name")%string then non_nil (MoviePartial.Name p)
  else if (f =? "aliases")%string then non_nil (MoviePartial.Aliases p)
  else if (f =? "duration")%string then non_nil (MoviePartial.Duration p)
  else if (f =? "date")%string then non_nil (MoviePartial.Date p)
  else if (f =? "rating")%string then non_nil (MoviePartial.Rating p)
  else if (f =? "studio_id")%string then non_nil (MoviePartial.StudioID p)
  else if (f =? "director")%string then non_nil (MoviePartial.Director p)
  else if (f =? "synopsis")%string then non_nil (MoviePartial.Synopsis p)
  else if (f =? "url")%string then non_nil (MoviePartial.URL p)
  else if (f =? "created_at")%string then non_nil (MoviePartial.CreatedAt p)
  else if (f =? "updated_at")%string then non_nil (MoviePartial.UpdatedAt p)
  else false.

(** The nullable columns a patch can write. *)
Definition nullable_columns : list string :=
  ["name"; "aliases"; "duration"; "date"; "rating"; "studio_id";
   "director"; "synopsis"; "url"].

(** The columns [MovieUpdate] fills through the translator. *)
Definition translated_fields : list string :=
  ["aliases"; "duration"; "date"; "rating"; "studio_id"; "director"; "synopsis"; "url"].

(** Whether the request gives the field the value null. *)
Definition input_null (f : string) (input : MovieUpdateInput.t) : bool :=
  if (f =? "name")%string then is_nil (MovieUpdateInput.Name input)
  else if (f =? "aliases")%string then is_nil (MovieUpdateInput.Aliases input)
  else if (f =? "duration")%string then is_nil (MovieUpdateInput.Duration input)
  else if (f =? "date")%string then is_nil (MovieUpdateInput.Date input)
  else if (f =? "rating")%string then is_nil (MovieUpdateInput.Rating input)
  else if (f =? "studio_id")%string then is_nil (MovieUpdateInput.StudioID input)
  else if (f =? "director")%string then is_nil (MovieUpdateInput.Director input)
  else if (f =? "synopsis")%string then is_nil (MovieUpdateInput.Synopsis input)
  else if (f =? "url")%string then is_nil (MovieUpdateInput.URL input)
  else false.

(** Whether the create request gives the field no value. *)
Definition create_input_null (f : string) (input : MovieCreateInput.t) : bool :=
  if (f =? "aliases")%string then is_nil (MovieCreateInput.Aliases input)
  else if (f =? "duration")%string then is_nil (MovieCreateInput.Duration input)
  else if (f =? "date")%string then is_nil (MovieCreateInput.Date input)
  else if (f =? "rating")%string then is_nil (MovieCreateInput.Rating input)
  else if (f =? "studio_id")%string then is_nil (MovieCreateInput.StudioID input)
  else if (f =? "director")%string then is_nil (MovieCreateInput.Director input)
  else if (f =? "synopsis")%string then is_nil (MovieCreateInput.Synopsis input)
  else if (f =? "url")%string then is_nil (MovieCreateInput.URL input)
  else false.

(** [len(frontimageData) == 0 && len(backimageData) == 0] *)
Definition both_empty (front back : slice) : bool :=
  (len front =? 0)%nat && (len back =? 0)%nat.

(** ** Filters ([models.FindFilterType], [models.MovieFilterType]) *)

Inductive SortDirectionEnum : Type := SortDirectionEnumAsc | SortDirectionEnumDesc.

Module FindFilterType.
Record t : Type := mk {
  Q : option string;
  Page : option Z;
  PerPage : option Z;
  Sort : option string;
  Direction : option SortDirectionEnum
}.
(** [&FindFilterType{}] *)
Definition zero : t := mk None None None None None.
End FindFilterType.

Inductive CriterionModifier : Type := Includes | IncludesAll | Excludes.

Module MultiCriterionInput.
Record t : Type := mk { Value : list string; Modifier : CriterionModifier }.
End MultiCriterionInput.

Module MovieFilterType.
Record t : Type := mk {
  Studios : option MultiCriterionInput.t;
  IsMissing : option string
}.
(** [&MovieFilterType{}] *)
Definition zero : t := mk None None.
End MovieFilterType.

(** A bound query argument ([interface{}]). *)
Inductive SqlArg : Type :=
| ArgText (s : string)
| ArgInt (n : Z).

(** Modelled from the spec: [FindFilterType.GetSort], the sort key of the
    filter, or the default handed in when the filter names none. *)
Definition GetSort (ff : FindFilterType.t) (defaultSort : string) : string :=
  match FindFilterType.Sort ff with
  | Some sort => sort
  | None => defaultSort
  end.

(** Modelled from the spec: [FindFilterType.GetDirection], ascending unless
    the filter asks for descending. *)
Definition GetDirection (ff : FindFilterType.t) : string :=
  match FindFilterType.Direction ff with
  | Some SortDirectionEnumDesc => "DESC"
  | Some SortDirectionEnumAsc => "ASC"
  | None => "ASC"
  end.

(** What a resolver call does: it returns its pair, or it stops in a runtime
    panic (a nil pointer is dereferenced). *)
Inductive outcome (A : Type) : Type :=
| Returned (value : A) (err : option error)
| Panicked.
Arguments Returned {A} value err.
Arguments Panicked {A}.

(** ** Lookups by name and by scene *)

(** The NOCASE collation of the engine folds the upper case ASCII letters. *)
Definition fold_case (c : ascii) : ascii :=
  let n := nat_of_ascii c in
  if (65 <=? n)%nat && (n <=? 90)%nat then ascii_of_nat (n + 32) else c.

Fixpoint fold_cases (s : string) : string :=
  match s with
  | EmptyString => EmptyString
  | String c rest => String (fold_case c) (fold_cases rest)
  end.

(** [a = b], with [COLLATE NOCASE] when [nocase]. *)
Definition text_equal (nocase : bool) (a b : string) : bool :=
  if nocase then (fold_cases a =? fold_cases b)%string else (a =? b)%string.

(** [name = ?] on a row: a NULL name equals nothing. *)
Definition name_is (nocase : bool) (name : string) (m : Movie.t) : bool :=
  NullString.Valid (Movie.Name m)
  && text_equal nocase (NullString.String (Movie.Name m)) name.

(** [name IN (?, ..., ?)] on a row. *)
Definition name_among (nocase : bool) (names : list string) (m : Movie.t) : bool :=
  existsb (fun name => name_is nocase name m) names.

(** The movie is joined to the scene by a row of [movies_scenes]. *)
Definition in_scene (sceneID : Z) (joins : list MoviesScenesRow) (m : Movie.t) : bool :=
  existsb (fun r => (movie_id r =? Movie.ID m) && (scene_id r =? sceneID)) joins.

(** [GROUP BY movies.id]: one row for each key, the first in table order. *)
Fixpoint group_by_id (seen : list Z) (rows : list Movie.t) : list Movie.t :=
  match rows with
  | [] => []
  | m :: rest =>
      if existsb (Z.eqb (Movie.ID m)) seen then group_by_id seen rest
      else m :: group_by_id (Movie.ID m :: seen) rest
  end.

(** The queries of the lookups. *)
Inductive MovieQuery : Type :=
| SelectBySceneID (sceneID : Z)
    (* SELECT movies.* FROM movies
       LEFT JOIN movies_scenes as scenes_join on scenes_join.movie_id = movies.id
       WHERE scenes_join.scene_id = ? GROUP BY movies.id *)
| SelectByName (name : string) (nocase : bool)
    (* SELECT * FROM movies WHERE name = ? [COLLATE NOCASE] LIMIT 1 *)
| SelectByNames (names : list string) (nocase : bool).
    (* SELECT * FROM movies WHERE name [COLLATE NOCASE] IN (?, ..., ?) *)

(** The rows a lookup selects, in table order. *)
Definition lookup_rows (query : MovieQuery) (conn : DB) : list Movie.t :=
  match query with
  | SelectBySceneID sceneID =>
      group_by_id [] (List.filter (in_scene sceneID (movies_scenes conn)) (movies conn))
  | SelectByName name nocase =>
      match List.find (name_is nocase name) (movies conn) with
      | Some m => [m]
      | None => []
      end
  | SelectByNames names nocase =>
      List.filter (name_among nocase names) (movies conn)
  end.

(** The row is kept by a batch destroy: its key matches no id of the batch. *)
Definition survives {A : Type} (id_matches : string -> Z -> bool) (key : A -> Z)
    (ids : list string) (row : A) : bool :=
  forallb (fun id => negb (id_matches id (key row))) ids.

(** ** Sample data *)

(** An engine that refuses nothing. *)
Definition accepts_all : Stmt -> DB -> option nat := fun _ _ => None.

(** An engine that refuses to delete the movie with id [2]. *)
Definition refuses_movie_2 : Stmt -> DB -> option nat :=
  fun s _ =>
    match s with
    | DeleteByID _ id => if (id =? "2")%string then Some 19%nat else None
    | _ => None
    end.

(** Keys compared with the decimal reading of the bound text. *)
Definition decimal_matches (text : string) (key : Z) : bool := ParseInt text =? key.

Definition sample_MD5 (s : string) : string := ("md5(" ++ s ++ ")")%string.

(** A decoder: it refuses the empty string, reads a data URL with nothing
    after the comma as a slice of no bytes, and any other text as its own
    bytes. *)
Definition sample_decode (encoded : string) : slice * option error :=
  if (encoded =? "")%string then (None, Some (ErrImage 0))
  else if (encoded =? "data:image/png;base64,")%string then (Some [], None)
  else (Some (list_byte_of_string encoded), None).

Definition sample_movie (id : Z) (name : string) (rating : Z) : Movie.t :=
  Movie.mk id (sample_MD5 name) (NullString.mk name true) NullString.zero
    NullInt64.zero SQLiteDate.zero (NullInt64.mk rating true) NullInt64.zero
    NullString.zero NullString.zero NullString.zero
    (SQLiteTimestamp.mk 100) (SQLiteTimestamp.mk 100).

(** Two movies, their scenes, and the images of the second. *)
Definition sample_db : DB :=
  mkDB [sample_movie 1 "A" 5; sample_movie 2 "B" 4]
       [mkMoviesScenes 1 10; mkMoviesScenes 2 10; mkMoviesScenes 2 11]
       [mkMoviesImages 2 (Some (list_byte_of_string "front2"))
                         (Some (list_byte_of_string "back2"))]
       2.

(** [sample_db] once the second movie is gone. *)
Definition sample_db_later : DB :=
  mkDB [sample_movie 1 "A" 5] [mkMoviesScenes 1 10] [] 2.

(** An update request that gives no value to any field. *)
Definition sample_update (id : string) : MovieUpdateInput.t :=
  MovieUpdateInput.mk id None None None None None None None None None None None.

(** An update request with the two images. *)
Definition sample_update_images (id : string) (front back : option string)
    : MovieUpdateInput.t :=
  MovieUpdateInput.mk id None None None None None None None None None front back.

(** A create request with the two images. *)
Definition sample_create (name : string) (front back : option string)
    : MovieCreateInput.t :=
  MovieCreateInput.mk name None None None None None None None None front back.

(** Stand-ins for the generic SQL helpers. *)
Definition sample_getColumn (tableName columnName : string) : string :=
  (tableName ++ "." ++ columnName)%string.

Definition sample_getSort (sort direction tableName : string) : string :=
  (" ORDER BY " ++ tableName ++ "." ++ sort ++ " " ++ direction)%string.

Definition sample_selectDistinctIDs (tableName : string) : string :=
  ("SELECT DISTINCT " ++ tableName ++ ".id FROM " ++ tableName)%string.

Definition sample_getSearchBinding (columns : list string) (q : string) (_ : bool)
    : string * list SqlArg :=
  ("", []).

Definition sample_getMultiCriterionClause (_ _ _ _ _ : string)
    (_ : MultiCriterionInput.t) : string * string :=
  ("", "").

Definition sample_appendClause (clauses : list string) (clause : string) : list string :=
  if (clause =? "")%string then clauses else (clauses ++ [clause])%list.

Definition sample_getPagination (_ : FindFilterType.t) : string := "".

(** An id query that selects every movie of the contents it reads. *)
Definition sample_executeFindQuery (_ _ : string) (_ : list SqlArg) (_ : string)
    (_ _ : list string) (conn : DB) : list Z * Z :=
  (List.map Movie.ID (movies conn), Z.of_nat (List.length (movies conn))).

(** A date conversion: a text of ten characters is kept as a valid date,
    anything else reads back as the invalid date. *)
Definition sample_date (d : SQLiteDate.t) : SQLiteDate.t :=
  if (String.length (SQLiteDate.String d) =? 10)%nat
  then SQLiteDate.mk (SQLiteDate.String d) true
  else SQLiteDate.zero.

(** A schema in which the sidecar rows go with their movie. *)
Definition sample_cascade (id : string) (db : DB) : list MoviesImagesRow :=
  List.filter (fun r => negb (decimal_matches id (image_movie_id r))) (movies_images db).

(** An engine that refuses a sidecar row without a front image, and nothing
    else. *)
Definition refuses_nil_front : Stmt -> DB -> option nat :=
  fun s _ =>
    match s with
    | InsertMoviesImages _ None _ => Some 19%nat
    | _ => None
    end.

(** An engine that answers every lookup. *)
Definition answers_all : MovieQuery -> DB -> option nat := fun _ _ => None.

(** An engine that refuses to insert a sidecar row. *)
Definition refuses_image_insert : Stmt -> DB -> option nat :=
  fun s _ =>
    match s with
    | InsertMoviesImages _ _ _ => Some 19%nat
    | _ => None
    end.

(** An engine that refuses to read the movie with key [2]. *)
Definition refuses_read_2 : Stmt -> DB -> option nat :=
  fun s _ =>
    match s with
    | SelectMovie id => if id =? 2 then Some 5%nat else None
    | _ => None
    end.

(** A key generator that emits the name, the date and the rating. *)
Definition sample_SQLGenKeys_keys : Movie.t -> list string :=
  fun _ => ["name"; "date"; "rating"].

(** An engine that accepts every whole-record UPDATE. *)
Definition accepts_full_update : list string -> Movie.t -> DB -> option nat :=
  fun _ _ _ => None.

(** * The repository *)

Section Repository.

(* A lemma depends on the collaborators its statement names, and on no other. *)
#[local] Set Default Proof Using "Type".

(** The storage engine.  [fault s db] is the error code with which the
    engine (or the driver, when scanning rows) refuses statement [s] on the
    contents [db], if it refuses it.  A refused statement changes nothing. *)
Variable fault : Stmt -> DB -> option nat.

(** The engine's comparison of an integer key column with the text bound to
    [?] by [Destroy], whose [id] is a string. *)
Variable id_matches : string -> Z -> bool.

(** The conversions of [models.SQLiteDate] are outside the sources:
    [stored_date d] is the date a read scans from a date column to which a
    write has bound [d]. *)
Variable stored_date : SQLiteDate.t -> SQLiteDate.t.

(** The schema is outside the sources, and with it what a DELETE on
    [movies] does to the sidecar rows of the movies it removes:
    [images_after_delete id db] is table [movies_images] once the movies
    the id matches are deleted from [db]. *)
Variable images_after_delete : string -> DB -> list MoviesImagesRow.

(** The key the engine gives an inserted movie: one past the largest key
    the table holds or has held, so that the key of a deleted movie is not
    handed out again. *)
Definition next_id (db : DB) : Z :=
  1 + Z.max (movies_sequence db) (fold_right Z.max 0 (List.map Movie.ID (movies db))).

(** The movie as a write stores it and a read gives it back. *)
Definition as_stored (newMovie : Movie.t) : Movie.t :=
  SetMovie.Date (stored_date (Movie.Date newMovie)) newMovie.

(** The assignment [key = :key] of an UPDATE, the named parameter taken
    from the partial; a date is kept as [stored_date] converts it.  A nil
    pointer is never listed by [partial_keys]; were it listed, a nullable
    column would read as its zero value, and [checksum] and the timestamps,
    which are not nullable columns of [Movie], would be kept by the row. *)
Definition set_column (key : string) (arg : MoviePartial.t) (row : Movie.t) : Movie.t :=
  if (key =? "checksum")%string then
    match MoviePartial.Checksum arg with
    | Some c => SetMovie.Checksum c row
    | None => row
    end
  else if (key =? "name")%string then
    SetMovie.Name (bound NullString.zero (MoviePartial.Name arg)) row
  else if (key =? "aliases")%string then
    SetMovie.Aliases (bound NullString.zero (MoviePartial.Aliases arg)) row
  else if (key =? "duration")%string then
    SetMovie.Duration (bound NullInt64.zero (MoviePartial.Duration arg)) row
  else if (key =? "date")%string then
    SetMovie.Date
      (bound SQLiteDate.zero (option_map stored_date (MoviePartial.Date arg))) row
  else if (key =? "rating")%string then
    SetMovie.Rating (bound NullInt64.zero (MoviePartial.Rating arg)) row
  else if (key =? "studio_id")%string then
    SetMovie.StudioID (bound NullInt64.zero (MoviePartial.StudioID arg)) row
  else if (key =? "director")%string then
    SetMovie.Director (bound NullString.zero (MoviePartial.Director arg)) row
  else if (key =? "synopsis")%string then
    SetMovie.Synopsis (bound NullString.zero (MoviePartial.Synopsis arg)) row
  else if (key =? "url")%string then
    SetMovie.URL (bound NullString.zero (MoviePartial.URL arg)) row
  else if (key =? "created_at")%string then
    match MoviePartial.CreatedAt arg with
    | Some ts => SetMovie.CreatedAt ts row
    | None => row
    end
  else if (key =? "updated_at")%string then
    match MoviePartial.UpdatedAt arg with
    | Some ts => SetMovie.UpdatedAt ts row
    | None => row
    end
  else row.

(** All the assignments of a SET-list, left to right. *)
Definition set_columns (set_list : list string) (arg : MoviePartial.t)
    (row : Movie.t) : Movie.t :=
  fold_left (fun r key => set_column key arg r) set_list row.

(** The assignment [key = :key] of an UPDATE whose named parameters come
    from a whole [Movie]; a date is kept as [stored_date] converts it. *)
Definition set_column_full (key : string) (arg : Movie.t) (row : Movie.t) : Movie.t :=
  if (key =? "id")%string then SetMovie.ID (Movie.ID arg) row
  else if (key =? "checksum")%string then SetMovie.Checksum (Movie.Checksum arg) row
  else if (key =? "name")%string then SetMovie.Name (Movie.Name arg) row
  else if (key =? "aliases")%string then SetMovie.Aliases (Movie.Aliases arg) row
  else if (key =? "duration")%string then SetMovie.Duration (Movie.Duration arg) row
  else if (key =? "date")%string then SetMovie.Date (stored_date (Movie.Date arg)) row
  else if (key =? "rating")%string then SetMovie.Rating (Movie.Rating arg) row
  else if (key =? "studio_id")%string then SetMovie.StudioID (Movie.StudioID arg) row
  else if (key =? "director")%string then SetMovie.Director (Movie.Director arg) row
  else if (key =? "synopsis")%string then SetMovie.Synopsis (Movie.Synopsis arg) row
  else if (key =? "url")%string then SetMovie.URL (Movie.URL arg) row
  else if (key =? "created_at")%string then SetMovie.CreatedAt (Movie.CreatedAt arg) row
  else if (key =? "updated_at")%string then SetMovie.UpdatedAt (Movie.UpdatedAt arg) row
  else row.

Definition set_columns_full (set_list : list string) (arg : Movie.t) (row : Movie.t)
    : Movie.t :=
  fold_left (fun r key => set_column_full key arg r) set_list row.

(** The columns of table [movies]. *)
Definition movie_columns : list string :=
  ["id"; "checksum"; "name"; "aliases"; "duration"; "date"; "rating"; "studio_id";
   "director"; "synopsis"; "url"; "created_at"; "updated_at"].

(** The effect of [UPDATE movies SET <set_list> WHERE movies.id = :id], the
    named parameters taken from a whole [Movie]. *)
Definition run_full_update (set_list : list string) (updatedMovie : Movie.t) (db : DB)
    : DB :=
  mkDB (List.map
          (fun row =>
             if Movie.ID row =? Movie.ID updatedMovie
             then set_columns_full set_list updatedMovie row
             else row)
          (movies db))
       (movies_scenes db) (movies_images db) (movies_sequence db).

(** The effect of a statement the engine accepts. *)
Definition run (s : Stmt) (db : DB) : DB :=
  match s with
  | InsertMovie newMovie =>
      mkDB (movies db ++ [SetMovie.ID (next_id db) (as_stored newMovie)])
           (movies_scenes db) (movies_images db) (next_id db)
  | UpdateMovies set_list updatedMovie =>
      mkDB (List.map
              (fun row =>
                 if Movie.ID row =? MoviePartial.ID updatedMovie
                 then set_columns set_list updatedMovie row
                 else row)
              (movies db))
           (movies_scenes db) (movies_images db) (movies_sequence db)
  | DeleteMoviesScenes id =>
      mkDB (movies db)
           (List.filter (fun r => negb (id_matches id (movie_id r))) (movies_scenes db))
           (movies_images db) (movies_sequence db)
  | DeleteByID tableName id =>
      if (tableName =? "movies")%string then
        mkDB (List.filter (fun m => negb (id_matches id (Movie.ID m))) (movies db))
             (movies_scenes db) (images_after_delete id db) (movies_sequence db)
      else db
  | DeleteMoviesImages movieID =>
      mkDB (movies db) (movies_scenes db)
           (List.filter (fun r => negb (image_movie_id r =? movieID)) (movies_images db))
           (movies_sequence db)
  | InsertMoviesImages movieID frontImage backImage =>
      mkDB (movies db) (movies_scenes db)
           (movies_images db ++ [mkMoviesImages movieID frontImage backImage])
           (movies_sequence db)
  | SelectMovie _ | SelectFrontImage _ | SelectBackImage _ | Commit => db
  end.

(** [tx.Exec] and [tx.NamedExec], the error only. *)
Definition Exec (s : Stmt) (tx : DB) : option error * DB :=
  match fault s tx with
  | Some code => (Some (ErrStorage code), tx)
  | None => (None, run s tx)
  end.

(** The first row of [movies] with the given key. *)
Definition row_by_id (id : Z) (conn : DB) : option Movie.t :=
  List.find (fun m => Movie.ID m =? id) (movies conn).

(** The movie rows a query selects. *)
Definition movie_rows (query : Stmt) (conn : DB) : list Movie.t :=
  match query with
  | SelectMovie id =>
      match row_by_id id conn with
      | Some m => [m]
      | None => []
      end
  | _ => []
  end.

(** The sidecar rows a query selects. *)
Definition image_rows (movieID : Z) (conn : DB) : list MoviesImagesRow :=
  List.filter (fun r => image_movie_id r =? movieID) (movies_images conn).

(** The image column of the first sidecar row of a movie, nil when the
    movie has no sidecar row. *)
Definition stored_image (pick : MoviesImagesRow -> slice) (movieID : Z) (conn : DB)
    : slice :=
  match image_rows movieID conn with
  | [] => None
  | row :: _ => pick row
  end.

(** [queryMovies]: the rows scanned into movies; any error of [Queryx], of
    a scan or of the row iteration gives [(nil, err)].  [Queryx] reports a
    query without rows by an empty row set, never by [sql.ErrNoRows], so the
    test [err != sql.ErrNoRows] excludes nothing.  [conn] is the transaction
    when there is one and [database.DB] otherwise. *)
Definition queryMovies (query : Stmt) (conn : DB) : list Movie.t * option error :=
  match fault query conn with
  | Some code => ([], Some (ErrStorage code))
  | None => (movie_rows query conn, None)
  end.

(** [queryMovie]: [(nil, err)] when [err != nil || len(results) < 1]. *)
Definition queryMovie (query : Stmt) (conn : DB) : option Movie.t * option error :=
  let '(results, err) := queryMovies query conn in
  match err, results with
  | Some e, _ => (None, Some e)
  | None, [] => (None, None)
  | None, first :: _ => (Some first, None)
  end.

Definition Find (id : Z) (conn : DB) : option Movie.t * option error :=
  queryMovie (SelectMovie id) conn.

(** [Create]: insert, ask for the new key ([LastInsertId], which the engine
    always answers after an accepted INSERT), read the row back with
    [tx.Get], which reports [sql.ErrNoRows] when it finds none. *)
Definition Create (newMovie : Movie.t) (tx : DB)
    : (option Movie.t * option error) * DB :=
  let '(err, tx1) := Exec (InsertMovie newMovie) tx in
  match err with
  | Some e => ((None, Some e), tx1)
  | None =>
      let movieID := next_id tx in
      match fault (SelectMovie movieID) tx1 with
      | Some code => ((None, Some (ErrStorage code)), tx1)
      | None =>
          match movie_rows (SelectMovie movieID) tx1 with
          | [] => ((None, Some ErrNoRows), tx1)
          | stored :: _ => ((Some stored, None), tx1)
          end
      end
  end.

Definition Update (updatedMovie : MoviePartial.t) (tx : DB)
    : (option Movie.t * option error) * DB :=
  let '(err, tx1) := Exec (UpdateMovies (partial_keys updatedMovie) updatedMovie) tx in
  match err with
  | Some e => ((None, Some e), tx1)
  | None => (Find (MoviePartial.ID updatedMovie) tx1, tx1)
  end.

(** Modelled from the spec: [executeDeleteQuery], the generic
    parameterized delete by id. *)
Definition executeDeleteQuery (tableName : string) (id : string) (tx : DB)
    : option error * DB :=
  Exec (DeleteByID tableName id) tx.

Definition Destroy (id : string) (tx : DB) : option error * DB :=
  let '(err, tx1) := Exec (DeleteMoviesScenes id) tx in
  match err with
  | Some e => (Some e, tx1)
  | None => executeDeleteQuery "movies" id tx1
  end.

(** The loop of [FindMany]; [found] is the slice built so far. *)
Fixpoint FindMany_from (found : list (option Movie.t)) (ids : list Z) (conn : DB)
    : list (option Movie.t) * option error :=
  match ids with
  | [] => (found, None)
  | id :: rest =>
      let '(movie, err) := Find id conn in
      match err with
      | Some e => ([], Some e)
      | None =>
          match movie with
          | None => ([], Some (ErrMovieNotFound id))
          | Some _ => FindMany_from (found ++ [movie]) rest conn
          end
      end
  end.

(** [FindMany] reads through [database.DB] ([Find(id, nil)]). *)
Definition FindMany (ids : list Z) (conn : DB) : list (option Movie.t) * option error :=
  FindMany_from [] ids conn.

Definition DestroyMovieImages (movieID : Z) (tx : DB) : option error * DB :=
  Exec (DeleteMoviesImages movieID) tx.

Definition UpdateMovieImages (movieID : Z) (frontImage backImage : slice) (tx : DB)
    : option error * DB :=
  let '(err, tx1) := DestroyMovieImages movieID tx in
  match err with
  | Some e => (Some e, tx1)
  | None => Exec (InsertMoviesImages movieID frontImage backImage) tx1
  end.

(** Modelled from the spec: [getImage], a point read of one image column;
    it gives the empty (nil) slice and no error when there is no sidecar row. *)
Definition getImage (tx : DB) (query : Stmt) (pick : MoviesImagesRow -> slice)
    (movieID : Z) : slice * option error :=
  match fault query tx with
  | Some code => (None, Some (ErrStorage code))
  | None => (stored_image pick movieID tx, None)
  end.

Definition GetFrontImage (movieID : Z) (tx : DB) : slice * option error :=
  getImage tx (SelectFrontImage movieID) front_image movieID.

Definition GetBackImage (movieID : Z) (tx : DB) : slice * option error :=
  getImage tx (SelectBackImage movieID) back_image movieID.

(** ** Sorting and querying *)

(** Helpers of the generic SQL layer, outside the sources. *)
Variable getColumn : string -> string -> string.
Variable getSort : string -> string -> string -> string.
Variable selectDistinctIDs : string -> string.
Variable getSearchBinding : list string -> string -> bool -> string * list SqlArg.
Variable getMultiCriterionClause :
  string -> string -> string -> string -> string -> MultiCriterionInput.t -> string * string.
Variable appendClause : list string -> string -> list string.
Variable getPagination : FindFilterType.t -> string.
(** [executeFindQuery] reads [database.DB]: the ids of the page and the
    total count. *)
Variable executeFindQuery :
  string -> string -> list SqlArg -> string -> list string -> list string -> DB -> list Z * Z.

Definition getMovieSort (findFilter : option FindFilterType.t) : string :=
  let '(sort, direction) :=
    match findFilter with
    | None => ("name", "ASC")
    | Some ff => (GetSort ff "name", GetDirection ff)
    end in
  if (sort =? "name")%string then
    (" ORDER BY " ++ getColumn "movies" sort ++ " COLLATE NATURAL_CS " ++ direction)%string
  else getSort sort direction "movies".

(** The pieces of the statement [Query] assembles: body, WHERE clauses,
    HAVING clauses, arguments. *)
Definition Query_clauses (movieFilter : MovieFilterType.t) (findFilter : FindFilterType.t)
    : string * list string * list string * list SqlArg :=
  let whereClauses : list string := [] in
  let havingClauses : list string := [] in
  let args : list SqlArg := [] in
  let body := (selectDistinctIDs "movies" ++ "
	left join movies_scenes as scenes_join on scenes_join.movie_id = movies.id
	left join scenes on scenes_join.scene_id = scenes.id
	left join studios as studio on studio.id = movies.studio_id
")%string in
  let '(whereClauses, args) :=
    match FindFilterType.Q findFilter with
    | Some q =>
        if (q =? "")%string then (whereClauses, args)
        else
          let '(clause, thisArgs) := getSearchBinding ["movies.name"] q false in
          ((whereClauses ++ [clause])%list, (args ++ thisArgs)%list)
    | None => (whereClauses, args)
    end in
  let '(whereClauses, havingClauses, args) :=
    match MovieFilterType.Studios movieFilter with
    | Some studiosFilter =>
        if (0 <? List.length (MultiCriterionInput.Value studiosFilter))%nat then
          let args := (args ++ List.map ArgText (MultiCriterionInput.Value studiosFilter))%list in
          let '(whereClause, havingClause) :=
            getMultiCriterionClause "movies" "studio" "" "" "studio_id" studiosFilter in
          (appendClause whereClauses whereClause,
           appendClause havingClauses havingClause, args)
        else (whereClauses, havingClauses, args)
    | None => (whereClauses, havingClauses, args)
    end in
  let '(body, whereClauses) :=
    match MovieFilterType.IsMissing movieFilter with
    | Some isMissingFilter =>
        if (isMissingFilter =? "")%string then (body, whereClauses)
        else if (isMissingFilter =? "front_image")%string then
          ((body ++ "left join movies_images on movies_images.movie_id = movies.id
			")%string,
           appendClause whereClauses "movies_images.front_image IS NULL")
        else if (isMissingFilter =? "back_image")%string then
          ((body ++ "left join movies_images on movies_images.movie_id = movies.id
			")%string,
           appendClause whereClauses "movies_images.back_image IS NULL")
        else if (isMissingFilter =? "scenes")%string then
          ((body ++ "left join movies_scenes on movies_scenes.movie_id = movies.id
			")%string,
           appendClause whereClauses "movies_scenes.scene_id IS NULL")
        else
          (body,
           appendClause whereClauses ("movies." ++ isMissingFilter ++ " IS NULL")%string)
    | None => (body, whereClauses)
    end in
  (body, whereClauses, havingClauses, args).

(** [Query], in two steps: [Query_find] assembles the statement and runs the
    id and count queries, [Query] hydrates the ids.  [database.DB] is read
    by the id query and read again by every [Find]; rows may be deleted in
    between, so the id query sees [conn] and the hydration sees [conn']. *)
Definition Query_find (movieFilter : option MovieFilterType.t)
    (findFilter : option FindFilterType.t) (conn : DB) : list Z * Z :=
  let findFilter := match findFilter with Some ff => ff | None => FindFilterType.zero end in
  let movieFilter := match movieFilter with Some mf => mf | None => MovieFilterType.zero end in
  let '(body, whereClauses, havingClauses, args) := Query_clauses movieFilter findFilter in
  let sortAndPagination := (getMovieSort (Some findFilter) ++ getPagination findFilter)%string in
  executeFindQuery "movies" body args sortAndPagination whereClauses havingClauses conn.

Definition Query (movieFilter : option MovieFilterType.t)
    (findFilter : option FindFilterType.t) (conn conn' : DB)
    : list (option Movie.t) * Z :=
  let '(idsResult, countResult) := Query_find movieFilter findFilter conn in
  let movies :=
    fold_left (fun movies id => let '(movie, _) := Find id conn' in (movies ++ [movie])%list)
              idsResult [] in
  (movies, countResult).

(** * The mutation resolvers *)

(** Collaborators outside the sources: the checksum utility, the base64
    image decoder (its [[]byte] and error results), the default image and
    the clock. *)
Variable MD5FromString : string -> string.
Variable ProcessBase64Image : string -> slice * option error.
Variable DefaultMovieImage : string.
Variable time_Now : Z.

(** [if image != nil { _, data, err = utils.ProcessBase64Image( *image ) }]:
    a nil image leaves the data nil and the error nil. *)
Definition decoded (image : option string) : slice * option error :=
  match image with
  | Some encoded => ProcessBase64Image encoded
  | None => (None, None)
  end.

(** [if input.X != nil { newMovie.X = sql.NullString{String: *input.X, Valid: true} }] *)
Definition valid_string (value : option string) : NullString.t :=
  match value with
  | Some v => NullString.mk v true
  | None => NullString.zero
  end.

Definition valid_int64 (value : option Z) : NullInt64.t :=
  match value with
  | Some v => NullInt64.mk v true
  | None => NullInt64.zero
  end.

(** The [newMovie] that [MovieCreate] populates from its input. *)
Definition MovieCreate_newMovie (input : MovieCreateInput.t) : Movie.t :=
  let checksum := MD5FromString (MovieCreateInput.Name input) in
  let currentTime := time_Now in
  Movie.mk 0
    checksum
    (NullString.mk (MovieCreateInput.Name input) true)
    (valid_string (MovieCreateInput.Aliases input))
    (valid_int64 (MovieCreateInput.Duration input))
    match MovieCreateInput.Date input with
    | Some d => SQLiteDate.mk d true
    | None => SQLiteDate.zero
    end
    (valid_int64 (MovieCreateInput.Rating input))
    match MovieCreateInput.StudioID input with
    | Some s => NullInt64.mk (ParseInt s) true
    | None => NullInt64.zero
    end
    (valid_string (MovieCreateInput.Director input))
    (valid_string (MovieCreateInput.Synopsis input))
    (valid_string (MovieCreateInput.URL input))
    (SQLiteTimestamp.mk currentTime)
    (SQLiteTimestamp.mk currentTime).

(** [if input.FrontImage == nil && input.BackImage != nil]: the front
    image is the default one. *)
Definition MovieCreate_FrontImage (input : MovieCreateInput.t) : option string :=
  match MovieCreateInput.FrontImage input, MovieCreateInput.BackImage input with
  | None, Some _ => Some DefaultMovieImage
  | front, _ => front
  end.

(** [MovieCreate]; the second component is the committed contents of the
    database when the call ends.  A rollback, and a commit that fails, leave
    them as they were. *)
Definition MovieCreate (input : MovieCreateInput.t) (db : DB)
    : outcome (option Movie.t) * DB :=
  (* HACK: if back image is being set, set the front image to the default. *)
  let FrontImage := MovieCreate_FrontImage input in
  let '(frontimageData, err) := decoded FrontImage in
  match err with
  | Some e => (Returned None (Some e), db)
  | None =>
  let '(backimageData, err) := decoded (MovieCreateInput.BackImage input) in
  match err with
  | Some e => (Returned None (Some e), db)
  | None =>
  let newMovie := MovieCreate_newMovie input in
  (* Start the transaction and save the movie *)
  let tx := db in
  let '((movie, err), tx) := Create newMovie tx in
  match err with
  | Some e => (Returned None (Some e), db)
  | None =>
  (* update image table *)
  let images :=
    if (0 <? len frontimageData)%nat then
      match movie with
      | Some created =>
          Some (UpdateMovieImages (Movie.ID created) frontimageData backimageData tx)
      | None => None
      end
    else Some (None, tx) in
  match images with
  | None => (Panicked, db)
  | Some (Some e, _) => (Returned None (Some e), db)
  | Some (None, tx) =>
  (* Commit *)
  match fault Commit tx with
  | Some code => (Returned None (Some (ErrStorage code)), db)
  | None => (Returned movie None, tx)
  end end end end end.

(** The [updatedMovie] that [MovieUpdate] populates from its input and the
    presence set. *)
Definition MovieUpdate_updatedMovie (input : MovieUpdateInput.t) (inputMap : gset string)
    : MoviePartial.t :=
  let movieID := Atoi (MovieUpdateInput.ID input) in
  MoviePartial.mk movieID
    match MovieUpdateInput.Name input with
    | Some name => Some (MD5FromString name)
    | None => None
    end
    match MovieUpdateInput.Name input with
    | Some name => Some (NullString.mk name true)
    | None => None
    end
    (nullString inputMap (MovieUpdateInput.Aliases input) "aliases")
    (nullInt64 inputMap (MovieUpdateInput.Duration input) "duration")
    (sqliteDate inputMap (MovieUpdateInput.Date input) "date")
    (nullInt64 inputMap (MovieUpdateInput.Rating input) "rating")
    (nullInt64FromString inputMap (MovieUpdateInput.StudioID input) "studio_id")
    (nullString inputMap (MovieUpdateInput.Director input) "director")
    (nullString inputMap (MovieUpdateInput.Synopsis input) "synopsis")
    (nullString inputMap (MovieUpdateInput.URL input) "url")
    None
    (Some (SQLiteTimestamp.mk time_Now)).

(** [if frontimageData == nil && backimageData != nil]: the front image is
    the default payload, decoded with its error dropped. *)
Definition front_or_default (front back : slice) : slice :=
  match front, back with
  | None, Some _ => fst (ProcessBase64Image DefaultMovieImage)
  | _, _ => front
  end.

(** The image step of [MovieUpdate] ([if frontImageIncluded ||
    backImageIncluded]): the transaction after it, or how the call ends. *)
Definition MovieUpdate_images (frontImageIncluded backImageIncluded : bool)
    (frontimageData backimageData : slice) (movieID : Z) (movie : option Movie.t)
    (tx : DB) : DB + outcome (option Movie.t) :=
  if frontImageIncluded || backImageIncluded then
    let '(frontimageData, err) :=
      if negb frontImageIncluded then GetFrontImage movieID tx
      else (frontimageData, None) in
    match err with
    | Some e => inr (Returned None (Some e))
    | None =>
    let '(backimageData, err) :=
      if negb backImageIncluded then GetBackImage movieID tx
      else (backimageData, None) in
    match err with
    | Some e => inr (Returned None (Some e))
    | None =>
    if both_empty frontimageData backimageData then
      (* both images are being nulled. Destroy them. *)
      match movie with
      | None => inr Panicked
      | Some m =>
          match DestroyMovieImages (Movie.ID m) tx with
          | (Some e, _) => inr (Returned None (Some e))
          | (None, tx) => inl tx
          end
      end
    else
      (* HACK - if front image is null and back image is not null, then set
         the front image to the default image *)
      let frontimageData := front_or_default frontimageData backimageData in
      match movie with
      | None => inr Panicked
      | Some m =>
          match UpdateMovieImages (Movie.ID m) frontimageData backimageData tx with
          | (Some e, _) => inr (Returned None (Some e))
          | (None, tx) => inl tx
          end
      end
    end end
  else inl tx.

(** [MovieUpdate]; [inputMap] is the presence set [getUpdateInputMap(ctx)]
    gives, the second component the committed contents when the call ends. *)
Definition MovieUpdate (input : MovieUpdateInput.t) (inputMap : gset string) (db : DB)
    : outcome (option Movie.t) * DB :=
  let frontImageIncluded := hasField inputMap "front_image" in
  let '(frontimageData, err) := decoded (MovieUpdateInput.FrontImage input) in
  match err with
  | Some e => (Returned None (Some e), db)
  | None =>
  let backImageIncluded := hasField inputMap "back_image" in
  let '(backimageData, err) := decoded (MovieUpdateInput.BackImage input) in
  match err with
  | Some e => (Returned None (Some e), db)
  | None =>
  let updatedMovie := MovieUpdate_updatedMovie input inputMap in
  (* Start the transaction and save the movie *)
  let tx := db in
  let '((movie, err), tx) := Update updatedMovie tx in
  match err with
  | Some e => (Returned None (Some e), db)
  | None =>
  (* update image table *)
  match MovieUpdate_images frontImageIncluded backImageIncluded
          frontimageData backimageData (MoviePartial.ID updatedMovie) movie tx with
  | inr stopped => (stopped, db)
  | inl tx =>
  (* Commit *)
  match fault Commit tx with
  | Some code => (Returned None (Some (ErrStorage code)), db)
  | None => (Returned movie None, tx)
  end end end end end.

(** The loop of [MoviesDestroy] on the open transaction. *)
Fixpoint MoviesDestroy_loop (ids : list string) (tx : DB) : option error * DB :=
  match ids with
  | [] => (None, tx)
  | id :: rest =>
      match Destroy id tx with
      | (Some e, tx) => (Some e, tx)
      | (None, tx) => MoviesDestroy_loop rest tx
      end
  end.

Definition MovieDestroy (id : string) (db : DB) : (bool * option error) * DB :=
  let tx := db in
  match Destroy id tx with
  | (Some e, _) => ((false, Some e), db)
  | (None, tx) =>
      match fault Commit tx with
      | Some code => ((false, Some (ErrStorage code)), db)
      | None => ((true, None), tx)
      end
  end.

Definition MoviesDestroy (ids : list string) (db : DB) : (bool * option error) * DB :=
  let tx := db in
  match MoviesDestroy_loop ids tx with
  | (Some e, _) => ((false, Some e), db)
  | (None, tx) =>
      match fault Commit tx with
      | Some code => ((false, Some (ErrStorage code)), db)
      | None => ((true, None), tx)
      end
  end.

(** * The lookups *)

(** The engine's faults on the lookups, as [fault] on the statements. *)
Variable lookup_fault : MovieQuery -> DB -> option nat.

(** [queryMovies] on a lookup. *)
Definition queryMoviesBy (query : MovieQuery) (conn : DB) : list Movie.t * option error :=
  match lookup_fault query conn with
  | Some code => ([], Some (ErrStorage code))
  | None => (lookup_rows query conn, None)
  end.

(** [queryMovie] on a lookup. *)
Definition queryMovieBy (query : MovieQuery) (conn : DB) : option Movie.t * option error :=
  let '(results, err) := queryMoviesBy query conn in
  match err, results with
  | Some e, _ => (None, Some e)
  | None, [] => (None, None)
  | None, first :: _ => (Some first, None)
  end.

Definition FindBySceneID (sceneID : Z) (tx : DB) : list Movie.t * option error :=
  queryMoviesBy (SelectBySceneID sceneID) tx.

Definition FindByName (name : string) (tx : DB) (nocase : bool)
    : option Movie.t * option error :=
  queryMovieBy (SelectByName name nocase) tx.

(** [FindByNames]; the arguments are the names, in their order. *)
Definition FindByNames (names : list string) (tx : DB) (nocase : bool)
    : list Movie.t * option error :=
  queryMoviesBy (SelectByNames names nocase) tx.

(** * The whole-record update *)

(** The column keys [SQLGenKeys] emits for a movie; the helper is outside
    the sources. *)
Variable SQLGenKeys_keys : Movie.t -> list string.

(** The engine's faults on the whole-record UPDATE. *)
Variable full_update_fault : list string -> Movie.t -> DB -> option nat.

Definition UpdateFull (updatedMovie : Movie.t) (tx : DB)
    : (option Movie.t * option error) * DB :=
  match full_update_fault (SQLGenKeys_keys updatedMovie) updatedMovie tx with
  | Some code => ((None, Some (ErrStorage code)), tx)
  | None =>
      let tx1 := run_full_update (SQLGenKeys_keys updatedMovie) updatedMovie tx in
      (Find (Movie.ID updatedMovie) tx1, tx1)
  end.

(** * Properties *)

(** ** Reading rows *)

Lemma row_by_id_ID (id : Z) (conn : DB) (m : Movie.t) :
  row_by_id id conn = Some m -> Movie.ID m = id.
Proof.
  unfold row_by_id. intros H. apply find_some in H. destruct H as [_ H].
  now apply Z.eqb_eq.
Qed.

Lemma row_by_id_In (id : Z) (conn : DB) (m : Movie.t) :
  row_by_id id conn = Some m -> In m (movies conn).
Proof. unfold row_by_id. intros H. now apply find_some in H. Qed.

Lemma row_by_id_None (id : Z) (conn : DB) :
  row_by_id id conn = None <-> (forall m, In m (movies conn) -> Movie.ID m <> id).
Proof.
  unfold row_by_id. split.
  - intros H m Hm Heq. apply (find_none _ _ H) in Hm. apply Z.eqb_neq in Hm. contradiction.
  - intros H. destruct (find _ _) eqn:E; [|reflexivity].
    apply find_some in E. destruct E as [Hin Heq]. apply Z.eqb_eq in Heq.
    now apply H in Hin.
Qed.

(** Without a fault, [Find] gives the first row with the key, and no error
    whether or not there is one. *)
Lemma Find_no_fault (id : Z) (conn : DB) :
  fault (SelectMovie id) conn = None ->
  Find id conn = (row_by_id id conn, None).
Proof.
  intros H. unfold Find, queryMovie, queryMovies. rewrite H. simpl.
  destruct (row_by_id id conn); reflexivity.
Qed.

Lemma Find_fault (id : Z) (conn : DB) (code : nat) :
  fault (SelectMovie id) conn = Some code ->
  Find id conn = (None, Some (ErrStorage code)).
Proof. intros H. unfold Find, queryMovie, queryMovies. now rewrite H. Qed.

(** ** FindMany *)




(** ** Query *)

Lemma hydrate_fold (conn' : DB) (ids : list Z) :
  forall acc,
    fold_left (fun movies id => let '(movie, _) := Find id conn' in (movies ++ [movie])%list)
              ids acc
    = (acc ++ List.map (fun id => fst (Find id conn')) ids)%list.
Proof.
  induction ids as [|id rest IH]; intros acc; simpl.
  - now rewrite app_nil_r.
  - rewrite IH. destruct (Find id conn') as [movie err]. simpl.
    now rewrite <- app_assoc.
Qed.

(** C4, as the code has it.  [Query] drops the error of each [Find] and keeps
    its result: the list has one entry per id of the id query, in that
    order, the row for an id that is found and a nil entry for an id that is
    not (or whose read fails). *)
Theorem Query_keeps_an_entry_per_id (movieFilter : option MovieFilterType.t)
    (findFilter : option FindFilterType.t) (conn conn' : DB) :
  let ids := fst (Query_find movieFilter findFilter conn) in
  Query movieFilter findFilter conn conn'
  = (List.map (fun id => fst (Find id conn')) ids,
     snd (Query_find movieFilter findFilter conn))
  /\ List.length (fst (Query movieFilter findFilter conn conn')) = List.length ids
  /\ forall k id,
       nth_error ids k = Some id ->
       nth_error (fst (Query movieFilter findFilter conn conn')) k
       = Some match fault (SelectMovie id) conn' with
              | Some _ => None
              | None => row_by_id id conn'
              end.
Proof.
  intros ids.
  assert (E : Query movieFilter findFilter conn conn'
              = (List.map (fun id => fst (Find id conn')) ids,
                 snd (Query_find movieFilter findFilter conn))).
  { unfold Query, ids. destruct (Query_find _ _ _) as [idsResult countResult].
    now rewrite hydrate_fold. }
  split; [exact E|]. rewrite E. simpl. split.
  - apply length_map.
  - intros k id Hk. rewrite nth_error_map, Hk. simpl. f_equal.
    destruct (fault (SelectMovie id) conn') as [code|] eqn:F.
    + now rewrite (Find_fault _ _ _ F).
    + now rewrite (Find_no_fault _ _ F).
Qed.

(** ** getMovieSort *)

(** C8.  Without a filter, and with a filter that names no sort key and no
    direction, the clause orders by the name column ascending.  Whenever the
    sort key is [name] the clause asks for the natural collation, whatever
    the direction; every other key goes to the generic [getSort]. *)
Theorem getMovieSort_name_is_natural :
  getMovieSort None
  = (" ORDER BY " ++ getColumn "movies" "name" ++ " COLLATE NATURAL_CS " ++ "ASC")%string
  /\ (forall ff,
        FindFilterType.Sort ff = None -> FindFilterType.Direction ff = None ->
        getMovieSort (Some ff) = getMovieSort None)
  /\ (forall ff,
        GetSort ff "name" = "name" ->
        getMovieSort (Some ff)
        = (" ORDER BY " ++ getColumn "movies" "name" ++ " COLLATE NATURAL_CS "
           ++ GetDirection ff)%string)
  /\ (forall ff,
        GetSort ff "name" <> "name" ->
        getMovieSort (Some ff) = getSort (GetSort ff "name") (GetDirection ff) "movies").
Proof.
  repeat split.
  - intros ff Hs Hd. unfold getMovieSort, GetSort, GetDirection. now rewrite Hs, Hd.
  - intros ff Hs. unfold getMovieSort. now rewrite Hs.
  - intros ff Hs. unfold getMovieSort.
    destruct (String.eqb_spec (GetSort ff "name") "name"); [contradiction | reflexivity].
Qed.

(** ** Update *)

Lemma set_column_ID (key : string) (arg : MoviePartial.t) (row : Movie.t) :
  Movie.ID (set_column key arg row) = Movie.ID row.
Proof.
  unfold set_column.
  repeat match goal with
         | |- context [if ?b then _ else _] => destruct b
         | |- context [match ?o with Some _ => _ | None => _ end] => destruct o
         end; reflexivity.
Qed.

Lemma set_columns_ID (set_list : list string) (arg : MoviePartial.t) (row : Movie.t) :
  Movie.ID (set_columns set_list arg row) = Movie.ID row.
Proof.
  unfold set_columns. revert row.
  induction set_list as [|key rest IH]; intros row; simpl; [reflexivity|].
  now rewrite IH, set_column_ID.
Qed.

Lemma find_map_same_key (f : Movie.t -> Movie.t) (id : Z) (rows : list Movie.t) :
  (forall row, Movie.ID (f row) = Movie.ID row) ->
  List.find (fun m => Movie.ID m =? id) (List.map f rows)
  = option_map f (List.find (fun m => Movie.ID m =? id) rows).
Proof.
  intros Hf. induction rows as [|row rest IH]; simpl; [reflexivity|].
  rewrite Hf. destruct (Movie.ID row =? id); [reflexivity | exact IH].
Qed.

(** The rows of [movies] after an accepted UPDATE. *)
Lemma run_UpdateMovies_row (set_list : list string) (p : MoviePartial.t) (tx : DB) :
  row_by_id (MoviePartial.ID p) (run (UpdateMovies set_list p) tx)
  = option_map (set_columns set_list p) (row_by_id (MoviePartial.ID p) tx).
Proof.
  unfold row_by_id. simpl.
  rewrite find_map_same_key.
  - destruct (find _ (movies tx)) as [old|] eqn:E; simpl; [|reflexivity].
    apply find_some in E. destruct E as [_ E]. now rewrite E.
  - intros row. destruct (Movie.ID row =? MoviePartial.ID p); [apply set_columns_ID | reflexivity].
Qed.

Lemma run_UpdateMovies_absent (set_list : list string) (p : MoviePartial.t) (tx : DB) :
  row_by_id (MoviePartial.ID p) tx = None ->
  run (UpdateMovies set_list p) tx = tx.
Proof.
  intros H. destruct tx as [ms sc im]. simpl. f_equal.
  pose proof (proj1 (row_by_id_None _ _) H) as Hn. clear H. rename Hn into H.
  simpl in H.
  induction ms as [|row rest IH]; simpl; [reflexivity|].
  rewrite IH by (intros m Hm; apply H; now right).
  destruct (Z.eqb_spec (Movie.ID row) (MoviePartial.ID p)) as [Heq|]; [|reflexivity].
  exfalso. apply (H row); [now left | exact Heq].
Qed.

(** [Update] on an engine that accepts the UPDATE and the re-read. *)
Lemma Update_accepted (p : MoviePartial.t) (tx : DB) :
  fault (UpdateMovies (partial_keys p) p) tx = None ->
  fault (SelectMovie (MoviePartial.ID p)) (run (UpdateMovies (partial_keys p) p) tx) = None ->
  Update p tx
  = ((option_map (set_columns (partial_keys p) p) (row_by_id (MoviePartial.ID p) tx), None),
     run (UpdateMovies (partial_keys p) p) tx).
Proof.
  intros Hu Hs. unfold Update, Exec. rewrite Hu.
  now rewrite Find_no_fault, run_UpdateMovies_row.
Qed.

(** C3, as the code has it.  When the engine accepts the UPDATE and the
    re-read, [Update] returns the first row with the patch's key as the
    UPDATE left it: the old row with the SET-list applied.  When no row has
    the key it returns a nil movie and a nil error, and the table is as it
    was. *)
Theorem Update_returns_the_reread_row (p : MoviePartial.t) (tx : DB) :
  let tx1 := run (UpdateMovies (partial_keys p) p) tx in
  fault (UpdateMovies (partial_keys p) p) tx = None ->
  fault (SelectMovie (MoviePartial.ID p)) tx1 = None ->
  Update p tx = ((row_by_id (MoviePartial.ID p) tx1, None), tx1)
  /\ (forall old,
        row_by_id (MoviePartial.ID p) tx = Some old ->
        Update p tx = ((Some (set_columns (partial_keys p) p old), None), tx1))
  /\ (row_by_id (MoviePartial.ID p) tx = None ->
        Update p tx = ((None, None), tx)).
Proof.
  intros tx1 Hu Hs. rewrite Update_accepted by assumption. fold tx1. split; [|split].
  - unfold tx1. now rewrite run_UpdateMovies_row.
  - intros old Hold. now rewrite Hold.
  - intros Hnone. rewrite Hnone. unfold tx1.
    now rewrite run_UpdateMovies_absent.
Qed.

(** ** Destroy *)

Lemma filter_keeps_all {A : Type} (f : A -> bool) (l : list A) :
  (forall x, In x l -> f x = true) -> List.filter f l = l.
Proof.
  induction l as [|x rest IH]; intros H; simpl; [reflexivity|].
  rewrite (H x) by now left. f_equal. apply IH. intros; apply H; now right.
Qed.

Lemma Destroy_refused_at_join (id : string) (tx : DB) (code : nat) :
  fault (DeleteMoviesScenes id) tx = Some code ->
  Destroy id tx = (Some (ErrStorage code), tx).
Proof. intros H. unfold Destroy, Exec. now rewrite H. Qed.

Lemma Destroy_refused_at_entity (id : string) (tx : DB) (code : nat) :
  fault (DeleteMoviesScenes id) tx = None ->
  fault (DeleteByID "movies" id) (run (DeleteMoviesScenes id) tx) = Some code ->
  Destroy id tx = (Some (ErrStorage code), run (DeleteMoviesScenes id) tx).
Proof.
  intros H1 H2. unfold Destroy, Exec. rewrite H1.
  unfold executeDeleteQuery, Exec. now rewrite H2.
Qed.

Lemma Destroy_accepted (id : string) (tx : DB) :
  fault (DeleteMoviesScenes id) tx = None ->
  fault (DeleteByID "movies" id) (run (DeleteMoviesScenes id) tx) = None ->
  Destroy id tx = (None, run (DeleteByID "movies" id) (run (DeleteMoviesScenes id) tx)).
Proof.
  intros H1 H2. unfold Destroy, Exec. rewrite H1.
  unfold executeDeleteQuery, Exec. now rewrite H2.
Qed.

(** Whatever the engine does, a [Destroy] that reports no error has run
    both deletes. *)
Lemma Destroy_ok_inv (id : string) (tx tx' : DB) :
  Destroy id tx = (None, tx') ->
  tx' = run (DeleteByID "movies" id) (run (DeleteMoviesScenes id) tx).
Proof.
  unfold Destroy, Exec, executeDeleteQuery, Exec.
  destruct (fault (DeleteMoviesScenes id) tx); [discriminate|].
  destruct (fault (DeleteByID "movies" id) _); [discriminate|].
  now intros [= <-].
Qed.

(** C6.  [Destroy] deletes the join rows of the id first and the entity row
    second: a refused first delete removes nothing, a refused second delete
    leaves the join rows removed and the movies untouched, and when both are
    accepted no join row and no movie with the id is left, every other
    movie and join row staying where it was.  For an id that no row carries
    both deletes remove no row and [Destroy] reports no error. *)
Theorem Destroy_join_rows_then_entity (id : string) (tx : DB) :
  let tx1 := run (DeleteMoviesScenes id) tx in
  let tx2 := run (DeleteByID "movies" id) tx1 in
  (forall code,
     fault (DeleteMoviesScenes id) tx = Some code ->
     Destroy id tx = (Some (ErrStorage code), tx))
  /\ (forall code,
        fault (DeleteMoviesScenes id) tx = None ->
        fault (DeleteByID "movies" id) tx1 = Some code ->
        Destroy id tx = (Some (ErrStorage code), tx1)
        /\ movies tx1 = movies tx
        /\ forall r, In r (movies_scenes tx1) -> id_matches id (movie_id r) = false)
  /\ (fault (DeleteMoviesScenes id) tx = None ->
      fault (DeleteByID "movies" id) tx1 = None ->
      Destroy id tx = (None, tx2)
      /\ movies_scenes tx2
         = List.filter (fun r => negb (id_matches id (movie_id r))) (movies_scenes tx)
      /\ movies tx2
         = List.filter (fun m => negb (id_matches id (Movie.ID m))) (movies tx)
      /\ (forall r, In r (movies_scenes tx2) -> id_matches id (movie_id r) = false)
      /\ (forall m, In m (movies tx2) -> id_matches id (Movie.ID m) = false)
      /\ ((forall r, In r (movies_scenes tx) -> id_matches id (movie_id r) = false) ->
          (forall m, In m (movies tx) -> id_matches id (Movie.ID m) = false) ->
          movies_scenes tx2 = movies_scenes tx /\ movies tx2 = movies tx)).
Proof.
  intros tx1 tx2. split; [|split].
  - intros code H. now apply Destroy_refused_at_join.
  - intros code H1 H2. split; [now apply Destroy_refused_at_entity|].
    split; [reflexivity|].
    intros r Hr. unfold tx1 in Hr. simpl in Hr. apply filter_In in Hr.
    destruct Hr as [_ Hr]. now apply negb_true_iff in Hr.
  - intros H1 H2.
    assert (E : Destroy id tx = (None, tx2)) by now apply Destroy_accepted.
    split; [exact E|]. split; [reflexivity|]. split; [reflexivity|].
    split; [|split].
    + intros r Hr. unfold tx2, tx1 in Hr. simpl in Hr. apply filter_In in Hr.
      destruct Hr as [_ Hr]. now apply negb_true_iff in Hr.
    + intros m Hm. unfold tx2, tx1 in Hm. simpl in Hm. apply filter_In in Hm.
      destruct Hm as [_ Hm]. now apply negb_true_iff in Hm.
    + intros Hs Hm. unfold tx2, tx1. cbn [run String.eqb Ascii.eqb Bool.eqb movies movies_scenes].
      split; apply filter_keeps_all; intros x Hx; apply negb_true_iff; auto.
Qed.

(** ** MoviesDestroy *)

Lemma MoviesDestroy_loop_first_failure (pre : list string) (id : string)
    (post : list string) (e : error) :
  forall tx tx',
    MoviesDestroy_loop pre tx = (None, tx') ->
    fst (Destroy id tx') = Some e ->
    fst (MoviesDestroy_loop (pre ++ id :: post) tx) = Some e.
Proof.
  induction pre as [|i pre IH]; intros tx tx' Hpre Hid; simpl in *.
  - injection Hpre as <-. destruct (Destroy id tx) as [[e'|] tx'']; simpl in *.
    + exact Hid.
    + discriminate.
  - destruct (Destroy i tx) as [[e'|] tx'']; [discriminate|].
    eapply IH; eauto.
Qed.

Lemma MoviesDestroy_loop_ok (ids : list string) :
  forall tx tx',
    MoviesDestroy_loop ids tx = (None, tx') ->
    (forall m, In m (movies tx') ->
       In m (movies tx) /\ forall id, In id ids -> id_matches id (Movie.ID m) = false)
    /\ (forall r, In r (movies_scenes tx') ->
          In r (movies_scenes tx) /\ forall id, In id ids -> id_matches id (movie_id r) = false).
Proof.
  induction ids as [|id rest IH]; intros tx tx' H; simpl in H.
  - injection H as <-. repeat split; auto; intros ? [].
  - destruct (Destroy id tx) as [[e|] tx1] eqn:E; [discriminate|].
    apply Destroy_ok_inv in E. apply IH in H. destruct H as (Hm & Hs).
    subst tx1. simpl in *. repeat split.
    + apply Hm in H. destruct H as [H _]. now apply filter_In in H.
    + intros i [<-|Hi']; apply Hm in H; destruct H as [H H'].
      * apply filter_In in H. destruct H as [_ H]. now apply negb_true_iff in H.
      * now apply H'.
    + apply Hs in H. destruct H as [H _]. now apply filter_In in H.
    + intros i [<-|Hi']; apply Hs in H; destruct H as [H H'].
      * apply filter_In in H. destruct H as [_ H]. now apply negb_true_iff in H.
      * now apply H'.
Qed.

Lemma MoviesDestroy_loop_no_fault (ids : list string) :
  (forall s d, fault s d = None) ->
  forall tx, fst (MoviesDestroy_loop ids tx) = None.
Proof.
  intros Hf. induction ids as [|id rest IH]; intros tx; simpl; [reflexivity|].
  rewrite Destroy_accepted by apply Hf. apply IH.
Qed.

(** C5.  [MoviesDestroy] commits all of the batch or none of it.  When it
    returns an error it returns false and the committed tables are as they
    were before the call; the error is that of the first [Destroy] that
    fails, whatever the ids after it.  When it returns no error it returns
    true and the committed tables hold no movie and no join row of any id of
    the batch.  On an engine that refuses nothing it returns true. *)
Theorem MoviesDestroy_all_or_nothing (ids : list string) (db : DB) :
  (forall e,
     snd (fst (MoviesDestroy ids db)) = Some e ->
     MoviesDestroy ids db = ((false, Some e), db))
  /\ (forall pre id post tx e,
        ids = (pre ++ id :: post)%list ->
        MoviesDestroy_loop pre db = (None, tx) ->
        fst (Destroy id tx) = Some e ->
        MoviesDestroy ids db = ((false, Some e), db))
  /\ (snd (fst (MoviesDestroy ids db)) = None ->
      fst (fst (MoviesDestroy ids db)) = true
      /\ forall id, In id ids ->
           (forall m, In m (movies (snd (MoviesDestroy ids db))) ->
              id_matches id (Movie.ID m) = false)
           /\ (forall r, In r (movies_scenes (snd (MoviesDestroy ids db))) ->
                 id_matches id (movie_id r) = false))
  /\ ((forall s d, fault s d = None) ->
      MoviesDestroy ids db = ((true, None), snd (MoviesDestroy_loop ids db))).
Proof.
  split; [|split; [|split]].
  - intros e. unfold MoviesDestroy.
    destruct (MoviesDestroy_loop ids db) as [[e'|] tx]; simpl.
    + now intros [= ->].
    + destruct (fault Commit tx); simpl; [now intros [= <-] | discriminate].
  - intros pre id post tx e -> Hpre Hid. unfold MoviesDestroy.
    pose proof (MoviesDestroy_loop_first_failure pre id post e db tx Hpre Hid) as H.
    destruct (MoviesDestroy_loop (pre ++ id :: post) db) as [[e'|] tx'']; simpl in H.
    + now injection H as ->.
    + discriminate.
  - unfold MoviesDestroy.
    destruct (MoviesDestroy_loop ids db) as [[e'|] tx] eqn:E; simpl; [discriminate|].
    destruct (fault Commit tx); simpl; [discriminate|]. intros _.
    split; [reflexivity|]. intros id Hid.
    apply MoviesDestroy_loop_ok in E. destruct E as (Hm & Hs).
    split.
    + intros m H. apply Hm in H. destruct H as [_ H]. now apply H.
    + intros r H. apply Hs in H. destruct H as [_ H]. now apply H.
  - intros Hf. unfold MoviesDestroy.
    pose proof (MoviesDestroy_loop_no_fault ids Hf db) as H.
    destruct (MoviesDestroy_loop ids db) as [[e'|] tx]; simpl in H; [discriminate|].
    now rewrite Hf.
Qed.

(** ** The SET-list and the stored columns *)

Lemma column_set_column_other (key f : string) (arg : MoviePartial.t) (row : Movie.t) :
  key <> f -> column f (set_column key arg row) = column f row.
Proof.
  intros Hne. unfold set_column.
  repeat match goal with
         | |- context [(key =? ?s)%string] =>
             destruct (String.eqb_spec key s); [subst key|]
         end;
    repeat match goal with
           | |- context [match ?o with Some _ => _ | None => _ end] => destruct o
           end;
    try reflexivity;
    unfold column;
    repeat match goal with
           | |- context [(f =? ?s)%string] =>
               destruct (String.eqb_spec f s); [subst f|]
           end;
    try reflexivity; try congruence.
Qed.

Lemma column_set_columns_unlisted (set_list : list string) (f : string)
    (arg : MoviePartial.t) :
  ~ In f set_list ->
  forall row, column f (set_columns set_list arg row) = column f row.
Proof.
  unfold set_columns.
  induction set_list as [|key rest IH]; intros Hn row; simpl; [reflexivity|].
  rewrite IH by (intros H; apply Hn; now right).
  apply column_set_column_other. intros ->. apply Hn. now left.
Qed.

Lemma in_key_if_set {A : Type} (f : string) (field : option A) (key : string) :
  In f (key_if_set field key) <-> f = key /\ non_nil field = true.
Proof.
  destruct field; simpl; split.
  - intros [<-|[]]. now split.
  - intros [-> _]. now left.
  - intros [].
  - intros [_ H]. discriminate.
Qed.

Lemma in_partial_keys (f : string) (p : MoviePartial.t) :
  In f (partial_keys p) <-> is_set f p = true.
Proof.
  unfold partial_keys. rewrite !in_app_iff, !in_key_if_set. unfold is_set. split.
  - intros H.
    repeat (destruct H as [[-> H]|H]; [exact H|]).
    destruct H as [-> H]. exact H.
  - repeat match goal with
           | |- context [(f =? ?s)%string] =>
               destruct (String.eqb_spec f s);
               [ subst f; intros Hs;
                 repeat first [ split; [reflexivity | exact Hs]
                              | left; split; [reflexivity | exact Hs]
                              | right ] |]
           end.
    discriminate.
Qed.

Lemma column_set_column_same (f : string) (arg : MoviePartial.t) (r r' : Movie.t) :
  In f nullable_columns ->
  column f (set_column f arg r) = column f (set_column f arg r').
Proof.
  intros H. simpl in H.
  repeat (destruct H as [<-|H]; [reflexivity|]). destruct H.
Qed.

Lemma column_set_columns_listed (set_list : list string) (f : string)
    (arg : MoviePartial.t) :
  (forall r r', column f (set_column f arg r) = column f (set_column f arg r')) ->
  In f set_list ->
  forall row, column f (set_columns set_list arg row) = column f (set_column f arg row).
Proof.
  intros Hf. unfold set_columns.
  induction set_list as [|key rest IH]; intros Hin row; simpl; [destruct Hin|].
  destruct (in_dec string_dec f rest) as [Hrest|Hrest].
  - rewrite IH by exact Hrest. apply Hf.
  - destruct Hin as [->|Hin]; [|contradiction].
    now apply (column_set_columns_unlisted rest f arg Hrest).
Qed.

Lemma translated_is_set (input : MovieUpdateInput.t) (inputMap : gset string) (f : string) :
  In f translated_fields ->
  is_set f (MovieUpdate_updatedMovie input inputMap) = hasField inputMap f.
Proof.
  intros H. simpl in H.
  repeat (destruct H as [<-|H];
          [ cbn; unfold nullString, nullInt64, sqliteDate, nullInt64FromString;
            now destruct (hasField inputMap _) |]).
  destruct H.
Qed.

Lemma translated_null (input : MovieUpdateInput.t) (inputMap : gset string) (f : string)
    (row : Movie.t) :
  In f translated_fields ->
  hasField inputMap f = true ->
  input_null f input = true ->
  column f (set_column f (MovieUpdate_updatedMovie input inputMap) row)
  = if (f =? "date")%string then SqlDate (stored_date SQLiteDate.zero) else SqlNull.
Proof.
  intros H Hp Hn. simpl in H.
  repeat (destruct H as [<-|H];
          [ cbn in *; unfold nullString, nullInt64, sqliteDate, nullInt64FromString;
            rewrite Hp;
            match type of Hn with is_nil ?v = true => destruct v end;
            [discriminate | reflexivity] |]).
  destruct H.
Qed.

Lemma translated_nullable (f : string) : In f translated_fields -> In f nullable_columns.
Proof. intros H. now right. Qed.

Lemma Update_tables (p : MoviePartial.t) (tx : DB) :
  snd (Update p tx)
  = match fault (UpdateMovies (partial_keys p) p) tx with
    | Some _ => tx
    | None => run (UpdateMovies (partial_keys p) p) tx
    end.
Proof. unfold Update, Exec. now destruct (fault _ tx). Qed.

(** C1, as the code has it.  For each of the columns [MovieUpdate] fills
    through the translator: a field out of the presence set is not in the
    SET-list and [Update] leaves that column of every row as it was; a field
    in the presence set is in the SET-list, and when its value is null an
    accepted [Update] leaves NULL in that column of every row with the
    patch's key, except in the date column, which then holds what the
    conversion of [SQLiteDate] keeps of the invalid date.  The name is
    written on another rule: [name] and [checksum] are in the SET-list
    exactly when the request carries a name that is not null. *)
Theorem Update_writes_present_fields_only (input : MovieUpdateInput.t)
    (inputMap : gset string) (f : string) :
  let p := MovieUpdate_updatedMovie input inputMap in
  In f translated_fields ->
  (hasField inputMap f = false ->
     ~ In f (partial_keys p)
     /\ forall tx,
          List.map (column f) (movies (snd (Update p tx)))
          = List.map (column f) (movies tx))
  /\ (hasField inputMap f = true ->
        In f (partial_keys p)
        /\ (input_null f input = true ->
            forall tx row,
              fault (UpdateMovies (partial_keys p) p) tx = None ->
              In row (movies (snd (Update p tx))) ->
              Movie.ID row = MoviePartial.ID p ->
              column f row = if (f =? "date")%string
                             then SqlDate (stored_date SQLiteDate.zero)
                             else SqlNull))
  /\ (In "name" (partial_keys p) <-> MovieUpdateInput.Name input <> None)
  /\ (In "checksum" (partial_keys p) <-> MovieUpdateInput.Name input <> None).
Proof.
  intros p Hf. split; [|split; [|split]].
  - intros Hout.
    assert (Hn : ~ In f (partial_keys p)).
    { rewrite in_partial_keys. unfold p. rewrite translated_is_set by exact Hf.
      rewrite Hout. discriminate. }
    split; [exact Hn|]. intros tx. rewrite Update_tables.
    destruct (fault _ tx); [reflexivity|]. cbn [run movies]. rewrite List.map_map.
    apply List.map_ext. intros row.
    destruct (Movie.ID row =? MoviePartial.ID p); [|reflexivity].
    now apply column_set_columns_unlisted.
  - intros Hin.
    assert (Hk : In f (partial_keys p)).
    { rewrite in_partial_keys. unfold p. now rewrite translated_is_set by exact Hf. }
    split; [exact Hk|]. intros Hnull tx row Hfault Hrow Hid.
    rewrite Update_tables, Hfault in Hrow. cbn [run movies] in Hrow.
    apply in_map_iff in Hrow. destruct Hrow as (old & <- & _).
    destruct (Movie.ID old =? MoviePartial.ID p) eqn:E.
    + rewrite column_set_columns_listed;
        [ now apply translated_null
        | intros; now apply column_set_column_same, translated_nullable
        | exact Hk ].
    + apply Z.eqb_neq in E. contradiction.
  - rewrite in_partial_keys. unfold p. cbn.
    destruct (MovieUpdateInput.Name input); simpl; split; congruence.
  - rewrite in_partial_keys. unfold p. cbn.
    destruct (MovieUpdateInput.Name input); simpl; split; congruence.
Qed.

(** ** Create *)

Lemma next_id_above (db : DB) (m : Movie.t) :
  In m (movies db) -> Movie.ID m < next_id db.
Proof.
  unfold next_id. induction (movies db) as [|row rest IH]; simpl; intros H.
  - destruct H.
  - destruct H as [->|H]; [lia|]. apply IH in H. lia.
Qed.

Lemma find_after_fresh {A : Type} (P : A -> bool) (l : list A) (y : A) :
  (forall x, In x l -> P x = false) -> P y = true -> List.find P (l ++ [y]) = Some y.
Proof.
  intros Hl Hy. induction l as [|x rest IH]; simpl.
  - now rewrite Hy.
  - rewrite (Hl x) by now left. apply IH. intros; apply Hl; now right.
Qed.

Lemma row_after_insert (newMovie : Movie.t) (tx : DB) :
  row_by_id (next_id tx) (run (InsertMovie newMovie) tx)
  = Some (SetMovie.ID (next_id tx) (as_stored newMovie)).
Proof.
  unfold row_by_id. cbn [run movies]. apply find_after_fresh.
  - intros x Hx. apply next_id_above in Hx. apply Z.eqb_neq. lia.
  - apply Z.eqb_refl.
Qed.

Lemma Create_accepted (newMovie : Movie.t) (tx : DB) :
  fault (InsertMovie newMovie) tx = None ->
  fault (SelectMovie (next_id tx)) (run (InsertMovie newMovie) tx) = None ->
  Create newMovie tx
  = ((Some (SetMovie.ID (next_id tx) (as_stored newMovie)), None), run (InsertMovie newMovie) tx).
Proof.
  intros H1 H2. unfold Create, Exec. rewrite H1, H2.
  unfold movie_rows. now rewrite row_after_insert.
Qed.

Lemma Create_ok_inv (newMovie : Movie.t) (tx tx' : DB) (movie : option Movie.t) :
  Create newMovie tx = ((movie, None), tx') ->
  movie = Some (SetMovie.ID (next_id tx) (as_stored newMovie))
  /\ tx' = run (InsertMovie newMovie) tx.
Proof.
  unfold Create, Exec.
  destruct (fault (InsertMovie newMovie) tx); [discriminate|].
  destruct (fault (SelectMovie (next_id tx)) _); [discriminate|].
  unfold movie_rows. rewrite row_after_insert. now intros [= <- <-].
Qed.

(** The image statements leave table [movies] alone. *)
Lemma DestroyMovieImages_movies (movieID : Z) (tx : DB) :
  movies (snd (DestroyMovieImages movieID tx)) = movies tx.
Proof. unfold DestroyMovieImages, Exec. now destruct (fault _ tx). Qed.

Lemma UpdateMovieImages_movies (movieID : Z) (front back : slice) (tx : DB) :
  movies (snd (UpdateMovieImages movieID front back tx)) = movies tx.
Proof.
  unfold UpdateMovieImages, DestroyMovieImages, Exec.
  destruct (fault (DeleteMoviesImages movieID) tx); [reflexivity|].
  now destruct (fault (InsertMoviesImages movieID front back) _).
Qed.

Lemma MovieCreate_ok_inv (input : MovieCreateInput.t) (db db' : DB) (movie : option Movie.t) :
  MovieCreate input db = (Returned movie None, db') ->
  movie = Some (SetMovie.ID (next_id db) (as_stored (MovieCreate_newMovie input)))
  /\ movies db'
     = (movies db
        ++ [SetMovie.ID (next_id db) (as_stored (MovieCreate_newMovie input))])%list.
Proof.
  unfold MovieCreate.
  destruct (decoded (MovieCreate_FrontImage input)) as [frontimageData [e|]];
    [discriminate|].
  destruct (decoded (MovieCreateInput.BackImage input)) as [backimageData [e|]];
    [discriminate|].
  destruct (Create (MovieCreate_newMovie input) db) as [[created [e|]] tx] eqn:EC;
    [discriminate|].
  apply Create_ok_inv in EC. destruct EC as [-> ->].
  destruct (0 <? len frontimageData)%nat.
  - pose proof (UpdateMovieImages_movies
                  (Movie.ID (SetMovie.ID (next_id db) (as_stored (MovieCreate_newMovie input))))
                  frontimageData backimageData
                  (run (InsertMovie (MovieCreate_newMovie input)) db)) as Hm.
    destruct (UpdateMovieImages _ _ _ _) as [[e|] tx2]; [discriminate|].
    destruct (fault Commit tx2); [discriminate|].
    intros [= <- <-]. split; [reflexivity | exact Hm].
  - destruct (fault Commit _); [discriminate|].
    intros [= <- <-]. split; reflexivity.
Qed.

(** ** MovieUpdate *)

Lemma Find_Some_inv (id : Z) (conn : DB) (m : Movie.t) (err : option error) :
  Find id conn = (Some m, err) -> row_by_id id conn = Some m.
Proof.
  unfold Find, queryMovie, queryMovies.
  destruct (fault (SelectMovie id) conn); [discriminate|]. simpl.
  destruct (row_by_id id conn); [now intros [= <- _] | discriminate].
Qed.

Lemma Update_ok_inv (p : MoviePartial.t) (tx tx1 : DB) (movie : option Movie.t) :
  Update p tx = ((movie, None), tx1) ->
  fault (UpdateMovies (partial_keys p) p) tx = None
  /\ tx1 = run (UpdateMovies (partial_keys p) p) tx
  /\ Find (MoviePartial.ID p) tx1 = (movie, None).
Proof.
  unfold Update, Exec.
  destruct (fault (UpdateMovies (partial_keys p) p) tx); [discriminate|].
  intros [= H <-]. repeat split. destruct (Find _ _) as [mv e]. simpl in *.
  now injection H as -> ->.
Qed.

Lemma MovieUpdate_images_movies (fi bi : bool) (front back : slice) (movieID : Z)
    (movie : option Movie.t) (tx tx' : DB) :
  MovieUpdate_images fi bi front back movieID movie tx = inl tx' ->
  movies tx' = movies tx.
Proof.
  unfold MovieUpdate_images.
  destruct (fi || bi); [|now intros [= <-]].
  destruct (if negb fi then _ else _) as [front' [e|]]; [discriminate|].
  destruct (if negb bi then _ else _) as [back' [e|]]; [discriminate|].
  destruct (both_empty front' back').
  - destruct movie as [m|]; [|discriminate].
    pose proof (DestroyMovieImages_movies (Movie.ID m) tx) as H.
    destruct (DestroyMovieImages _ _) as [[e|] tx2]; [discriminate|].
    now intros [= <-].
  - destruct movie as [m|]; [|discriminate].
    match goal with
    | |- context [UpdateMovieImages ?i ?f ?b ?t] =>
        pose proof (UpdateMovieImages_movies i f b t) as H;
        destruct (UpdateMovieImages i f b t) as [[e|] tx2]; [discriminate|]
    end.
    now intros [= <-].
Qed.

(** What a call of [MovieUpdate] that returns no error has done. *)
Lemma MovieUpdate_ok_inv (input : MovieUpdateInput.t) (inputMap : gset string)
    (db db' : DB) (movie : option Movie.t) :
  MovieUpdate input inputMap db = (Returned movie None, db') ->
  let p := MovieUpdate_updatedMovie input inputMap in
  fault (UpdateMovies (partial_keys p) p) db = None
  /\ Find (MoviePartial.ID p) (run (UpdateMovies (partial_keys p) p) db) = (movie, None)
  /\ movies db' = movies (run (UpdateMovies (partial_keys p) p) db).
Proof.
  intros H p. unfold MovieUpdate in H. fold p in H.
  destruct (decoded (MovieUpdateInput.FrontImage input)) as [front [e|]]; [discriminate|].
  destruct (decoded (MovieUpdateInput.BackImage input)) as [back [e|]]; [discriminate|].
  destruct (Update p db) as [[mv [e|]] tx1] eqn:EU; [discriminate|].
  apply Update_ok_inv in EU. destruct EU as (Hf & -> & HF).
  destruct (MovieUpdate_images _ _ _ _ _ _ _) as [tx2|stopped] eqn:EI.
  - apply MovieUpdate_images_movies in EI.
    destruct (fault Commit tx2); [discriminate|].
    injection H as <- <-. now repeat split.
  - destruct stopped as [v [e|]|]; try discriminate.
    exfalso. revert EI. unfold MovieUpdate_images.
    destruct (_ || _); [|discriminate].
    destruct (if negb _ then _ else _) as [front' [e|]]; [discriminate|].
    destruct (if negb _ then _ else _) as [back' [e|]]; [discriminate|].
    destruct (both_empty _ _).
    + destruct mv; [|discriminate]. now destruct (DestroyMovieImages _ _) as [[e|] ?].
    + destruct mv; [|discriminate]. now destruct (UpdateMovieImages _ _ _ _) as [[e|] ?].
Qed.

(** ** The sidecar table *)

Lemma GetFrontImage_no_fault (movieID : Z) (tx : DB) :
  fault (SelectFrontImage movieID) tx = None ->
  GetFrontImage movieID tx = (stored_image front_image movieID tx, None).
Proof. intros H. unfold GetFrontImage, getImage. now rewrite H. Qed.

Lemma GetBackImage_no_fault (movieID : Z) (tx : DB) :
  fault (SelectBackImage movieID) tx = None ->
  GetBackImage movieID tx = (stored_image back_image movieID tx, None).
Proof. intros H. unfold GetBackImage, getImage. now rewrite H. Qed.

Lemma filter_filter_negb {A : Type} (f : A -> bool) (l : list A) :
  List.filter f (List.filter (fun x => negb (f x)) l) = [].
Proof.
  induction l as [|x rest IH]; simpl; [reflexivity|].
  destruct (f x) eqn:E; simpl; [exact IH | now rewrite E].
Qed.

Lemma image_rows_deleted (movieID : Z) (tx : DB) :
  image_rows movieID (run (DeleteMoviesImages movieID) tx) = [].
Proof. unfold image_rows. cbn [run movies_images]. apply filter_filter_negb. Qed.

Lemma image_rows_recreated (movieID : Z) (front back : slice) (tx : DB) :
  image_rows movieID
    (run (InsertMoviesImages movieID front back) (run (DeleteMoviesImages movieID) tx))
  = [mkMoviesImages movieID front back].
Proof.
  unfold image_rows. cbn [run movies_images].
  rewrite List.filter_app, filter_filter_negb. simpl. now rewrite Z.eqb_refl.
Qed.

Lemma image_rows_UpdateMovies (movieID : Z) (set_list : list string)
    (p : MoviePartial.t) (tx : DB) :
  image_rows movieID (run (UpdateMovies set_list p) tx) = image_rows movieID tx.
Proof. reflexivity. Qed.

Lemma stored_image_UpdateMovies (pick : MoviesImagesRow -> slice) (movieID : Z)
    (set_list : list string) (p : MoviePartial.t) (tx : DB) :
  stored_image pick movieID (run (UpdateMovies set_list p) tx)
  = stored_image pick movieID tx.
Proof. reflexivity. Qed.

(** The image step on an engine that refuses nothing. *)
Lemma MovieUpdate_images_no_fault (fi bi : bool) (fd bd : slice) (movieID : Z)
    (m : Movie.t) (tx : DB) :
  (forall s d, fault s d = None) ->
  let front := if fi then fd else stored_image front_image movieID tx in
  let back := if bi then bd else stored_image back_image movieID tx in
  MovieUpdate_images fi bi fd bd movieID (Some m) tx
  = inl (if fi || bi then
           if both_empty front back
           then run (DeleteMoviesImages (Movie.ID m)) tx
           else run (InsertMoviesImages (Movie.ID m) (front_or_default front back) back)
                    (run (DeleteMoviesImages (Movie.ID m)) tx)
         else tx).
Proof.
  intros Hf front back. unfold MovieUpdate_images.
  destruct (fi || bi); [|reflexivity].
  rewrite GetFrontImage_no_fault, GetBackImage_no_fault by apply Hf.
  replace (if negb fi then (stored_image front_image movieID tx, None) else (fd, None))
    with (front, @None error) by (unfold front; now destruct fi).
  replace (if negb bi then (stored_image back_image movieID tx, None) else (bd, None))
    with (back, @None error) by (unfold back; now destruct bi).
  destruct (both_empty front back).
  - unfold DestroyMovieImages, Exec. now rewrite Hf.
  - unfold UpdateMovieImages, DestroyMovieImages, Exec. rewrite !Hf.
    reflexivity.
Qed.

(** [MovieUpdate] on an engine that refuses nothing, for a movie that
    exists and images that decode. *)
Lemma MovieUpdate_no_fault (input : MovieUpdateInput.t) (inputMap : gset string)
    (db : DB) (old : Movie.t) (fd bd : slice) :
  (forall s d, fault s d = None) ->
  let p := MovieUpdate_updatedMovie input inputMap in
  let id := MoviePartial.ID p in
  let fi := hasField inputMap "front_image" in
  let bi := hasField inputMap "back_image" in
  let tx1 := run (UpdateMovies (partial_keys p) p) db in
  let front := if fi then fd else stored_image front_image id db in
  let back := if bi then bd else stored_image back_image id db in
  row_by_id id db = Some old ->
  decoded (MovieUpdateInput.FrontImage input) = (fd, None) ->
  decoded (MovieUpdateInput.BackImage input) = (bd, None) ->
  MovieUpdate input inputMap db
  = (Returned (Some (set_columns (partial_keys p) p old)) None,
     if fi || bi then
       if both_empty front back
       then run (DeleteMoviesImages id) tx1
       else run (InsertMoviesImages id (front_or_default front back) back)
                (run (DeleteMoviesImages id) tx1)
     else tx1).
Proof.
  intros Hf p id fi bi tx1 front back Hold Hfd Hbd.
  unfold MovieUpdate. rewrite Hfd, Hbd. fold p.
  rewrite Update_accepted by apply Hf. fold id. rewrite Hold. cbn [option_map].
  fold tx1 fi bi.
  rewrite MovieUpdate_images_no_fault by exact Hf.
  rewrite set_columns_ID, (row_by_id_ID _ _ _ Hold). fold id.
  rewrite Hf. reflexivity.
Qed.

Lemma decoded_no_error (image : option string) :
  snd (decoded image) = None -> decoded image = (fst (decoded image), None).
Proof. destruct (decoded image) as [data err]. simpl. now intros ->. Qed.

(** [MovieCreate] on an engine that refuses nothing, for images that decode. *)
Lemma MovieCreate_no_fault (input : MovieCreateInput.t) (db : DB) (fd bd : slice) :
  (forall s d, fault s d = None) ->
  let id := next_id db in
  let tx1 := run (InsertMovie (MovieCreate_newMovie input)) db in
  decoded (MovieCreate_FrontImage input) = (fd, None) ->
  decoded (MovieCreateInput.BackImage input) = (bd, None) ->
  MovieCreate input db
  = (Returned (Some (SetMovie.ID id (as_stored (MovieCreate_newMovie input)))) None,
     if (0 <? len fd)%nat
     then run (InsertMoviesImages id fd bd) (run (DeleteMoviesImages id) tx1)
     else tx1).
Proof.
  intros Hf id tx1 Hfd Hbd. unfold MovieCreate.
  rewrite Hfd, Hbd.
  rewrite Create_accepted by apply Hf. fold id tx1.
  destruct (0 <? len fd)%nat.
  - unfold UpdateMovieImages, DestroyMovieImages, Exec. cbn [Movie.ID SetMovie.ID].
    rewrite !Hf. reflexivity.
  - now rewrite Hf.
Qed.

(** ** The checksum *)

Lemma of_NullString_text (v : NullString.t) (s : string) :
  of_NullString v = SqlText s -> v = NullString.mk s true.
Proof.
  destruct v as [str valid]. unfold of_NullString. simpl.
  destruct valid; [now intros [= ->] | discriminate].
Qed.

Lemma set_columns_name_checksum (p : MoviePartial.t) (row : Movie.t) (name c : string) :
  MoviePartial.Name p = Some (NullString.mk name true) ->
  MoviePartial.Checksum p = Some c ->
  Movie.Name (set_columns (partial_keys p) p row) = NullString.mk name true
  /\ Movie.Checksum (set_columns (partial_keys p) p row) = c.
Proof.
  intros Hn Hc. split.
  - apply of_NullString_text.
    change (column "name" (set_columns (partial_keys p) p row) = SqlText name).
    rewrite column_set_columns_listed.
    + cbn. now rewrite Hn.
    + intros r r'. cbn. now rewrite Hn.
    + apply in_partial_keys. cbn. now rewrite Hn.
  - assert (H : column "checksum" (set_columns (partial_keys p) p row) = SqlText c).
    { rewrite column_set_columns_listed.
      + cbn. now rewrite Hc.
      + intros r r'. cbn. now rewrite Hc.
      + apply in_partial_keys. cbn. now rewrite Hc. }
    cbn in H. now injection H.
Qed.

(** C9.  A movie [MovieCreate] returns carries the hash of the input's name
    as its checksum, and it is the stored row of its key.  An update that
    supplies a name puts [name] and [checksum] in the SET-list together, the
    checksum being the hash of the new name, and after it every stored row
    with the key, the returned one among them, carries the new name and its
    hash; no update writes one of the two columns without the other.  On an
    engine that refuses nothing, with images that decode, the create returns
    a movie, and so does the update of a movie that is stored. *)
Theorem checksum_is_the_hash_of_the_name :
  (forall input db movie db',
     MovieCreate input db = (Returned movie None, db') ->
     exists m,
       movie = Some m
       /\ Movie.Checksum m = MD5FromString (MovieCreateInput.Name input)
       /\ Movie.Name m = NullString.mk (MovieCreateInput.Name input) true
       /\ row_by_id (Movie.ID m) db' = Some m)
  /\ (forall input inputMap name,
        MovieUpdateInput.Name input = Some name ->
        let p := MovieUpdate_updatedMovie input inputMap in
        In "name" (partial_keys p) /\ In "checksum" (partial_keys p)
        /\ MoviePartial.Checksum p = Some (MD5FromString name)
        /\ forall db movie db',
             MovieUpdate input inputMap db = (Returned movie None, db') ->
             (forall row, In row (movies db') -> Movie.ID row = MoviePartial.ID p ->
                Movie.Name row = NullString.mk name true
                /\ Movie.Checksum row = MD5FromString name)
             /\ (forall m, movie = Some m ->
                   row_by_id (MoviePartial.ID p) db' = Some m
                   /\ Movie.Name m = NullString.mk name true
                   /\ Movie.Checksum m = MD5FromString name))
  /\ (forall input inputMap,
        let p := MovieUpdate_updatedMovie input inputMap in
        In "checksum" (partial_keys p) <-> In "name" (partial_keys p))
  /\ ((forall s d, fault s d = None) ->
      (forall input db,
         snd (decoded (MovieCreate_FrontImage input)) = None ->
         snd (decoded (MovieCreateInput.BackImage input)) = None ->
         exists m db', MovieCreate input db = (Returned (Some m) None, db'))
      /\ (forall input inputMap db old,
            row_by_id (Atoi (MovieUpdateInput.ID input)) db = Some old ->
            snd (decoded (MovieUpdateInput.FrontImage input)) = None ->
            snd (decoded (MovieUpdateInput.BackImage input)) = None ->
            exists m db', MovieUpdate input inputMap db = (Returned (Some m) None, db'))).
Proof.
  split; [|split; [|split]].
  - intros input db movie db' H. apply MovieCreate_ok_inv in H. destruct H as [-> Hm].
    eexists. split; [reflexivity|]. repeat split.
    unfold row_by_id. rewrite Hm. apply find_after_fresh.
    + intros x Hx. apply next_id_above in Hx. apply Z.eqb_neq. cbn. lia.
    + apply Z.eqb_refl.
  - intros input inputMap name Hname p.
    assert (Hn : MoviePartial.Name p = Some (NullString.mk name true))
      by (unfold p; cbn; now rewrite Hname).
    assert (Hc : MoviePartial.Checksum p = Some (MD5FromString name))
      by (unfold p; cbn; now rewrite Hname).
    split; [apply in_partial_keys; cbn; now rewrite Hname|].
    split; [apply in_partial_keys; cbn; now rewrite Hname|].
    split; [exact Hc|].
    intros db movie db' H. apply MovieUpdate_ok_inv in H. fold p in H.
    destruct H as (Hf & HF & Hm).
    assert (Hrows : forall row, In row (movies db') -> Movie.ID row = MoviePartial.ID p ->
                      Movie.Name row = NullString.mk name true
                      /\ Movie.Checksum row = MD5FromString name).
    { intros row Hrow Hid. rewrite Hm in Hrow. cbn [run movies] in Hrow.
      apply in_map_iff in Hrow. destruct Hrow as (old & <- & _).
      destruct (Movie.ID old =? MoviePartial.ID p) eqn:E.
      - now apply set_columns_name_checksum.
      - apply Z.eqb_neq in E. contradiction. }
    split; [exact Hrows|]. intros m ->. apply Find_Some_inv in HF.
    assert (Hr : row_by_id (MoviePartial.ID p) db' = Some m)
      by (unfold row_by_id in *; now rewrite Hm).
    split; [exact Hr|]. apply Hrows.
    + now apply row_by_id_In in Hr.
    + now apply row_by_id_ID in Hr.
  - intros input inputMap p. rewrite !in_partial_keys. unfold p. cbn.
    now destruct (MovieUpdateInput.Name input).
  - intros Hf. split.
    + intros input db Hfd Hbd. do 2 eexists.
      apply MovieCreate_no_fault; [exact Hf | |]; now apply decoded_no_error.
    + intros input inputMap db old Hold Hfd Hbd. do 2 eexists.
      eapply MovieUpdate_no_fault; [exact Hf | exact Hold | |]; now apply decoded_no_error.
Qed.

(** What a call of [MovieCreate] that returns no error has committed. *)
Lemma MovieCreate_ok_tables (input : MovieCreateInput.t) (db db' : DB)
    (movie : option Movie.t) :
  MovieCreate input db = (Returned movie None, db') ->
  let id := next_id db in
  let tx1 := run (InsertMovie (MovieCreate_newMovie input)) db in
  let fd := fst (decoded (MovieCreate_FrontImage input)) in
  let bd := fst (decoded (MovieCreateInput.BackImage input)) in
  snd (decoded (MovieCreate_FrontImage input)) = None
  /\ snd (decoded (MovieCreateInput.BackImage input)) = None
  /\ db' = if (0 <? len fd)%nat
           then run (InsertMoviesImages id fd bd) (run (DeleteMoviesImages id) tx1)
           else tx1.
Proof.
  intros H id tx1 fd bd. unfold MovieCreate in H. unfold fd, bd.
  destruct (decoded (MovieCreate_FrontImage input)) as [front [e|]]; [discriminate|].
  destruct (decoded (MovieCreateInput.BackImage input)) as [back [e|]]; [discriminate|].
  destruct (Create (MovieCreate_newMovie input) db) as [[created [e|]] tx] eqn:EC;
    [discriminate|].
  apply Create_ok_inv in EC. destruct EC as [-> ->]. cbn [fst snd].
  split; [reflexivity|]. split; [reflexivity|]. fold tx1 id in H |- *.
  destruct (0 <? len front)%nat.
  - cbn [Movie.ID SetMovie.ID] in H.
    unfold UpdateMovieImages, DestroyMovieImages, Exec in H.
    destruct (fault (DeleteMoviesImages id) tx1); [discriminate|].
    destruct (fault (InsertMoviesImages id front back) _); [discriminate|].
    destruct (fault Commit _); [discriminate|]. now injection H.
  - destruct (fault Commit tx1); [discriminate|]. now injection H.
Qed.

(** What a call of [MovieUpdate] that returns no error has committed. *)
Lemma MovieUpdate_ok_tables (input : MovieUpdateInput.t) (inputMap : gset string)
    (db db' : DB) (movie : option Movie.t) :
  MovieUpdate input inputMap db = (Returned movie None, db') ->
  let p := MovieUpdate_updatedMovie input inputMap in
  exists front back,
    decoded (MovieUpdateInput.FrontImage input) = (front, None)
    /\ decoded (MovieUpdateInput.BackImage input) = (back, None)
    /\ fault (UpdateMovies (partial_keys p) p) db = None
    /\ MovieUpdate_images (hasField inputMap "front_image") (hasField inputMap "back_image")
         front back (MoviePartial.ID p) movie (run (UpdateMovies (partial_keys p) p) db)
       = inl db'.
Proof.
  intros H p. unfold MovieUpdate in H. fold p in H.
  destruct (decoded (MovieUpdateInput.FrontImage input)) as [front [e|]]; [discriminate|].
  destruct (decoded (MovieUpdateInput.BackImage input)) as [back [e|]]; [discriminate|].
  destruct (Update p db) as [[mv [e|]] tx1] eqn:EU; [discriminate|].
  apply Update_ok_inv in EU. destruct EU as (Hf & -> & HF).
  exists front, back. split; [reflexivity|]. split; [reflexivity|]. split; [exact Hf|].
  destruct (MovieUpdate_images _ _ _ _ _ _ _) as [tx2|stopped] eqn:EI.
  - destruct (fault Commit tx2); [discriminate|]. injection H as <- <-. exact EI.
  - exfalso. destruct stopped as [v [e|]|]; try discriminate.
    revert EI. unfold MovieUpdate_images.
    destruct (_ || _); [|discriminate].
    destruct (if negb _ then _ else _) as [front' [e|]]; [discriminate|].
    destruct (if negb _ then _ else _) as [back' [e|]]; [discriminate|].
    destruct (both_empty _ _).
    + destruct mv; [|discriminate]. now destruct (DestroyMovieImages _ _) as [[e|] ?].
    + destruct mv; [|discriminate]. now destruct (UpdateMovieImages _ _ _ _) as [[e|] ?].
Qed.

(** The image step of a [MovieUpdate] that names an image field, when it
    does not stop the call: the movie is not nil, and the sidecar row of
    its key is deleted, and recreated unless both images are empty. *)
Lemma MovieUpdate_images_ok_inv (fi bi : bool) (fd bd : slice) (movieID : Z)
    (movie : option Movie.t) (tx tx' : DB) :
  let front := if fi then fd else stored_image front_image movieID tx in
  let back := if bi then bd else stored_image back_image movieID tx in
  fi || bi = true ->
  MovieUpdate_images fi bi fd bd movieID movie tx = inl tx' ->
  exists m,
    movie = Some m
    /\ tx' = if both_empty front back
             then run (DeleteMoviesImages (Movie.ID m)) tx
             else run (InsertMoviesImages (Movie.ID m) (front_or_default front back) back)
                      (run (DeleteMoviesImages (Movie.ID m)) tx).
Proof.
  intros front back Hor. unfold MovieUpdate_images. rewrite Hor.
  assert (Ef : forall e,
             (if negb fi then GetFrontImage movieID tx else (fd, None)) = (e, None) ->
             e = front).
  { intros e. unfold front, GetFrontImage, getImage. destruct fi; cbn.
    - now intros [= <-].
    - destruct (fault _ tx); [discriminate | now intros [= <-]]. }
  assert (Eb : forall e,
             (if negb bi then GetBackImage movieID tx else (bd, None)) = (e, None) ->
             e = back).
  { intros e. unfold back, GetBackImage, getImage. destruct bi; cbn.
    - now intros [= <-].
    - destruct (fault _ tx); [discriminate | now intros [= <-]]. }
  destruct (if negb fi then _ else _) as [front' [e|]]; [discriminate|].
  rewrite (Ef front' eq_refl).
  destruct (if negb bi then _ else _) as [back' [e|]]; [discriminate|].
  rewrite (Eb back' eq_refl).
  destruct (both_empty front back).
  - destruct movie as [m|]; [|discriminate].
    unfold DestroyMovieImages, Exec. destruct (fault _ tx); [discriminate|].
    intros [= <-]. now exists m.
  - destruct movie as [m|]; [|discriminate].
    unfold UpdateMovieImages, DestroyMovieImages, Exec.
    destruct (fault (DeleteMoviesImages _) tx); [discriminate|].
    destruct (fault (InsertMoviesImages _ _ _) _); [discriminate|].
    intros [= <-]. now exists m.
Qed.

(** What a [MovieUpdate] that names an image field and returns no error
    has returned and committed. *)
Lemma MovieUpdate_ok_images (input : MovieUpdateInput.t) (inputMap : gset string)
    (db db' : DB) (movie : option Movie.t) :
  let p := MovieUpdate_updatedMovie input inputMap in
  let id := Atoi (MovieUpdateInput.ID input) in
  let fi := hasField inputMap "front_image" in
  let bi := hasField inputMap "back_image" in
  let front := if fi then fst (decoded (MovieUpdateInput.FrontImage input))
               else stored_image front_image id db in
  let back := if bi then fst (decoded (MovieUpdateInput.BackImage input))
              else stored_image back_image id db in
  let tx1 := run (UpdateMovies (partial_keys p) p) db in
  fi || bi = true ->
  MovieUpdate input inputMap db = (Returned movie None, db') ->
  (exists m, movie = Some m /\ Movie.ID m = id)
  /\ db' = if both_empty front back
           then run (DeleteMoviesImages id) tx1
           else run (InsertMoviesImages id (front_or_default front back) back)
                    (run (DeleteMoviesImages id) tx1).
Proof.
  intros p id fi bi front back tx1 Hor H.
  pose proof (MovieUpdate_ok_inv _ _ _ _ _ H) as (_ & HF & _).
  pose proof (MovieUpdate_ok_tables _ _ _ _ _ H) as (fd & bd & Hfd & Hbd & _ & Hi).
  fold p tx1 in HF, Hi.
  change (MoviePartial.ID p) with id in HF, Hi. fold fi bi in Hi.
  apply MovieUpdate_images_ok_inv in Hi; [|exact Hor].
  destruct Hi as (m & -> & ->).
  apply Find_Some_inv, row_by_id_ID in HF. rewrite HF.
  split; [now exists m|].
  unfold front, back. rewrite Hfd, Hbd. reflexivity.
Qed.

(** The image step on an engine that accepts the statements it issues. *)
Lemma MovieUpdate_images_accepted (fi bi : bool) (fd bd : slice) (movieID : Z)
    (m : Movie.t) (tx : DB) :
  let front := if fi then fd else stored_image front_image movieID tx in
  let back := if bi then bd else stored_image back_image movieID tx in
  let tx2 := run (DeleteMoviesImages (Movie.ID m)) tx in
  fi || bi = true ->
  (fi = false -> fault (SelectFrontImage movieID) tx = None) ->
  (bi = false -> fault (SelectBackImage movieID) tx = None) ->
  fault (DeleteMoviesImages (Movie.ID m)) tx = None ->
  (both_empty front back = false ->
   fault (InsertMoviesImages (Movie.ID m) (front_or_default front back) back) tx2 = None) ->
  MovieUpdate_images fi bi fd bd movieID (Some m) tx
  = inl (if both_empty front back then tx2
         else run (InsertMoviesImages (Movie.ID m) (front_or_default front back) back) tx2).
Proof.
  intros front back tx2 Hor Hsf Hsb Hd Hi. unfold MovieUpdate_images. rewrite Hor.
  replace (if negb fi then GetFrontImage movieID tx else (fd, None))
    with (front, @None error)
    by (unfold front; destruct fi; cbn;
        [reflexivity | now rewrite GetFrontImage_no_fault by now apply Hsf]).
  replace (if negb bi then GetBackImage movieID tx else (bd, None))
    with (back, @None error)
    by (unfold back; destruct bi; cbn;
        [reflexivity | now rewrite GetBackImage_no_fault by now apply Hsb]).
  destruct (both_empty front back).
  - unfold DestroyMovieImages, Exec. now rewrite Hd.
  - unfold UpdateMovieImages, DestroyMovieImages, Exec. rewrite Hd. fold tx2.
    now rewrite Hi.
Qed.

(** [MovieUpdate] of a stored movie, with images that decode and an image
    field in the presence set, on an engine that accepts the statements
    the call issues. *)
Lemma MovieUpdate_accepted (input : MovieUpdateInput.t) (inputMap : gset string)
    (db : DB) (old : Movie.t) :
  let p := MovieUpdate_updatedMovie input inputMap in
  let id := Atoi (MovieUpdateInput.ID input) in
  let fi := hasField inputMap "front_image" in
  let bi := hasField inputMap "back_image" in
  let front := if fi then fst (decoded (MovieUpdateInput.FrontImage input))
               else stored_image front_image id db in
  let back := if bi then fst (decoded (MovieUpdateInput.BackImage input))
              else stored_image back_image id db in
  let tx1 := run (UpdateMovies (partial_keys p) p) db in
  let tx2 := run (DeleteMoviesImages id) tx1 in
  let tx3 := if both_empty front back then tx2
             else run (InsertMoviesImages id (front_or_default front back) back) tx2 in
  fi || bi = true ->
  row_by_id id db = Some old ->
  snd (decoded (MovieUpdateInput.FrontImage input)) = None ->
  snd (decoded (MovieUpdateInput.BackImage input)) = None ->
  fault (UpdateMovies (partial_keys p) p) db = None ->
  fault (SelectMovie id) tx1 = None ->
  (fi = false -> fault (SelectFrontImage id) tx1 = None) ->
  (bi = false -> fault (SelectBackImage id) tx1 = None) ->
  fault (DeleteMoviesImages id) tx1 = None ->
  (both_empty front back = false ->
   fault (InsertMoviesImages id (front_or_default front back) back) tx2 = None) ->
  fault Commit tx3 = None ->
  MovieUpdate input inputMap db
  = (Returned (Some (set_columns (partial_keys p) p old)) None, tx3).
Proof.
  intros p id fi bi front back tx1 tx2 tx3 Hor Hold Hfd Hbd Hu Hs Hsf Hsb Hd Hi Hc.
  unfold MovieUpdate.
  rewrite (decoded_no_error _ Hfd), (decoded_no_error _ Hbd). fold p.
  rewrite Update_accepted by assumption.
  change (MoviePartial.ID p) with id. rewrite Hold. cbn [option_map]. fold tx1 fi bi.
  assert (Hid : Movie.ID (set_columns (partial_keys p) p old) = id)
    by (rewrite set_columns_ID; exact (row_by_id_ID _ _ _ Hold)).
  rewrite MovieUpdate_images_accepted; rewrite ?Hid; try assumption.
  change (stored_image front_image id tx1) with (stored_image front_image id db).
  change (stored_image back_image id tx1) with (stored_image back_image id db).
  fold front back tx2 tx3. now rewrite Hc.
Qed.

(** [MovieCreate] with images that decode, the front one to bytes, on an
    engine that accepts the statements the call issues. *)
Lemma MovieCreate_accepted (input : MovieCreateInput.t) (db : DB) (fd bd : slice) :
  let newMovie := MovieCreate_newMovie input in
  let id := next_id db in
  let tx1 := run (InsertMovie newMovie) db in
  let tx2 := run (DeleteMoviesImages id) tx1 in
  let tx3 := run (InsertMoviesImages id fd bd) tx2 in
  decoded (MovieCreate_FrontImage input) = (fd, None) ->
  decoded (MovieCreateInput.BackImage input) = (bd, None) ->
  (0 <? len fd)%nat = true ->
  fault (InsertMovie newMovie) db = None ->
  fault (SelectMovie id) tx1 = None ->
  fault (DeleteMoviesImages id) tx1 = None ->
  fault (InsertMoviesImages id fd bd) tx2 = None ->
  fault Commit tx3 = None ->
  MovieCreate input db = (Returned (Some (SetMovie.ID id (as_stored newMovie))) None, tx3).
Proof.
  intros newMovie id tx1 tx2 tx3 Hfd Hbd Hlen Hi Hs Hd Hii Hc. unfold MovieCreate.
  rewrite Hfd, Hbd. rewrite Create_accepted by assumption. fold newMovie id tx1.
  rewrite Hlen. unfold UpdateMovieImages, DestroyMovieImages, Exec.
  cbn [Movie.ID SetMovie.ID]. rewrite Hd. fold tx2. rewrite Hii. fold tx3.
  now rewrite Hc.
Qed.

(** ** The attachments *)

Lemma image_rows_other_deleted (movieID other : Z) (tx : DB) :
  other <> movieID ->
  image_rows other (run (DeleteMoviesImages movieID) tx) = image_rows other tx.
Proof.
  intros Hne. unfold image_rows. cbn [run movies_images].
  induction (movies_images tx) as [|row rest IH]; simpl; [reflexivity|].
  destruct (Z.eqb_spec (image_movie_id row) movieID) as [E|E]; simpl.
  - rewrite IH. destruct (Z.eqb_spec (image_movie_id row) other); [congruence | reflexivity].
  - now rewrite IH.
Qed.

Lemma image_rows_other_recreated (movieID other : Z) (front back : slice) (tx : DB) :
  other <> movieID ->
  image_rows other
    (run (InsertMoviesImages movieID front back) (run (DeleteMoviesImages movieID) tx))
  = image_rows other tx.
Proof.
  intros Hne. unfold image_rows at 1. cbn [run movies_images].
  rewrite List.filter_app. simpl.
  destruct (Z.eqb_spec movieID other) as [E|E]; [congruence|].
  rewrite app_nil_r. now apply image_rows_other_deleted.
Qed.

Lemma both_nonempty_back (front : slice) (back : bytes) :
  back <> [] -> both_empty front (Some back) = false.
Proof.
  intros H. destruct back; [contradiction|]. unfold both_empty. simpl. apply andb_false_r.
Qed.

(** C2, as the code has it.  With a default image that decodes to a
    non-empty payload and a back image that decodes to non-empty bytes, when
    the front image is nil ([MovieCreate]: no front image in the input;
    [MovieUpdate]: the back image in the presence set and a null front image
    in the request, or none in the request and none stored): every call
    that returns no error leaves the movie with one sidecar row, the stored
    front image being the default payload and the stored back image the
    decoded bytes.  The call returns no error, and a movie, when the engine
    accepts the statements it issues; the update is then of a movie that is
    stored. *)
Theorem nil_front_with_back_stores_the_default (default back : bytes) (image : string) :
  ProcessBase64Image DefaultMovieImage = (Some default, None) ->
  default <> [] ->
  ProcessBase64Image image = (Some back, None) ->
  back <> [] ->
  (forall input db,
     MovieCreateInput.FrontImage input = None ->
     MovieCreateInput.BackImage input = Some image ->
     (forall movie db',
        MovieCreate input db = (Returned movie None, db') ->
        exists m,
          movie = Some m
          /\ image_rows (Movie.ID m) db'
             = [mkMoviesImages (Movie.ID m) (Some default) (Some back)]
          /\ stored_image front_image (Movie.ID m) db' = Some default
          /\ stored_image back_image (Movie.ID m) db' = Some back)
     /\ (let newMovie := MovieCreate_newMovie input in
         let id := next_id db in
         let tx1 := run (InsertMovie newMovie) db in
         let tx2 := run (DeleteMoviesImages id) tx1 in
         let tx3 := run (InsertMoviesImages id (Some default) (Some back)) tx2 in
         fault (InsertMovie newMovie) db = None ->
         fault (SelectMovie id) tx1 = None ->
         fault (DeleteMoviesImages id) tx1 = None ->
         fault (InsertMoviesImages id (Some default) (Some back)) tx2 = None ->
         fault Commit tx3 = None ->
         exists m, MovieCreate input db = (Returned (Some m) None, tx3)))
  /\ (forall input inputMap db,
        let p := MovieUpdate_updatedMovie input inputMap in
        let id := Atoi (MovieUpdateInput.ID input) in
        MovieUpdateInput.FrontImage input = None ->
        MovieUpdateInput.BackImage input = Some image ->
        hasField inputMap "back_image" = true ->
        hasField inputMap "front_image" = true \/ stored_image front_image id db = None ->
        (forall movie db',
           MovieUpdate input inputMap db = (Returned movie None, db') ->
           image_rows id db' = [mkMoviesImages id (Some default) (Some back)]
           /\ stored_image front_image id db' = Some default
           /\ stored_image back_image id db' = Some back)
        /\ (let tx1 := run (UpdateMovies (partial_keys p) p) db in
            let tx2 := run (DeleteMoviesImages id) tx1 in
            let tx3 := run (InsertMoviesImages id (Some default) (Some back)) tx2 in
            row_by_id id db <> None ->
            fault (UpdateMovies (partial_keys p) p) db = None ->
            fault (SelectMovie id) tx1 = None ->
            (hasField inputMap "front_image" = false ->
             fault (SelectFrontImage id) tx1 = None) ->
            fault (DeleteMoviesImages id) tx1 = None ->
            fault (InsertMoviesImages id (Some default) (Some back)) tx2 = None ->
            fault Commit tx3 = None ->
            exists m, MovieUpdate input inputMap db = (Returned (Some m) None, tx3))).
Proof.
  intros Hdef Hne Himg Hback. split.
  - intros input db Hfront Hbi.
    assert (Hfd : decoded (MovieCreate_FrontImage input) = (Some default, None))
      by (unfold MovieCreate_FrontImage; now rewrite Hfront, Hbi).
    assert (Hbd : decoded (MovieCreateInput.BackImage input) = (Some back, None))
      by now rewrite Hbi.
    assert (Hlen : (0 <? len (Some default))%nat = true)
      by (destruct default; [contradiction | reflexivity]).
    split.
    + intros movie db' H.
      pose proof (MovieCreate_ok_inv _ _ _ _ H) as [-> _].
      pose proof (MovieCreate_ok_tables _ _ _ _ H) as (_ & _ & ->).
      rewrite Hfd, Hbd. cbn [fst]. rewrite Hlen.
      eexists. split; [reflexivity|]. cbn [Movie.ID SetMovie.ID].
      unfold stored_image. rewrite image_rows_recreated. now repeat split.
    + intros newMovie id tx1 tx2 tx3 H1 H2 H3 H4 H5. eexists.
      now apply MovieCreate_accepted.
  - intros input inputMap db p id Hfront Hbi Hbin Hfin.
    assert (Hor : hasField inputMap "front_image" || hasField inputMap "back_image" = true)
      by (rewrite Hbin; apply orb_true_r).
    assert (Hfd : decoded (MovieUpdateInput.FrontImage input) = (None, None))
      by now rewrite Hfront.
    assert (Hbd : decoded (MovieUpdateInput.BackImage input) = (Some back, None))
      by now rewrite Hbi.
    assert (Efront : (if hasField inputMap "front_image"
                      then fst (decoded (MovieUpdateInput.FrontImage input))
                      else stored_image front_image id db) = None).
    { rewrite Hfd. destruct Hfin as [-> | Hst]; [reflexivity|].
      now destruct (hasField inputMap "front_image"). }
    assert (Eback : (if hasField inputMap "back_image"
                     then fst (decoded (MovieUpdateInput.BackImage input))
                     else stored_image back_image id db) = Some back)
      by now rewrite Hbin, Hbd.
    assert (Edef : front_or_default None (Some back) = Some default)
      by (unfold front_or_default; now rewrite Hdef).
    split.
    + intros movie db' H.
      pose proof (MovieUpdate_ok_images _ _ _ _ _ Hor H) as [_ Hdb].
      fold id in Hdb. rewrite Efront, Eback in Hdb.
      rewrite both_nonempty_back, Edef in Hdb by exact Hback. subst db'.
      unfold stored_image. rewrite image_rows_recreated. now repeat split.
    + intros tx1 tx2 tx3 Hold H1 H2 H3 H4 H5 H6.
      destruct (row_by_id id db) as [old|] eqn:Eold; [|contradiction].
      eexists.
      pose proof (MovieUpdate_accepted input inputMap db old) as H.
      cbv zeta in H. fold p id in H. rewrite Efront, Eback in H.
      rewrite both_nonempty_back, Edef in H by exact Hback.
      apply H; try assumption.
      * now rewrite Hfd.
      * now rewrite Hbd.
      * intros Hb. rewrite Hbin in Hb. discriminate.
      * intros _. assumption.
Qed.

(** C10, as the code has it.  An update with exactly one of the two image
    fields in the presence set takes the other image from the sidecar
    table.  Every such call that returns no error leaves the movie without
    a sidecar row when both images are then empty, and otherwise with one
    sidecar row: it holds the image of the request for the field in the
    set; a back image out of the set is stored as it was; a front image out
    of the set is stored as it was when there was one, and is the default
    payload when there was none.  The sidecar rows of other movies are as
    before.  The call returns no error, and a movie, when the movie is
    stored, the images decode and the engine accepts the statements the call
    issues. *)
Theorem unmentioned_image_is_read_back (input : MovieUpdateInput.t)
    (inputMap : gset string) (db : DB) :
  let p := MovieUpdate_updatedMovie input inputMap in
  let id := Atoi (MovieUpdateInput.ID input) in
  let fi := hasField inputMap "front_image" in
  let bi := hasField inputMap "back_image" in
  let front := if fi then fst (decoded (MovieUpdateInput.FrontImage input))
               else stored_image front_image id db in
  let back := if bi then fst (decoded (MovieUpdateInput.BackImage input))
              else stored_image back_image id db in
  xorb fi bi = true ->
  (forall movie db',
     MovieUpdate input inputMap db = (Returned movie None, db') ->
     (both_empty front back = true -> image_rows id db' = [])
     /\ (both_empty front back = false ->
         image_rows id db' = [mkMoviesImages id (front_or_default front back) back]
         /\ (bi = false ->
             stored_image back_image id db' = stored_image back_image id db)
         /\ (fi = false ->
             stored_image front_image id db'
             = match stored_image front_image id db with
               | Some stored => Some stored
               | None => fst (ProcessBase64Image DefaultMovieImage)
               end))
     /\ (forall other, other <> id -> image_rows other db' = image_rows other db))
  /\ (let tx1 := run (UpdateMovies (partial_keys p) p) db in
      let tx2 := run (DeleteMoviesImages id) tx1 in
      let tx3 := if both_empty front back then tx2
                 else run (InsertMoviesImages id (front_or_default front back) back) tx2 in
      row_by_id id db <> None ->
      snd (decoded (MovieUpdateInput.FrontImage input)) = None ->
      snd (decoded (MovieUpdateInput.BackImage input)) = None ->
      fault (UpdateMovies (partial_keys p) p) db = None ->
      fault (SelectMovie id) tx1 = None ->
      (fi = false -> fault (SelectFrontImage id) tx1 = None) ->
      (bi = false -> fault (SelectBackImage id) tx1 = None) ->
      fault (DeleteMoviesImages id) tx1 = None ->
      (both_empty front back = false ->
       fault (InsertMoviesImages id (front_or_default front back) back) tx2 = None) ->
      fault Commit tx3 = None ->
      exists m, MovieUpdate input inputMap db = (Returned (Some m) None, tx3)).
Proof.
  intros p id fi bi front back Hx.
  assert (Hor : fi || bi = true) by (destruct fi, bi; simpl in *; congruence).
  split.
  - intros movie db' H.
    pose proof (MovieUpdate_ok_images _ _ _ _ _ Hor H) as [_ Hdb].
    fold p id fi bi front back in Hdb. subst db'.
    destruct (both_empty front back) eqn:Eb.
    + split; [intros _; apply image_rows_deleted|]. split; [discriminate|].
      intros other Hne. now rewrite image_rows_other_deleted.
    + split; [discriminate|]. split.
      * intros _. split; [apply image_rows_recreated|]. split.
        -- intros Hbi. unfold stored_image at 1. rewrite image_rows_recreated.
           cbn. unfold back. fold bi. now rewrite Hbi.
        -- intros Hfi. unfold stored_image at 1. rewrite image_rows_recreated.
           cbn. unfold front_or_default.
           assert (Efront : front = stored_image front_image id db)
             by (unfold front; fold fi; now rewrite Hfi).
           rewrite Efront in *.
           destruct (stored_image front_image id db) as [stored|]; [reflexivity|].
           destruct back as [bs|]; [reflexivity|]. discriminate Eb.
      * intros other Hne. now rewrite image_rows_other_recreated.
  - intros tx1 tx2 tx3 Hold Hfd Hbd H1 H2 H3 H4 H5 H6 H7.
    destruct (row_by_id id db) as [old|] eqn:Eold; [|contradiction].
    eexists. now apply (MovieUpdate_accepted input inputMap db old).
Qed.

(** ** MovieUpdate of a movie that is not stored *)

(** X1.  [MovieUpdate] of a key that no row carries, with images that
    decode, on an engine that accepts the UPDATE and the re-read.  With an
    image field in the presence set, and the read of the image that is out
    of the set accepted, the call dereferences the nil movie [Update] gave
    it: it panics and nothing is committed.  With no image field in the
    set, and the commit accepted, it commits the transaction and returns a
    nil movie and a nil error. *)
Theorem MovieUpdate_of_a_missing_movie (input : MovieUpdateInput.t)
    (inputMap : gset string) (db : DB) :
  let p := MovieUpdate_updatedMovie input inputMap in
  let id := Atoi (MovieUpdateInput.ID input) in
  let fi := hasField inputMap "front_image" in
  let bi := hasField inputMap "back_image" in
  let tx1 := run (UpdateMovies (partial_keys p) p) db in
  row_by_id id db = None ->
  snd (decoded (MovieUpdateInput.FrontImage input)) = None ->
  snd (decoded (MovieUpdateInput.BackImage input)) = None ->
  fault (UpdateMovies (partial_keys p) p) db = None ->
  fault (SelectMovie id) tx1 = None ->
  (fi = false -> bi = true -> fault (SelectFrontImage id) tx1 = None) ->
  (fi = true -> bi = false -> fault (SelectBackImage id) tx1 = None) ->
  (fi = false -> bi = false -> fault Commit tx1 = None) ->
  MovieUpdate input inputMap db
  = if fi || bi then (Panicked, db) else (Returned None None, db).
Proof.
  intros p id fi bi tx1 Hnone Hfd Hbd Hu Hs Hsf Hsb Hc. unfold MovieUpdate.
  rewrite (decoded_no_error _ Hfd), (decoded_no_error _ Hbd). fold p.
  assert (Hrun : tx1 = db) by now apply run_UpdateMovies_absent.
  rewrite Update_accepted by assumption. fold tx1. rewrite Hrun in *.
  change (MoviePartial.ID p) with id.
  rewrite Hnone. cbn [option_map]. fold fi bi.
  unfold MovieUpdate_images.
  destruct fi, bi; cbn [orb negb].
  - now destruct (both_empty _ _).
  - rewrite GetBackImage_no_fault by now apply Hsb. now destruct (both_empty _ _).
  - rewrite GetFrontImage_no_fault by now apply Hsf. now destruct (both_empty _ _).
  - now rewrite Hc.
Qed.

(** ** The sidecar table, statement by statement *)

Lemma image_rows_none (movieID : Z) (tx : DB) :
  image_rows movieID tx = [] ->
  forall r, In r (movies_images tx) -> (image_movie_id r =? movieID) = false.
Proof.
  unfold image_rows. intros H r Hr.
  destruct (image_movie_id r =? movieID) eqn:E; [|reflexivity].
  assert (Hin : In r (List.filter (fun r => image_movie_id r =? movieID) (movies_images tx)))
    by (apply filter_In; now split).
  rewrite H in Hin. destruct Hin.
Qed.

Lemma UpdateMovieImages_accepted (movieID : Z) (front back : slice) (tx : DB) :
  fault (DeleteMoviesImages movieID) tx = None ->
  fault (InsertMoviesImages movieID front back) (run (DeleteMoviesImages movieID) tx) = None ->
  UpdateMovieImages movieID front back tx
  = (None, run (InsertMoviesImages movieID front back) (run (DeleteMoviesImages movieID) tx)).
Proof.
  intros Hd Hi. unfold UpdateMovieImages, DestroyMovieImages, Exec. now rewrite Hd, Hi.
Qed.

(** X2.  When the engine accepts its two statements, [UpdateMovieImages]
    leaves the movie with exactly one sidecar row, whatever rows it had
    before; [GetFrontImage] and [GetBackImage] then read back the two
    slices as they were written, nil included; the sidecar rows of every
    other movie and the other tables are as before. *)
Theorem UpdateMovieImages_then_read (movieID : Z) (front back : slice) (tx : DB) :
  let tx' := snd (UpdateMovieImages movieID front back tx) in
  fault (DeleteMoviesImages movieID) tx = None ->
  fault (InsertMoviesImages movieID front back) (run (DeleteMoviesImages movieID) tx) = None ->
  fst (UpdateMovieImages movieID front back tx) = None
  /\ image_rows movieID tx' = [mkMoviesImages movieID front back]
  /\ (fault (SelectFrontImage movieID) tx' = None ->
      GetFrontImage movieID tx' = (front, None))
  /\ (fault (SelectBackImage movieID) tx' = None ->
      GetBackImage movieID tx' = (back, None))
  /\ (forall other, other <> movieID -> image_rows other tx' = image_rows other tx)
  /\ movies tx' = movies tx
  /\ movies_scenes tx' = movies_scenes tx.
Proof.
  intros tx' Hd Hi. unfold tx'. rewrite UpdateMovieImages_accepted by assumption.
  cbn [fst snd]. split; [reflexivity|]. split; [apply image_rows_recreated|].
  split; [|split; [|split; [|split]]].
  - intros Hs. rewrite GetFrontImage_no_fault by exact Hs.
    unfold stored_image. now rewrite image_rows_recreated.
  - intros Hs. rewrite GetBackImage_no_fault by exact Hs.
    unfold stored_image. now rewrite image_rows_recreated.
  - intros other Hne. now apply image_rows_other_recreated.
  - reflexivity.
  - reflexivity.
Qed.

(** X3.  [UpdateMovieImages] is not atomic by itself.  A refused DELETE
    changes nothing.  A refused INSERT comes after the DELETE was done: the
    error is returned and the transaction holds no sidecar row of the movie
    any more, so both images read as nil until the caller rolls back. *)
Theorem UpdateMovieImages_refused (movieID : Z) (front back : slice) (tx : DB) :
  (forall code,
     fault (DeleteMoviesImages movieID) tx = Some code ->
     UpdateMovieImages movieID front back tx = (Some (ErrStorage code), tx))
  /\ (forall code,
        fault (DeleteMoviesImages movieID) tx = None ->
        fault (InsertMoviesImages movieID front back) (run (DeleteMoviesImages movieID) tx)
        = Some code ->
        let tx' := snd (UpdateMovieImages movieID front back tx) in
        fst (UpdateMovieImages movieID front back tx) = Some (ErrStorage code)
        /\ image_rows movieID tx' = []
        /\ stored_image front_image movieID tx' = None
        /\ stored_image back_image movieID tx' = None
        /\ forall other, other <> movieID -> image_rows other tx' = image_rows other tx).
Proof.
  split.
  - intros code Hd. unfold UpdateMovieImages, DestroyMovieImages, Exec. now rewrite Hd.
  - intros code Hd Hi tx'. unfold tx', UpdateMovieImages, DestroyMovieImages, Exec.
    rewrite Hd, Hi. cbn [fst snd]. split; [reflexivity|].
    unfold stored_image. rewrite image_rows_deleted. repeat split.
    intros other Hne. now apply image_rows_other_deleted.
Qed.

(** X4.  After an accepted [DestroyMovieImages] the movie has no sidecar
    row and both images read as nil without an error; the rows of other
    movies stay; for a movie that had no sidecar row nothing changes. *)
Theorem DestroyMovieImages_then_read (movieID : Z) (tx : DB) :
  let tx' := snd (DestroyMovieImages movieID tx) in
  fault (DeleteMoviesImages movieID) tx = None ->
  fst (DestroyMovieImages movieID tx) = None
  /\ image_rows movieID tx' = []
  /\ (fault (SelectFrontImage movieID) tx' = None ->
      GetFrontImage movieID tx' = (None, None))
  /\ (fault (SelectBackImage movieID) tx' = None ->
      GetBackImage movieID tx' = (None, None))
  /\ (forall other, other <> movieID -> image_rows other tx' = image_rows other tx)
  /\ (image_rows movieID tx = [] -> tx' = tx).
Proof.
  intros tx' Hd. unfold tx', DestroyMovieImages, Exec. rewrite Hd. cbn [fst snd].
  split; [reflexivity|]. split; [apply image_rows_deleted|].
  split; [|split; [|split]].
  - intros Hs. rewrite GetFrontImage_no_fault by exact Hs.
    unfold stored_image. now rewrite image_rows_deleted.
  - intros Hs. rewrite GetBackImage_no_fault by exact Hs.
    unfold stored_image. now rewrite image_rows_deleted.
  - intros other Hne. now apply image_rows_other_deleted.
  - intros Hnone. pose proof (image_rows_none movieID tx Hnone) as Hall.
    destruct tx as [ms sc im]. cbn [run movies movies_scenes movies_images] in *.
    f_equal. apply filter_keeps_all. intros r Hr. now rewrite (Hall r Hr).
Qed.

(** ** Create, statement by statement *)

(** X5.  [Create] never reports [sql.ErrNoRows]: after an accepted INSERT
    the re-read finds the row.  A refused INSERT changes nothing; a refused
    re-read returns the error with the row already inserted.  When both are
    accepted [Create] returns the row as the table holds it: the movie
    handed in, under the key the engine gave it and with its date as the
    store converts it.  [Find] of that key then gives the same movie, every
    other key reads as before and the other tables are untouched. *)
Theorem Create_then_Find (newMovie : Movie.t) (tx : DB) :
  let tx' := run (InsertMovie newMovie) tx in
  let created := SetMovie.ID (next_id tx) (as_stored newMovie) in
  snd (fst (Create newMovie tx)) <> Some ErrNoRows
  /\ (forall code,
        fault (InsertMovie newMovie) tx = Some code ->
        Create newMovie tx = ((None, Some (ErrStorage code)), tx))
  /\ (forall code,
        fault (InsertMovie newMovie) tx = None ->
        fault (SelectMovie (next_id tx)) tx' = Some code ->
        Create newMovie tx = ((None, Some (ErrStorage code)), tx')
        /\ In created (movies tx'))
  /\ (fault (InsertMovie newMovie) tx = None ->
      fault (SelectMovie (next_id tx)) tx' = None ->
      Create newMovie tx = ((Some created, None), tx')
      /\ Find (next_id tx) tx' = (Some created, None)
      /\ (forall id, id <> next_id tx -> row_by_id id tx' = row_by_id id tx)
      /\ movies_scenes tx' = movies_scenes tx
      /\ movies_images tx' = movies_images tx).
Proof.
  intros tx' created. split; [|split; [|split]].
  - unfold Create, Exec. destruct (fault (InsertMovie newMovie) tx); [discriminate|].
    destruct (fault (SelectMovie (next_id tx)) _); [discriminate|].
    unfold movie_rows. rewrite row_after_insert. discriminate.
  - intros code Hi. unfold Create, Exec. now rewrite Hi.
  - intros code Hi Hs. split.
    + unfold Create, Exec. rewrite Hi. fold tx'. now rewrite Hs.
    + unfold tx'. cbn [run movies]. apply in_or_app. right. now left.
  - intros Hi Hs. split; [now apply Create_accepted|]. split; [|split; [|split]].
    + rewrite Find_no_fault by exact Hs. unfold tx'. now rewrite row_after_insert.
    + intros id Hne. unfold row_by_id, tx'. cbn [run movies].
      induction (movies tx) as [|row rest IH]; simpl.
      * destruct (Z.eqb_spec (next_id tx) id); [congruence | reflexivity].
      * destruct (Movie.ID row =? id); [reflexivity | exact IH].
    + reflexivity.
    + reflexivity.
Qed.

(** ** FindMany on an engine that fails *)

Lemma FindMany_from_shape (ids : list Z) (conn : DB) :
  forall found,
    (snd (FindMany_from found ids conn) <> None ->
     fst (FindMany_from found ids conn) = [])
    /\ (snd (FindMany_from found ids conn) = None ->
        fst (FindMany_from found ids conn)
        = (found ++ List.map (fun id => row_by_id id conn) ids)%list
        /\ forall id, In id ids -> row_by_id id conn <> None).
Proof.
  induction ids as [|id rest IH]; intros found; simpl.
  - split; [congruence|]. intros _. rewrite app_nil_r. split; [reflexivity | intros ? []].
  - destruct (Find id conn) as [movie [e|]] eqn:EF; simpl.
    + split; [reflexivity | discriminate].
    + destruct movie as [m|]; simpl.
      * apply Find_Some_inv in EF. destruct (IH (found ++ [Some m])%list) as [Herr Hok].
        split; [exact Herr|]. intros Hnone. destruct (Hok Hnone) as [E Hall].
        rewrite E, <- app_assoc, EF. split; [reflexivity|].
        intros i [<-|Hi]; [congruence | now apply Hall].
      * split; [reflexivity | discriminate].
Qed.

Lemma FindMany_from_fault (pre : list Z) (id : Z) (post : list Z) (conn : DB)
    (code : nat) :
  (forall i, In i pre -> fault (SelectMovie i) conn = None) ->
  (forall i, In i pre -> row_by_id i conn <> None) ->
  fault (SelectMovie id) conn = Some code ->
  forall found,
    FindMany_from found (pre ++ id :: post) conn = ([], Some (ErrStorage code)).
Proof.
  intros Hf Hr Hfault.
  induction pre as [|i pre IH]; intros found; cbn [app FindMany_from].
  - now rewrite (Find_fault _ _ _ Hfault).
  - rewrite Find_no_fault by (apply Hf; now left).
    destruct (row_by_id i conn) as [m|] eqn:E.
    + apply IH; intros; [apply Hf | apply Hr]; now right.
    + exfalso. apply (Hr i); [now left | exact E].
Qed.

(** X6.  On every engine [FindMany] returns a list or an error, never
    both: with an error the list is nil; without one the list has the row of
    every id, in the order of the ids, and no nil entry.  A read the engine
    refuses ends the loop with that error, unchanged, whatever the ids after
    it. *)
Theorem FindMany_list_or_error (ids : list Z) (conn : DB) :
  (snd (FindMany ids conn) <> None -> fst (FindMany ids conn) = [])
  /\ (snd (FindMany ids conn) = None ->
      fst (FindMany ids conn) = List.map (fun id => row_by_id id conn) ids
      /\ List.length (fst (FindMany ids conn)) = List.length ids
      /\ forall id, In id ids -> row_by_id id conn <> None)
  /\ (forall pre id post code,
        ids = (pre ++ id :: post)%list ->
        (forall i, In i pre -> fault (SelectMovie i) conn = None) ->
        (forall i, In i pre -> row_by_id i conn <> None) ->
        fault (SelectMovie id) conn = Some code ->
        FindMany ids conn = ([], Some (ErrStorage code))).
Proof.
  unfold FindMany. destruct (FindMany_from_shape ids conn []) as [Herr Hok].
  split; [exact Herr|]. split.
  - intros Hnone. destruct (Hok Hnone) as [E Hall]. rewrite E. simpl.
    split; [reflexivity|]. split; [apply length_map | exact Hall].
  - intros pre id post code -> Hf Hr Hfault. now apply FindMany_from_fault.
Qed.

(** ** MovieCreate, end to end *)

Lemma row_by_id_other_after_insert (newMovie : Movie.t) (db : DB) (id : Z) :
  id <> next_id db ->
  List.find (fun m => Movie.ID m =? id)
    (movies db ++ [SetMovie.ID (next_id db) (as_stored newMovie)])
  = row_by_id id db.
Proof.
  intros Hne. unfold row_by_id.
  induction (movies db) as [|row rest IH]; simpl.
  - destruct (Z.eqb_spec (next_id db) id); [congruence | reflexivity].
  - destruct (Movie.ID row =? id); [reflexivity | exact IH].
Qed.

(** X7.  A movie [MovieCreate] returns is stored under a key no movie had
    before, and reading that key gives the returned movie; every movie that
    was stored reads as before and the join table is untouched.  Each
    optional field of the input but the date is NULL in the stored row
    exactly when the input gives it no value; the date is what the store
    keeps of the date of the input, and of the invalid date when the input
    gives none.  The two timestamps are the time of the call. *)
Theorem MovieCreate_round_trip (input : MovieCreateInput.t) (db db' : DB)
    (movie : option Movie.t) :
  MovieCreate input db = (Returned movie None, db') ->
  exists m,
    movie = Some m
    /\ (forall old, In old (movies db) -> Movie.ID old <> Movie.ID m)
    /\ row_by_id (Movie.ID m) db' = Some m
    /\ (forall id, id <> Movie.ID m -> row_by_id id db' = row_by_id id db)
    /\ movies_scenes db' = movies_scenes db
    /\ (forall f, In f translated_fields -> f <> "date"%string ->
          (column f m = SqlNull <-> create_input_null f input = true))
    /\ Movie.Date m
       = stored_date match MovieCreateInput.Date input with
                     | Some d => SQLiteDate.mk d true
                     | None => SQLiteDate.zero
                     end
    /\ Movie.CreatedAt m = SQLiteTimestamp.mk time_Now
    /\ Movie.UpdatedAt m = SQLiteTimestamp.mk time_Now.
Proof.
  intros H. pose proof (MovieCreate_ok_inv _ _ _ _ H) as [-> Hm].
  pose proof (MovieCreate_ok_tables _ _ _ _ H) as (_ & _ & Hdb).
  eexists. split; [reflexivity|]. cbn [Movie.ID SetMovie.ID].
  split; [|split; [|split; [|split; [|split; [|split; [|split]]]]]].
  - intros old Hold. apply next_id_above in Hold. lia.
  - unfold row_by_id. rewrite Hm. apply find_after_fresh.
    + intros x Hx. apply next_id_above in Hx. apply Z.eqb_neq. lia.
    + apply Z.eqb_refl.
  - intros id Hne. unfold row_by_id at 1. rewrite Hm.
    now apply row_by_id_other_after_insert.
  - rewrite Hdb. now destruct (0 <? len _)%nat.
  - intros f Hf Hdate. simpl in Hf.
    repeat (destruct Hf as [<-|Hf];
            [ try contradiction; cbn;
              match goal with
              | |- context [is_nil ?v] => destruct v
              end; cbn; split; congruence |]).
    destruct Hf.
  - reflexivity.
  - reflexivity.
  - reflexivity.
Qed.

(** X8.  [MovieCreate] writes a sidecar row only when the front image it
    decoded has bytes.  Then the new movie has exactly that one row, with
    the decoded front and back images.  Otherwise, and so whenever the input
    carries no image at all, the sidecar table is as it was: a back image
    is never stored without a front image. *)
Theorem MovieCreate_sidecar_rule (input : MovieCreateInput.t) (db db' : DB)
    (movie : option Movie.t) :
  MovieCreate input db = (Returned movie None, db') ->
  let id := next_id db in
  let fd := fst (decoded (MovieCreate_FrontImage input)) in
  let bd := fst (decoded (MovieCreateInput.BackImage input)) in
  (len fd = 0%nat -> movies_images db' = movies_images db)
  /\ (len fd <> 0%nat ->
      image_rows id db' = [mkMoviesImages id fd bd]
      /\ forall other, other <> id -> image_rows other db' = image_rows other db)
  /\ (MovieCreateInput.FrontImage input = None ->
      MovieCreateInput.BackImage input = None ->
      movies_images db' = movies_images db)
  /\ (forall r, In r (movies_images db') ->
        In r (movies_images db) \/ len (front_image r) <> 0%nat).
Proof.
  intros H id fd bd.
  pose proof (MovieCreate_ok_tables _ _ _ _ H) as (_ & _ & Hdb).
  fold id fd bd in Hdb. rewrite Hdb. clear Hdb H.
  split; [|split; [|split]].
  - intros Hz. now rewrite Hz.
  - intros Hnz. destruct (len fd) as [|n] eqn:E; [contradiction|]. cbn [Nat.ltb Nat.leb].
    split; [apply image_rows_recreated|].
    intros other Hne. rewrite image_rows_other_recreated by exact Hne. reflexivity.
  - intros Hf Hb. unfold fd, MovieCreate_FrontImage. now rewrite Hf, Hb.
  - intros r Hr. destruct (len fd) as [|n] eqn:E; cbn [Nat.ltb Nat.leb] in Hr.
    + now left.
    + cbn [run movies_images] in Hr. apply in_app_or in Hr. destruct Hr as [Hr|Hr].
      * left. now apply filter_In in Hr.
      * right. destruct Hr as [<-|[]]. cbn. now rewrite E.
Qed.

(** ** What the resolvers commit *)

(** X9.  The resolvers commit all of their writes or none.  Whatever the
    engine does, [MovieCreate] leaves the committed tables as they were
    unless it returns a movie and no error, [MovieUpdate] unless it returns
    no error, and [MovieDestroy] unless it returns true and no error. *)
Theorem resolvers_commit_only_on_success :
  (forall input db,
     snd (MovieCreate input db) = db
     \/ exists m, fst (MovieCreate input db) = Returned (Some m) None)
  /\ (forall input inputMap db,
        snd (MovieUpdate input inputMap db) = db
        \/ exists movie, fst (MovieUpdate input inputMap db) = Returned movie None)
  /\ (forall id db,
        snd (MovieDestroy id db) = db
        \/ fst (MovieDestroy id db) = (true, None)).
Proof.
  split; [|split].
  - intros input db. unfold MovieCreate.
    destruct (decoded (MovieCreate_FrontImage input)) as [front [e|]]; [now left|].
    destruct (decoded (MovieCreateInput.BackImage input)) as [back [e|]]; [now left|].
    destruct (Create (MovieCreate_newMovie input) db) as [[created [e|]] tx] eqn:EC;
      [now left|].
    apply Create_ok_inv in EC. destruct EC as [-> ->].
    destruct (0 <? len front)%nat.
    + destruct (UpdateMovieImages _ _ _ _) as [[e|] tx2]; [now left|].
      destruct (fault Commit tx2); [now left|]. right. now eexists.
    + destruct (fault Commit _); [now left|]. right. now eexists.
  - intros input inputMap db. unfold MovieUpdate.
    destruct (decoded (MovieUpdateInput.FrontImage input)) as [front [e|]]; [now left|].
    destruct (decoded (MovieUpdateInput.BackImage input)) as [back [e|]]; [now left|].
    destruct (Update _ db) as [[mv [e|]] tx1]; [now left|].
    destruct (MovieUpdate_images _ _ _ _ _ _ _) as [tx2|stopped]; [|now left].
    destruct (fault Commit tx2); [now left|]. right. now eexists.
  - intros id db. unfold MovieDestroy.
    destruct (Destroy id db) as [[e|] tx]; [now left|].
    destruct (fault Commit tx); [now left | now right].
Qed.

(** ** MovieUpdate and the rows of the other movies *)

Lemma MovieUpdate_images_scenes (fi bi : bool) (front back : slice) (movieID : Z)
    (movie : option Movie.t) (tx tx' : DB) :
  MovieUpdate_images fi bi front back movieID movie tx = inl tx' ->
  movies_scenes tx' = movies_scenes tx.
Proof.
  unfold MovieUpdate_images.
  destruct (fi || bi); [|now intros [= <-]].
  destruct (if negb fi then _ else _) as [front' [e|]]; [discriminate|].
  destruct (if negb bi then _ else _) as [back' [e|]]; [discriminate|].
  destruct (both_empty front' back').
  - destruct movie as [m|]; [|discriminate].
    unfold DestroyMovieImages, Exec. destruct (fault _ tx); [discriminate|].
    now intros [= <-].
  - destruct movie as [m|]; [|discriminate].
    unfold UpdateMovieImages, DestroyMovieImages, Exec.
    destruct (fault (DeleteMoviesImages _) tx); [discriminate|].
    destruct (fault (InsertMoviesImages _ _ _) _); [discriminate|].
    now intros [= <-].
Qed.

Lemma set_columns_timestamps (input : MovieUpdateInput.t) (inputMap : gset string)
    (row : Movie.t) :
  let p := MovieUpdate_updatedMovie input inputMap in
  Movie.CreatedAt (set_columns (partial_keys p) p row) = Movie.CreatedAt row
  /\ Movie.UpdatedAt (set_columns (partial_keys p) p row) = SQLiteTimestamp.mk time_Now.
Proof.
  intros p. split.
  - assert (H : column "created_at" (set_columns (partial_keys p) p row)
                = column "created_at" row).
    { apply column_set_columns_unlisted. rewrite in_partial_keys. discriminate. }
    cbn in H. injection H as H.
    destruct (Movie.CreatedAt (set_columns _ _ _)) as [a], (Movie.CreatedAt row) as [b].
    cbn in H. now subst.
  - assert (H : column "updated_at" (set_columns (partial_keys p) p row)
                = SqlInt time_Now).
    { rewrite column_set_columns_listed.
      - reflexivity.
      - intros r r'. reflexivity.
      - rewrite in_partial_keys. reflexivity. }
    cbn in H. injection H as H.
    destruct (Movie.UpdatedAt (set_columns _ _ _)) as [a]. cbn in H. now subst.
Qed.

(** X10.  A [MovieUpdate] that returns no error leaves table [movies] with
    the same keys in the same order.  A row with another key than the
    request's is unchanged; a row with that key keeps its creation time and
    carries the time of the call as its update time.  The join table is
    untouched. *)
Theorem MovieUpdate_touches_one_key (input : MovieUpdateInput.t)
    (inputMap : gset string) (db db' : DB) (movie : option Movie.t) :
  MovieUpdate input inputMap db = (Returned movie None, db') ->
  let id := Atoi (MovieUpdateInput.ID input) in
  Forall2 (fun old new =>
             Movie.ID new = Movie.ID old
             /\ Movie.CreatedAt new = Movie.CreatedAt old
             /\ (Movie.ID old <> id -> new = old)
             /\ (Movie.ID old = id ->
                 Movie.UpdatedAt new = SQLiteTimestamp.mk time_Now))
          (movies db) (movies db')
  /\ movies_scenes db' = movies_scenes db.
Proof.
  intros H id.
  pose proof (MovieUpdate_ok_inv _ _ _ _ _ H) as (_ & _ & Hm).
  pose proof (MovieUpdate_ok_tables _ _ _ _ _ H) as (front & back & _ & _ & _ & Hi).
  apply MovieUpdate_images_scenes in Hi. split; [|exact Hi].
  rewrite Hm. cbn [run movies].
  change (MoviePartial.ID (MovieUpdate_updatedMovie input inputMap)) with id.
  clear. induction (movies db) as [|row rest IH]; simpl; constructor; [|exact IH].
  destruct (set_columns_timestamps input inputMap row) as [Hc Hu].
  destruct (Z.eqb_spec (Movie.ID row) id) as [E|E].
  - split; [apply set_columns_ID|]. split; [exact Hc|]. split; [contradiction|].
    intros _. exact Hu.
  - repeat split; congruence.
Qed.

(** X11.  An image of the request is decoded whether or not its field is
    in the presence set: when it does not decode the update fails with that
    error before anything is written.  With neither image field in the
    presence set a successful update leaves the sidecar table as it was,
    whatever images the request carries. *)
Theorem MovieUpdate_images_out_of_the_set (input : MovieUpdateInput.t)
    (inputMap : gset string) (db : DB) :
  (forall e,
     snd (decoded (MovieUpdateInput.FrontImage input)) = Some e ->
     MovieUpdate input inputMap db = (Returned None (Some e), db))
  /\ (forall e,
        snd (decoded (MovieUpdateInput.FrontImage input)) = None ->
        snd (decoded (MovieUpdateInput.BackImage input)) = Some e ->
        MovieUpdate input inputMap db = (Returned None (Some e), db))
  /\ (hasField inputMap "front_image" = false ->
      hasField inputMap "back_image" = false ->
      forall movie db',
        MovieUpdate input inputMap db = (Returned movie None, db') ->
        movies_images db' = movies_images db).
Proof.
  split; [|split].
  - intros e He. unfold MovieUpdate.
    destruct (decoded (MovieUpdateInput.FrontImage input)) as [front err].
    cbn in He. now subst.
  - intros e Hf He. unfold MovieUpdate.
    destruct (decoded (MovieUpdateInput.FrontImage input)) as [front err].
    destruct (decoded (MovieUpdateInput.BackImage input)) as [back err'].
    cbn in Hf, He. now subst.
  - intros Hfi Hbi movie db' H.
    pose proof (MovieUpdate_ok_tables _ _ _ _ _ H) as (front & back & _ & _ & _ & Hi).
    rewrite Hfi, Hbi in Hi. unfold MovieUpdate_images in Hi. cbn [orb] in Hi.
    now injection Hi as <-.
Qed.

(** X12.  On an engine that refuses nothing, an update of a stored movie
    with both image fields in the presence set stores the images of the
    request and reads none from the table: the movie is left with one
    sidecar row holding them, the front image replaced by the default
    payload when it is nil and the back image is not; when the two are empty,
    and so when both are null, the movie is left without a sidecar row. *)
Theorem MovieUpdate_with_both_images (input : MovieUpdateInput.t)
    (inputMap : gset string) (db : DB) (old : Movie.t) (fd bd : slice) :
  (forall s d, fault s d = None) ->
  let id := Atoi (MovieUpdateInput.ID input) in
  row_by_id id db = Some old ->
  decoded (MovieUpdateInput.FrontImage input) = (fd, None) ->
  decoded (MovieUpdateInput.BackImage input) = (bd, None) ->
  hasField inputMap "front_image" = true ->
  hasField inputMap "back_image" = true ->
  exists m db',
    MovieUpdate input inputMap db = (Returned (Some m) None, db')
    /\ image_rows id db'
       = (if both_empty fd bd then []
          else [mkMoviesImages id (front_or_default fd bd) bd])
    /\ (fd = None -> bd = None -> image_rows id db' = [])
    /\ (forall other, other <> id -> image_rows other db' = image_rows other db).
Proof.
  intros Hf id Hold Hfd Hbd Hfi Hbi.
  pose proof (MovieUpdate_no_fault input inputMap db old fd bd Hf) as H.
  cbv zeta in H. rewrite H by assumption. clear H.
  change (MoviePartial.ID (MovieUpdate_updatedMovie input inputMap)) with id.
  rewrite Hfi, Hbi. cbn [orb].
  do 2 eexists. split; [reflexivity|].
  destruct (both_empty fd bd) eqn:Eb.
  - split; [apply image_rows_deleted|]. split; [intros _ _; apply image_rows_deleted|].
    intros other Hne. now rewrite image_rows_other_deleted.
  - split; [apply image_rows_recreated|]. split.
    + intros -> ->. discriminate Eb.
    + intros other Hne. now rewrite image_rows_other_recreated.
Qed.

(** ** The lookups *)

Lemma group_by_id_In (rows : list Movie.t) :
  forall seen m,
    In m (group_by_id seen rows) -> In m rows /\ ~ In (Movie.ID m) seen.
Proof.
  induction rows as [|row rest IH]; intros seen m H; simpl in H; [destruct H|].
  destruct (existsb (Z.eqb (Movie.ID row)) seen) eqn:E.
  - apply IH in H. destruct H as [H1 H2]. split; [now right | exact H2].
  - destruct H as [<-|H].
    + split; [now left|]. intros Hin.
      assert (Hex : existsb (Z.eqb (Movie.ID row)) seen = true).
      { apply existsb_exists. exists (Movie.ID row). split; [exact Hin | apply Z.eqb_refl]. }
      congruence.
    + apply IH in H. destruct H as [H1 H2]. split; [now right|].
      intros Hin. apply H2. now right.
Qed.

Lemma group_by_id_NoDup (rows : list Movie.t) :
  forall seen, List.NoDup (List.map Movie.ID (group_by_id seen rows)).
Proof.
  induction rows as [|row rest IH]; intros seen; simpl; [constructor|].
  destruct (existsb (Z.eqb (Movie.ID row)) seen); [apply IH|].
  simpl. constructor; [|apply IH].
  intros Hin. apply in_map_iff in Hin. destruct Hin as (m & Hid & Hm).
  apply group_by_id_In in Hm. destruct Hm as [_ Hm]. apply Hm. left. now symmetry.
Qed.

Lemma group_by_id_keeps_keys (rows : list Movie.t) :
  forall seen m,
    In m rows -> ~ In (Movie.ID m) seen ->
    In (Movie.ID m) (List.map Movie.ID (group_by_id seen rows)).
Proof.
  induction rows as [|row rest IH]; intros seen m Hm Hseen; [destruct Hm|].
  simpl. destruct (existsb (Z.eqb (Movie.ID row)) seen) eqn:E.
  - destruct Hm as [->|Hm]; [|now apply IH].
    exfalso. apply existsb_exists in E. destruct E as (k & Hk & Hkey).
    apply Z.eqb_eq in Hkey. subst k. contradiction.
  - destruct Hm as [->|Hm]; [now left|].
    destruct (Z.eq_dec (Movie.ID row) (Movie.ID m)) as [Heq|Hne]; [now left|].
    right. apply IH; [exact Hm|]. intros [H|H]; contradiction.
Qed.

Lemma in_scene_spec (sceneID : Z) (joins : list MoviesScenesRow) (m : Movie.t) :
  in_scene sceneID joins m = true
  <-> exists r, In r joins /\ movie_id r = Movie.ID m /\ scene_id r = sceneID.
Proof.
  unfold in_scene. rewrite existsb_exists. split.
  - intros (r & Hr & H). apply andb_true_iff in H. destruct H as [H1 H2].
    exists r. split; [exact Hr|]. split; now apply Z.eqb_eq.
  - intros (r & Hr & H1 & H2). exists r. split; [exact Hr|].
    apply andb_true_iff. split; now apply Z.eqb_eq.
Qed.

(** X13.  When the engine answers it, [FindBySceneID] returns no error and
    one movie for each key that is stored and joined to the scene: every
    movie returned is a stored row with a join row to the scene, no key
    comes twice, and every stored movie joined to the scene has its key in
    the result. *)
Theorem FindBySceneID_members (sceneID : Z) (tx : DB) :
  lookup_fault (SelectBySceneID sceneID) tx = None ->
  snd (FindBySceneID sceneID tx) = None
  /\ List.NoDup (List.map Movie.ID (fst (FindBySceneID sceneID tx)))
  /\ (forall m, In m (fst (FindBySceneID sceneID tx)) ->
        In m (movies tx)
        /\ exists r, In r (movies_scenes tx)
                     /\ movie_id r = Movie.ID m /\ scene_id r = sceneID)
  /\ (forall m r,
        In m (movies tx) -> In r (movies_scenes tx) ->
        movie_id r = Movie.ID m -> scene_id r = sceneID ->
        In (Movie.ID m) (List.map Movie.ID (fst (FindBySceneID sceneID tx)))).
Proof.
  intros Hf. unfold FindBySceneID, queryMoviesBy. rewrite Hf. cbn [fst snd lookup_rows].
  split; [reflexivity|]. split; [apply group_by_id_NoDup|]. split.
  - intros m Hm. apply group_by_id_In in Hm. destruct Hm as [Hm _].
    apply filter_In in Hm. destruct Hm as [Hm Hs]. split; [exact Hm|].
    now apply in_scene_spec.
  - intros m r Hm Hr H1 H2. apply group_by_id_keeps_keys; [|intros []].
    apply filter_In. split; [exact Hm|]. apply in_scene_spec. now exists r.
Qed.

(** X14.  After a [Destroy] that reports no error, no lookup by scene
    returns a movie with the destroyed id, and a movie of another id that a
    scene lookup found before is still found. *)
Theorem Destroy_then_FindBySceneID (id : string) (tx tx' : DB) (sceneID : Z) :
  Destroy id tx = (None, tx') ->
  (forall m, In m (fst (FindBySceneID sceneID tx')) -> id_matches id (Movie.ID m) = false)
  /\ (lookup_fault (SelectBySceneID sceneID) tx' = None ->
      forall m,
        In m (fst (FindBySceneID sceneID tx)) ->
        id_matches id (Movie.ID m) = false ->
        In (Movie.ID m) (List.map Movie.ID (fst (FindBySceneID sceneID tx')))).
Proof.
  intros HD. apply Destroy_ok_inv in HD. split.
  - intros m. unfold FindBySceneID, queryMoviesBy.
    destruct (lookup_fault _ tx'); [intros []|]. cbn [fst lookup_rows]. intros Hm.
    apply group_by_id_In in Hm. destruct Hm as [Hm _].
    apply filter_In in Hm. destruct Hm as [Hm _]. subst tx'.
    cbn in Hm. apply filter_In in Hm. destruct Hm as [_ Hm].
    now apply negb_true_iff in Hm.
  - intros Hf m. unfold FindBySceneID, queryMoviesBy. rewrite Hf.
    destruct (lookup_fault _ tx); [intros []|]. cbn [fst lookup_rows]. intros Hm Hid.
    apply group_by_id_In in Hm. destruct Hm as [Hm _].
    apply filter_In in Hm. destruct Hm as [Hm Hs].
    apply in_scene_spec in Hs. destruct Hs as (r & Hr & H1 & H2).
    apply group_by_id_keeps_keys; [|intros []].
    apply filter_In. subst tx'. cbn. split.
    + apply filter_In. split; [exact Hm|]. now rewrite Hid.
    + apply in_scene_spec. exists r. split; [|now split].
      apply filter_In. split; [exact Hr|]. now rewrite H1, Hid.
Qed.

Lemma text_equal_exact (a b : string) : text_equal false a b = true -> a = b.
Proof. unfold text_equal. apply String.eqb_eq. Qed.

Lemma text_equal_nocase (nocase : bool) (a b : string) :
  text_equal false a b = true -> text_equal nocase a b = true.
Proof.
  intros H. apply text_equal_exact in H. subst b.
  destruct nocase; unfold text_equal; apply String.eqb_refl.
Qed.

Lemma name_is_nocase (nocase : bool) (name : string) (m : Movie.t) :
  name_is false name m = true -> name_is nocase name m = true.
Proof.
  unfold name_is. intros H. apply andb_true_iff in H. destruct H as [Hv Ht].
  rewrite Hv. now apply text_equal_nocase.
Qed.

Lemma FindByName_accepted (name : string) (tx : DB) (nocase : bool) :
  lookup_fault (SelectByName name nocase) tx = None ->
  FindByName name tx nocase = (List.find (name_is nocase name) (movies tx), None).
Proof.
  intros Hf. unfold FindByName, queryMovieBy, queryMoviesBy. rewrite Hf.
  cbn [lookup_rows]. now destruct (find _ _).
Qed.

(** X15.  When the engine answers it, [FindByName] reports no error.  A
    movie it returns is a stored row whose name is not NULL and equals the
    name asked for, up to the case of ASCII letters when [nocase] is set and
    exactly otherwise; it returns nil exactly when no stored row has such a
    name.  A name the exact lookup finds is also found without the case. *)
Theorem FindByName_gives_a_match (name : string) (tx : DB) (nocase : bool) :
  (forall any, lookup_fault (SelectByName name any) tx = None) ->
  snd (FindByName name tx nocase) = None
  /\ (forall m,
        fst (FindByName name tx nocase) = Some m ->
        In m (movies tx)
        /\ NullString.Valid (Movie.Name m) = true
        /\ text_equal nocase (NullString.String (Movie.Name m)) name = true)
  /\ (forall m,
        fst (FindByName name tx false) = Some m ->
        Movie.Name m = NullString.mk name true)
  /\ (fst (FindByName name tx nocase) = None
      <-> forall m, In m (movies tx) -> name_is nocase name m = false)
  /\ (fst (FindByName name tx false) <> None ->
      fst (FindByName name tx true) <> None).
Proof.
  intros Hf. rewrite !FindByName_accepted by apply Hf. cbn [fst snd].
  split; [reflexivity|]. split; [|split; [|split]].
  - intros m Hm. apply find_some in Hm. destruct Hm as [Hin Hm].
    unfold name_is in Hm. apply andb_true_iff in Hm. now split.
  - intros m Hm. apply find_some in Hm. destruct Hm as [_ Hm].
    unfold name_is in Hm. apply andb_true_iff in Hm. destruct Hm as [Hv Ht].
    apply text_equal_exact in Ht. destruct (Movie.Name m) as [s v]. cbn in *. now subst.
  - split.
    + intros Hnone m Hm. exact (find_none _ _ Hnone m Hm).
    + intros Hall. destruct (find _ _) as [m|] eqn:E; [|reflexivity].
      apply find_some in E. destruct E as [Hin Hm]. rewrite (Hall m Hin) in Hm.
      discriminate.
  - intros Hsome Hnone. apply Hsome. clear Hsome.
    destruct (find (name_is false name) (movies tx)) as [m|] eqn:E; [|reflexivity].
    apply find_some in E. destruct E as [Hin Hm].
    apply (name_is_nocase true) in Hm.
    pose proof (find_none _ _ Hnone m Hin) as Hno. cbn in Hno. congruence.
Qed.

Lemma name_among_spec (nocase : bool) (names : list string) (m : Movie.t) :
  name_among nocase names m = true
  <-> exists name, In name names /\ name_is nocase name m = true.
Proof. unfold name_among. apply existsb_exists. Qed.

Lemma FindByNames_accepted (names : list string) (tx : DB) (nocase : bool) :
  lookup_fault (SelectByNames names nocase) tx = None ->
  FindByNames names tx nocase
  = (List.filter (name_among nocase names) (movies tx), None).
Proof. intros Hf. unfold FindByNames, queryMoviesBy. now rewrite Hf. Qed.

(** X16.  When the engine answers it, [FindByNames] reports no error and
    returns exactly the stored rows whose name is one of the names; for an
    empty list of names it returns no movie.  Whatever [FindByName] finds
    for one of the names is among the movies [FindByNames] returns. *)
Theorem FindByNames_members (names : list string) (tx : DB) (nocase : bool) :
  lookup_fault (SelectByNames names nocase) tx = None ->
  snd (FindByNames names tx nocase) = None
  /\ (forall m,
        In m (fst (FindByNames names tx nocase))
        <-> In m (movies tx)
            /\ exists name, In name names /\ name_is nocase name m = true)
  /\ (names = [] -> fst (FindByNames names tx nocase) = [])
  /\ (forall name m,
        In name names ->
        fst (FindByName name tx nocase) = Some m ->
        In m (fst (FindByNames names tx nocase))).
Proof.
  intros Hf. unfold FindByNames, queryMoviesBy. rewrite Hf. cbn [fst snd lookup_rows].
  split; [reflexivity|]. split; [|split].
  - intros m. rewrite filter_In, name_among_spec. reflexivity.
  - intros ->. induction (movies tx) as [|row rest IH]; [reflexivity | exact IH].
  - intros name m Hname. unfold FindByName, queryMovieBy, queryMoviesBy.
    destruct (lookup_fault (SelectByName name nocase) tx); [discriminate|].
    cbn [lookup_rows]. destruct (find _ _) as [found|] eqn:E; [|discriminate].
    cbn. intros [= <-]. apply find_some in E. destruct E as [Hin Hm].
    apply filter_In. split; [exact Hin|]. apply name_among_spec. now exists name.
Qed.

(** X17.  A movie [MovieCreate] returns is found by its name afterwards:
    the exact lookup of the input's name gives a movie of that name, the
    created one when no movie of that name was stored before, and the
    lookup by a list that holds the name gives the created movie among its
    results. *)
Theorem MovieCreate_then_FindByName (input : MovieCreateInput.t) (db db' : DB)
    (m : Movie.t) (nocase : bool) :
  let name := MovieCreateInput.Name input in
  MovieCreate input db = (Returned (Some m) None, db') ->
  (forall q, lookup_fault q db' = None) ->
  (exists found,
     fst (FindByName name db' nocase) = Some found
     /\ name_is nocase name found = true)
  /\ ((forall old, In old (movies db) -> name_is nocase name old = false) ->
      FindByName name db' nocase = (Some m, None))
  /\ (forall names, In name names -> In m (fst (FindByNames names db' nocase))).
Proof.
  intros name H Hf. pose proof (MovieCreate_ok_inv _ _ _ _ H) as [Hm Hrows].
  injection Hm as Hm.
  assert (Hname : name_is nocase name m = true).
  { apply name_is_nocase. subst m. unfold name_is, name. cbn.
    unfold text_equal. apply String.eqb_refl. }
  assert (Hin : In m (movies db')).
  { rewrite Hrows, <- Hm. apply in_or_app. right. now left. }
  rewrite !FindByName_accepted by apply Hf. cbn [fst]. split; [|split].
  - destruct (find (name_is nocase name) (movies db')) as [found|] eqn:E.
    + exists found. split; [reflexivity|]. now apply find_some in E.
    + pose proof (find_none _ _ E m Hin) as Hno. cbn in Hno. congruence.
  - intros Hold. f_equal. rewrite Hrows, <- Hm.
    apply find_after_fresh; [exact Hold | exact Hname].
  - intros names Hnames. rewrite FindByNames_accepted by apply Hf. cbn [fst].
    apply filter_In. split; [exact Hin|]. apply name_among_spec. now exists name.
Qed.

(** ** The clauses of Query *)

(** X18.  [Query] ignores a filter that is empty as it ignores one that is
    absent: with a search term that is nil or the empty string, a studio
    criterion that is nil or has no value, and an is-missing field that is
    nil or the empty string, the statement is the one of the nil filters,
    with no WHERE clause, no HAVING clause and no argument. *)
Theorem Query_ignores_empty_filters (movieFilter : MovieFilterType.t)
    (findFilter : FindFilterType.t) :
  FindFilterType.Q findFilter = None \/ FindFilterType.Q findFilter = Some ""%string ->
  MovieFilterType.Studios movieFilter = None
  \/ (exists studios,
        MovieFilterType.Studios movieFilter = Some studios
        /\ MultiCriterionInput.Value studios = []) ->
  MovieFilterType.IsMissing movieFilter = None
  \/ MovieFilterType.IsMissing movieFilter = Some ""%string ->
  Query_clauses movieFilter findFilter
  = Query_clauses MovieFilterType.zero FindFilterType.zero
  /\ snd (fst (fst (Query_clauses movieFilter findFilter))) = []
  /\ snd (fst (Query_clauses movieFilter findFilter)) = []
  /\ snd (Query_clauses movieFilter findFilter) = [].
Proof.
  intros HQ HS HM.
  assert (E : Query_clauses movieFilter findFilter
              = Query_clauses MovieFilterType.zero FindFilterType.zero).
  { unfold Query_clauses.
    destruct HQ as [-> | ->];
      destruct HS as [-> | (studios & -> & ->)];
      destruct HM as [-> | ->]; reflexivity. }
  rewrite E. repeat split.
Qed.

(** ** Destroying one movie, and many *)

(** X19.  [MovieDestroy] behaves as [MoviesDestroy] on the batch of that
    one id, on every engine: the same result, the same committed tables. *)
Theorem MovieDestroy_is_the_batch_of_one (id : string) (db : DB) :
  MovieDestroy id db = MoviesDestroy [id] db.
Proof.
  unfold MovieDestroy, MoviesDestroy. cbn [MoviesDestroy_loop].
  now destruct (Destroy id db) as [[e|] tx].
Qed.

Lemma filter_filter_and {A : Type} (f g : A -> bool) (l : list A) :
  List.filter g (List.filter f l) = List.filter (fun x => f x && g x) l.
Proof.
  induction l as [|x rest IH]; simpl; [reflexivity|].
  destruct (f x); simpl; [|exact IH]. destruct (g x); [now f_equal | exact IH].
Qed.

Lemma MoviesDestroy_loop_tables (ids : list string) :
  forall tx tx',
    MoviesDestroy_loop ids tx = (None, tx') ->
    movies tx' = List.filter (survives id_matches Movie.ID ids) (movies tx)
    /\ movies_scenes tx' = List.filter (survives id_matches movie_id ids) (movies_scenes tx).
Proof.
  induction ids as [|id rest IH]; intros tx tx' H; cbn [MoviesDestroy_loop] in H.
  - injection H as <-. unfold survives. cbn [forallb].
    repeat split; symmetry; apply filter_keeps_all; reflexivity.
  - destruct (Destroy id tx) as [[e|] tx1] eqn:E; [discriminate|].
    apply Destroy_ok_inv in E. apply IH in H. destruct H as (Hm & Hs).
    subst tx1. cbn in Hm, Hs. rewrite Hm, Hs.
    rewrite !filter_filter_and. repeat split.
Qed.

Lemma survives_same_ids {A : Type} (key : A -> Z) (ids ids' : list string) (row : A) :
  (forall id, In id ids <-> In id ids') ->
  survives id_matches key ids row = survives id_matches key ids' row.
Proof.
  intros Hsame. unfold survives.
  destruct (forallb _ ids') eqn:E'.
  - apply forallb_forall. intros id Hid.
    exact (proj1 (forallb_forall _ _) E' id (proj1 (Hsame id) Hid)).
  - destruct (forallb _ ids) eqn:E; [|reflexivity].
    rewrite <- E'. symmetry. apply forallb_forall. intros id Hid.
    exact (proj1 (forallb_forall _ _) E id (proj2 (Hsame id) Hid)).
Qed.

(** X20.  A [MoviesDestroy] that returns no error has kept exactly the
    movies and join rows whose key matches no id of the batch, in their
    order.  So two batches with the same ids, in any order and with any
    repetition, commit the same movies and the same join rows; the empty
    batch commits the tables as they were. *)
Theorem MoviesDestroy_keeps_the_rest (ids : list string) (db : DB) :
  snd (fst (MoviesDestroy ids db)) = None ->
  let db' := snd (MoviesDestroy ids db) in
  movies db' = List.filter (survives id_matches Movie.ID ids) (movies db)
  /\ movies_scenes db'
     = List.filter (survives id_matches movie_id ids) (movies_scenes db)
  /\ (ids = [] -> db' = db)
  /\ (forall ids',
        (forall id, In id ids <-> In id ids') ->
        snd (fst (MoviesDestroy ids' db)) = None ->
        movies (snd (MoviesDestroy ids' db)) = movies db'
        /\ movies_scenes (snd (MoviesDestroy ids' db)) = movies_scenes db').
Proof.
  intros Hok db'.
  assert (Hshape : forall l,
             snd (fst (MoviesDestroy l db)) = None ->
             MoviesDestroy_loop l db = (None, snd (MoviesDestroy l db))).
  { intros l. unfold MoviesDestroy.
    destruct (MoviesDestroy_loop l db) as [[e|] tx]; cbn; [discriminate|].
    now destruct (fault Commit tx). }
  pose proof (MoviesDestroy_loop_tables ids db db' (Hshape ids Hok)) as (Hm & Hs).
  split; [exact Hm|]. split; [exact Hs|]. split.
  - intros ->. pose proof (Hshape [] Hok) as H. cbn in H. now injection H.
  - intros ids' Hsame Hok'.
    pose proof (MoviesDestroy_loop_tables ids' db _ (Hshape ids' Hok')) as (Hm' & Hs').
    rewrite Hm, Hs, Hm', Hs'.
    split; apply filter_ext; intros row; symmetry; now apply survives_same_ids.
Qed.

(** ** Query and FindMany *)

Lemma FindMany_from_reads (ids : list Z) (conn : DB) :
  forall found,
    snd (FindMany_from found ids conn) = None ->
    forall id, In id ids -> fst (Find id conn) = row_by_id id conn.
Proof.
  induction ids as [|id rest IH]; intros found H i Hi; [destruct Hi|].
  cbn [FindMany_from] in H.
  destruct (Find id conn) as [movie [e|]] eqn:EF; [discriminate|].
  destruct movie as [m|]; [|discriminate].
  destruct Hi as [<-|Hi].
  - rewrite EF. cbn. symmetry. now apply Find_Some_inv in EF.
  - now apply (IH _ H).
Qed.

(** X21.  [Query] hydrates as [FindMany] reads: whenever [FindMany] on the
    ids of the id query returns no error, the list of [Query] is the list of
    [FindMany], and it holds no nil entry. *)
Theorem Query_agrees_with_FindMany (movieFilter : option MovieFilterType.t)
    (findFilter : option FindFilterType.t) (conn conn' : DB) :
  let ids := fst (Query_find movieFilter findFilter conn) in
  snd (FindMany ids conn') = None ->
  fst (Query movieFilter findFilter conn conn') = fst (FindMany ids conn')
  /\ Forall (fun movie => movie <> None) (fst (Query movieFilter findFilter conn conn')).
Proof.
  intros ids Hok.
  assert (EQ : fst (Query movieFilter findFilter conn conn')
               = List.map (fun id => fst (Find id conn')) ids).
  { unfold Query, ids. destruct (Query_find _ _ _) as [idsResult countResult].
    now rewrite hydrate_fold. }
  destruct (FindMany_from_shape ids conn' []) as [_ Hshape].
  destruct (Hshape Hok) as [E Hall].
  assert (EM : List.map (fun id => fst (Find id conn')) ids
               = List.map (fun id => row_by_id id conn') ids).
  { apply map_ext_in. intros id Hid. exact (FindMany_from_reads ids conn' [] Hok id Hid). }
  rewrite EQ, EM. unfold FindMany. rewrite E. cbn [app]. split; [reflexivity|].
  apply List.Forall_forall. intros movie Hm. apply in_map_iff in Hm.
  destruct Hm as (id & <- & Hid). now apply Hall.
Qed.

(** ** UpdateFull *)

Lemma column_set_column_full_other (key f : string) (arg row : Movie.t) :
  key <> f -> column f (set_column_full key arg row) = column f row.
Proof.
  intros Hne. unfold set_column_full.
  repeat match goal with
         | |- context [(key =? ?s)%string] =>
             destruct (String.eqb_spec key s); [subst key|]
         end;
    try reflexivity;
    unfold column;
    repeat match goal with
           | |- context [(f =? ?s)%string] =>
               destruct (String.eqb_spec f s); [subst f|]
           end;
    try reflexivity; try congruence.
Qed.

Lemma column_set_column_full_same (f : string) (arg row : Movie.t) :
  In f movie_columns -> column f (set_column_full f arg row) = column f (as_stored arg).
Proof.
  intros H. simpl in H.
  repeat (destruct H as [<-|H]; [reflexivity|]). destruct H.
Qed.

Lemma column_set_columns_full (set_list : list string) (f : string) (arg : Movie.t) :
  forall row,
    column f (set_columns_full set_list arg row)
    = if in_dec string_dec f set_list
      then (if in_dec string_dec f movie_columns
            then column f (as_stored arg)
            else column f row)
      else column f row.
Proof.
  unfold set_columns_full.
  induction set_list as [|key rest IH]; intros row; [reflexivity|].
  cbn [fold_left]. rewrite IH.
  destruct (in_dec string_dec f rest) as [Hrest|Hrest];
    destruct (in_dec string_dec f (key :: rest)) as [Hall|Hall];
    try (exfalso; apply Hall; now right).
  - destruct (in_dec string_dec f movie_columns); [reflexivity|].
    destruct (string_dec key f) as [->|Hne].
    + unfold set_column_full, column. 
      assert (Hc : forall c, In c movie_columns -> f <> c) by (intros c Hc ->; contradiction).
      repeat match goal with
             | |- context [(f =? ?s)%string] =>
                 destruct (String.eqb_spec f s);
                 [exfalso; apply (Hc s); [simpl; auto 20 | assumption]|]
             end.
      reflexivity.
    + now apply column_set_column_full_other.
  - destruct Hall as [->|Hin]; [|contradiction].
    destruct (in_dec string_dec f movie_columns) as [Hc|Hc].
    + now apply column_set_column_full_same.
    + unfold set_column_full, column.
      assert (Hn : forall c, In c movie_columns -> f <> c) by (intros c Hin ->; contradiction).
      repeat match goal with
             | |- context [(f =? ?s)%string] =>
                 destruct (String.eqb_spec f s);
                 [exfalso; apply (Hn s); [simpl; auto 20 | assumption]|]
             end.
      reflexivity.
  - apply column_set_column_full_other. intros ->. apply Hall. now left.
Qed.

Lemma set_columns_full_ID (set_list : list string) (arg row : Movie.t) :
  Movie.ID row = Movie.ID arg ->
  Movie.ID (set_columns_full set_list arg row) = Movie.ID row.
Proof.
  intros Hid.
  assert (H : column "id" (set_columns_full set_list arg row) = column "id" row).
  { rewrite column_set_columns_full.
    destruct (in_dec string_dec "id" set_list); [|reflexivity].
    destruct (in_dec string_dec "id" movie_columns); [|reflexivity].
    cbn. now rewrite Hid. }
  cbn in H. now injection H.
Qed.

Lemma run_full_update_row (set_list : list string) (arg : Movie.t) (tx : DB) :
  row_by_id (Movie.ID arg) (run_full_update set_list arg tx)
  = option_map (set_columns_full set_list arg) (row_by_id (Movie.ID arg) tx).
Proof.
  unfold row_by_id, run_full_update. cbn [movies].
  induction (movies tx) as [|row rest IH]; [reflexivity|]. cbn [List.map find].
  destruct (Z.eqb_spec (Movie.ID row) (Movie.ID arg)) as [E|E].
  - rewrite (set_columns_full_ID _ _ _ E), E, Z.eqb_refl. reflexivity.
  - destruct (Z.eqb_spec (Movie.ID row) (Movie.ID arg)); [contradiction | exact IH].
Qed.

(** X22.  When the engine accepts the UPDATE and the re-read, [UpdateFull]
    keeps the keys of table [movies] in their order and leaves every row
    with another key unchanged.  For a key that is stored it returns the
    first row with the key as the UPDATE left it: a column whose key
    [SQLGenKeys] emits holds the value of the record handed in, the date as
    the store converts it, and any other column its stored value.  For a
    key that is not stored it returns a nil movie and a nil error. *)
Theorem UpdateFull_returns_the_reread_row (updatedMovie : Movie.t) (tx : DB) :
  let keys := SQLGenKeys_keys updatedMovie in
  let tx1 := run_full_update keys updatedMovie tx in
  full_update_fault keys updatedMovie tx = None ->
  fault (SelectMovie (Movie.ID updatedMovie)) tx1 = None ->
  snd (UpdateFull updatedMovie tx) = tx1
  /\ Forall2 (fun old new =>
                Movie.ID new = Movie.ID old
                /\ (Movie.ID old <> Movie.ID updatedMovie -> new = old))
       (movies tx) (movies tx1)
  /\ (forall old,
        row_by_id (Movie.ID updatedMovie) tx = Some old ->
        exists new,
          fst (UpdateFull updatedMovie tx) = (Some new, None)
          /\ forall f, In f movie_columns ->
               column f new = if in_dec string_dec f keys
                              then column f (as_stored updatedMovie)
                              else column f old)
  /\ (row_by_id (Movie.ID updatedMovie) tx = None ->
      fst (UpdateFull updatedMovie tx) = (None, None)).
Proof.
  intros keys tx1 Hu Hs. unfold UpdateFull. fold keys. rewrite Hu. fold tx1.
  rewrite Find_no_fault by exact Hs. cbn [fst snd]. split; [reflexivity|].
  split; [|split].
  - unfold tx1, run_full_update. cbn [movies].
    induction (movies tx) as [|row rest IH]; simpl; constructor; [|exact IH].
    destruct (Z.eqb_spec (Movie.ID row) (Movie.ID updatedMovie)) as [E|E].
    + split; [now apply set_columns_full_ID | contradiction].
    + now split.
  - intros old Hold. unfold tx1. rewrite run_full_update_row, Hold. cbn [option_map].
    eexists. split; [reflexivity|]. intros f Hf. rewrite column_set_columns_full.
    destruct (in_dec string_dec f keys); [|reflexivity].
    destruct (in_dec string_dec f movie_columns); [reflexivity | contradiction].
  - intros Hnone. unfold tx1. now rewrite run_full_update_row, Hnone.
Qed.

End Repository.

(** * The properties on sample data *)

Local Abbreviation sample_Update := (Update accepts_all decimal_matches sample_date sample_cascade).
Local Abbreviation sample_patch := (MovieUpdate_updatedMovie sample_MD5 200).
Local Abbreviation sample_MovieUpdate :=
  (MovieUpdate accepts_all decimal_matches
     sample_date sample_cascade sample_MD5 sample_decode "default" 200).
Local Abbreviation sample_MovieCreate :=
  (MovieCreate accepts_all decimal_matches
     sample_date sample_cascade sample_MD5 sample_decode "default" 200).
Local Abbreviation strict_MovieUpdate :=
  (MovieUpdate refuses_nil_front decimal_matches sample_date
     sample_cascade sample_MD5 sample_decode "default" 200).
Local Abbreviation strict_MovieCreate :=
  (MovieCreate refuses_nil_front decimal_matches sample_date
     sample_cascade sample_MD5 sample_decode "default" 200).
Local Abbreviation sample_Query :=
  (Query accepts_all sample_getColumn sample_getSort sample_selectDistinctIDs
         sample_getSearchBinding sample_getMultiCriterionClause sample_appendClause
         sample_getPagination sample_executeFindQuery).

(** C1 on sample data: a rating out of the presence set leaves the ratings
    5 and 4 as they are; a rating in the set with the value null leaves NULL
    in the row of the patch's key, and a date in the set with the value null
    leaves the invalid date as the store keeps it. *)
Lemma Update_writes_present_fields_only_witness :
  In "rating" translated_fields
  /\ List.map (column "rating")
       (movies (snd (sample_Update (sample_patch (sample_update "1") ∅) sample_db)))
     = [SqlInt 5; SqlInt 4]
  /\ (forall row,
        In row (movies (snd (sample_Update
                               (sample_patch (sample_update "1") {[ "rating" ]})
                               sample_db))) ->
        Movie.ID row = 1 -> column "rating" row = SqlNull)
  /\ (forall row,
        In row (movies (snd (sample_Update
                               (sample_patch (sample_update "1") {[ "date" ]})
                               sample_db))) ->
        Movie.ID row = 1 -> column "date" row = SqlDate (sample_date SQLiteDate.zero)).
Proof.
  assert (Hin : In "rating" translated_fields) by (simpl; auto 10).
  assert (Hdate : In "date" translated_fields) by (simpl; auto 10).
  split; [exact Hin|]. split; [|split].
  - destruct (Update_writes_present_fields_only accepts_all decimal_matches
                sample_date sample_cascade sample_MD5 200
                (sample_update "1") ∅ "rating" Hin) as [H _].
    destruct (H eq_refl) as [_ Hframe]. rewrite Hframe. reflexivity.
  - destruct (Update_writes_present_fields_only accepts_all decimal_matches
                sample_date sample_cascade sample_MD5 200
                (sample_update "1") {[ "rating" ]} "rating" Hin) as (_ & H & _).
    destruct (H eq_refl) as [_ Hnull].
    intros row Hrow Hid. exact (Hnull eq_refl sample_db row eq_refl Hrow Hid).
  - destruct (Update_writes_present_fields_only accepts_all decimal_matches
                sample_date sample_cascade sample_MD5 200
                (sample_update "1") {[ "date" ]} "date" Hdate) as (_ & H & _).
    destruct (H eq_refl) as [_ Hnull].
    intros row Hrow Hid. exact (Hnull eq_refl sample_db row eq_refl Hrow Hid).
Defined.

(** C1 as stated fails on the name: with [name] in the presence set and the
    value null, [name] is not in the SET-list and the stored names stay. *)
Lemma null_name_is_not_written :
  hasField {[ "name" ]} "name" = true
  /\ input_null "name" (sample_update "1") = true
  /\ partial_keys (sample_patch (sample_update "1") {[ "name" ]}) = ["updated_at"]
  /\ List.map (column "name")
       (movies (snd (sample_MovieUpdate (sample_update "1") {[ "name" ]} sample_db)))
     = [SqlText "A"; SqlText "B"].
Proof. repeat split. Qed.

(** C2 on sample data, on an engine that refuses a sidecar row without a
    front image: a movie created with a back image only, and the first
    movie updated with a back image and a null front image, get the default
    payload as their front image. *)
Lemma nil_front_with_back_stores_the_default_witness :
  sample_decode "default" = (Some (list_byte_of_string "default"), None)
  /\ sample_decode "back" = (Some (list_byte_of_string "back"), None)
  /\ (exists m db',
        strict_MovieCreate (sample_create "C" None (Some "back")) sample_db
        = (Returned (Some m) None, db')
        /\ stored_image front_image (Movie.ID m) db'
           = Some (list_byte_of_string "default")
        /\ stored_image back_image (Movie.ID m) db'
           = Some (list_byte_of_string "back"))
  /\ (exists m db',
        strict_MovieUpdate (sample_update_images "1" None (Some "back"))
          {[ "front_image"; "back_image" ]} sample_db
        = (Returned (Some m) None, db')
        /\ stored_image front_image 1 db' = Some (list_byte_of_string "default")
        /\ stored_image back_image 1 db' = Some (list_byte_of_string "back")).
Proof.
  assert (Hne : forall s : string, s <> ""%string -> list_byte_of_string s <> [])
    by (intros [|c s] H; [contradiction | discriminate]).
  destruct (nil_front_with_back_stores_the_default refuses_nil_front decimal_matches
              sample_date sample_cascade
              sample_MD5 sample_decode "default" 200
              (list_byte_of_string "default") (list_byte_of_string "back") "back"
              eq_refl (Hne "default" ltac:(discriminate))
              eq_refl (Hne "back" ltac:(discriminate))) as [Hcreate Hupdate].
  split; [reflexivity|]. split; [reflexivity|]. split.
  - destruct (Hcreate (sample_create "C" None (Some "back")) sample_db eq_refl eq_refl)
      as [Hfacts Hreturns].
    destruct (Hreturns eq_refl eq_refl eq_refl eq_refl eq_refl) as (m & E).
    destruct (Hfacts _ _ E) as (m' & Hm & _ & Hfront & Hback).
    injection Hm as <-. exists m. eexists. split; [exact E|]. now split.
  - assert (Hin : hasField {[ "front_image"; "back_image" ]} "back_image" = true)
      by (vm_compute; reflexivity).
    assert (Hfi : hasField {[ "front_image"; "back_image" ]} "front_image" = true)
      by (vm_compute; reflexivity).
    destruct (Hupdate (sample_update_images "1" None (Some "back"))
                {[ "front_image"; "back_image" ]} sample_db
                eq_refl eq_refl Hin (or_introl Hfi)) as [Hfacts Hreturns].
    cbv zeta in Hreturns.
    destruct Hreturns as (m & E);
      [ vm_compute; discriminate | reflexivity | reflexivity | reflexivity
      | reflexivity | reflexivity | reflexivity |].
    destruct (Hfacts _ _ E) as (_ & Hfront & Hback).
    exists m. eexists. split; [exact E|]. now split.
Defined.

(** C2 as stated fails for a front image that is empty without being nil.
    The update stores the empty front image, not the default payload; the
    create stores no sidecar row at all, so the back image is lost. *)
Lemma empty_front_is_not_replaced :
  sample_decode "data:image/png;base64," = (Some [], None)
  /\ fst (sample_decode "default") = Some (list_byte_of_string "default")
  /\ movies_images
       (snd (sample_MovieUpdate
               (sample_update_images "1" (Some "data:image/png;base64,") (Some "back"))
               {[ "front_image"; "back_image" ]} sample_db))
     = [mkMoviesImages 2 (Some (list_byte_of_string "front2"))
                         (Some (list_byte_of_string "back2"));
        mkMoviesImages 1 (Some []) (Some (list_byte_of_string "back"))]
  /\ sample_MovieCreate
       (sample_create "C" (Some "data:image/png;base64,") (Some "back")) sample_db
     = (Returned (Some (SetMovie.ID 3 (MovieCreate_newMovie sample_MD5 200
                                         (sample_create "C" (Some "data:image/png;base64,")
                                                        (Some "back")))))
                 None,
        mkDB (movies sample_db
                ++ [SetMovie.ID 3 (MovieCreate_newMovie sample_MD5 200
                                     (sample_create "C" (Some "data:image/png;base64,")
                                                    (Some "back")))])
             (movies_scenes sample_db) (movies_images sample_db) 3).
Proof. repeat split. Qed.

(** C3 on sample data: the patch of a stored movie. *)
Lemma Update_returns_the_reread_row_witness :
  accepts_all (UpdateMovies (partial_keys (sample_patch (sample_update "1") {[ "rating" ]}))
                            (sample_patch (sample_update "1") {[ "rating" ]}))
              sample_db = None
  /\ fst (sample_Update (sample_patch (sample_update "1") {[ "rating" ]}) sample_db)
     = (Some (SetMovie.UpdatedAt (SQLiteTimestamp.mk 200)
                (SetMovie.Rating NullInt64.zero (sample_movie 1 "A" 5))), None).
Proof.
  split; [reflexivity|].
  destruct (Update_returns_the_reread_row accepts_all decimal_matches sample_date sample_cascade
              (sample_patch (sample_update "1") {[ "rating" ]}) sample_db
              eq_refl eq_refl) as (_ & H & _).
  rewrite (H (sample_movie 1 "A" 5) eq_refl). reflexivity.
Defined.

(** C3 as stated fails: for a key that no row carries [Update] returns a nil
    movie and a nil error, not a not-found error. *)
Lemma Update_of_a_missing_key_reports_no_error :
  row_by_id 7 sample_db = None
  /\ sample_Update (sample_patch (sample_update "7") {[ "rating" ]}) sample_db
     = ((None, None), sample_db).
Proof. repeat split. Qed.

(** C4 as stated fails: the second movie is gone when [Query] hydrates the
    ids, and the list keeps a nil entry for it. *)
Lemma Query_keeps_a_nil_entry :
  fst (Query_find sample_getColumn sample_getSort sample_selectDistinctIDs
         sample_getSearchBinding sample_getMultiCriterionClause sample_appendClause
         sample_getPagination sample_executeFindQuery None None sample_db)
  = [1; 2]
  /\ Find accepts_all 2 sample_db_later = (None, None)
  /\ sample_Query None None sample_db sample_db_later
     = ([Some (sample_movie 1 "A" 5); None], 2).
Proof. repeat split. Qed.

(** C5 on sample data: the engine refuses to delete the second movie; the
    batch of three returns false and that error, and the first movie, whose
    [Destroy] had succeeded, is still stored.  On the engine that refuses
    nothing the same batch returns true and leaves no movie. *)
Lemma MoviesDestroy_all_or_nothing_witness :
  MoviesDestroy_loop refuses_movie_2 decimal_matches sample_date sample_cascade ["1"] sample_db
  = (None, mkDB [sample_movie 2 "B" 4]
                [mkMoviesScenes 2 10; mkMoviesScenes 2 11] (movies_images sample_db) 2)
  /\ MoviesDestroy refuses_movie_2 decimal_matches
        sample_date sample_cascade ["1"; "2"; "3"] sample_db
     = ((false, Some (ErrStorage 19)), sample_db)
  /\ MoviesDestroy accepts_all decimal_matches sample_date sample_cascade ["1"; "2"; "3"] sample_db
     = ((true, None), mkDB [] [] [] 2).
Proof.
  split; [reflexivity|]. split.
  - destruct (MoviesDestroy_all_or_nothing refuses_movie_2 decimal_matches
                sample_date sample_cascade
                ["1"; "2"; "3"] sample_db) as (_ & H & _).
    exact (H ["1"] "2" ["3"] _ (ErrStorage 19) eq_refl eq_refl eq_refl).
  - destruct (MoviesDestroy_all_or_nothing accepts_all decimal_matches sample_date sample_cascade
                ["1"; "2"; "3"] sample_db) as (_ & _ & _ & H).
    rewrite (H (fun _ _ => eq_refl)). reflexivity.
Defined.

(** C6 on sample data: destroying the second movie removes its two join
    rows and its row; destroying a movie that is not stored removes no row
    and reports no error. *)
Lemma Destroy_join_rows_then_entity_witness :
  Destroy accepts_all decimal_matches sample_date sample_cascade
    "2" sample_db
  = (None, sample_db_later)
  /\ fst (Destroy accepts_all decimal_matches sample_date
            sample_cascade "7" sample_db) = None
  /\ movies (snd (Destroy accepts_all decimal_matches sample_date
                    sample_cascade "7" sample_db))
     = movies sample_db
  /\ movies_scenes (snd (Destroy accepts_all decimal_matches sample_date
                           sample_cascade "7" sample_db))
     = movies_scenes sample_db.
Proof.
  split.
  - destruct (Destroy_join_rows_then_entity accepts_all decimal_matches
                sample_date sample_cascade "2" sample_db)
      as (_ & _ & H).
    destruct (H eq_refl eq_refl) as [E _]. rewrite E. reflexivity.
  - destruct (Destroy_join_rows_then_entity accepts_all decimal_matches
                sample_date sample_cascade "7" sample_db)
      as (_ & _ & H).
    destruct (H eq_refl eq_refl) as (E & _ & _ & _ & _ & Habsent).
    rewrite E. cbn [fst snd]. split; [reflexivity|].
    destruct Habsent as [Hs Hm]; [| |now split].
    + intros r Hr. simpl in Hr.
      repeat (destruct Hr as [<-|Hr]; [reflexivity|]). destruct Hr.
    + intros m Hm. simpl in Hm.
      repeat (destruct Hm as [<-|Hm]; [reflexivity|]). destruct Hm.
Defined.


(** C8 on sample data: the name sorted descending keeps the natural
    collation; the rating goes to the generic clause. *)
Lemma getMovieSort_name_is_natural_witness :
  getMovieSort sample_getColumn sample_getSort
    (Some (FindFilterType.mk None None None (Some "name") (Some SortDirectionEnumDesc)))
  = " ORDER BY movies.name COLLATE NATURAL_CS DESC"%string
  /\ getMovieSort sample_getColumn sample_getSort
       (Some (FindFilterType.mk None None None (Some "rating") None))
     = sample_getSort "rating" "ASC" "movies".
Proof.
  destruct (getMovieSort_name_is_natural sample_getColumn sample_getSort)
    as (_ & _ & Hname & Hother).
  split.
  - rewrite Hname; reflexivity.
  - rewrite Hother; [reflexivity | discriminate].
Defined.

(** C9 on sample data: the first movie renamed, and a movie created. *)
Lemma checksum_is_the_hash_of_the_name_witness :
  (exists m db',
     sample_MovieUpdate
       (MovieUpdateInput.mk "1" (Some "Z") None None None None None None None None None None)
       {[ "name" ]} sample_db
     = (Returned (Some m) None, db')
     /\ row_by_id 1 db' = Some m
     /\ Movie.Name m = NullString.mk "Z" true
     /\ Movie.Checksum m = sample_MD5 "Z")
  /\ (exists m db',
        sample_MovieCreate (sample_create "C" None None) sample_db
        = (Returned (Some m) None, db')
        /\ row_by_id (Movie.ID m) db' = Some m
        /\ Movie.Checksum m = sample_MD5 "C").
Proof.
  destruct (checksum_is_the_hash_of_the_name accepts_all decimal_matches
              sample_date sample_cascade sample_MD5
              sample_decode "default" 200) as (Hcreate & Hupdate & _ & Hreturns).
  destruct (Hreturns (fun _ _ => eq_refl)) as [Hc Hu].
  split.
  - destruct (Hu (MovieUpdateInput.mk "1" (Some "Z") None None None None None None None
                    None None None)
                {[ "name" ]} sample_db (sample_movie 1 "A" 5) eq_refl eq_refl eq_refl)
      as (m & db' & E).
    exists m, db'. split; [exact E|].
    destruct (Hupdate (MovieUpdateInput.mk "1" (Some "Z") None None None None None None
                         None None None None)
                {[ "name" ]} "Z" eq_refl) as (_ & _ & _ & H).
    destruct (H sample_db (Some m) db' E) as [_ Hm]. exact (Hm m eq_refl).
  - destruct (Hc (sample_create "C" None None) sample_db eq_refl eq_refl) as (m & db' & E).
    exists m, db'. split; [exact E|].
    destruct (Hcreate (sample_create "C" None None) sample_db (Some m) db' E)
      as (m' & Hm & Hsum & _ & Hrow).
    injection Hm as <-. split; [exact Hrow | exact Hsum].
Defined.

(** C10 on sample data, on an engine that refuses a sidecar row without a
    front image: the second movie gets a new front image; its back image,
    out of the presence set, is stored as it was. *)
Lemma unmentioned_image_is_read_back_witness :
  exists m db',
    strict_MovieUpdate (sample_update_images "2" (Some "front3") None)
      {[ "front_image" ]} sample_db
    = (Returned (Some m) None, db')
    /\ image_rows 2 db'
       = [mkMoviesImages 2 (Some (list_byte_of_string "front3"))
                           (Some (list_byte_of_string "back2"))]
    /\ stored_image back_image 2 db' = stored_image back_image 2 sample_db.
Proof.
  assert (Hx : xorb (hasField {[ "front_image" ]} "front_image")
                    (hasField {[ "front_image" ]} "back_image") = true)
    by (vm_compute; reflexivity).
  destruct (unmentioned_image_is_read_back refuses_nil_front decimal_matches
              sample_date sample_cascade sample_MD5
              sample_decode "default" 200
              (sample_update_images "2" (Some "front3") None) {[ "front_image" ]}
              sample_db Hx) as [Hfacts Hreturns].
  cbv zeta in Hreturns.
  destruct Hreturns as (m & E);
    [ vm_compute; discriminate | reflexivity | reflexivity | reflexivity | reflexivity
    | intros _; reflexivity | intros _; reflexivity | reflexivity
    | intros _; vm_compute; reflexivity | reflexivity |].
  destruct (Hfacts _ _ E) as (_ & H & _).
  destruct H as (Hrows & Hback & _); [vm_compute; reflexivity|].
  exists m. eexists. split; [exact E|]. split.
  - etransitivity; [exact Hrows | vm_compute; reflexivity].
  - apply Hback. vm_compute. reflexivity.
Defined.

(** C10 as stated fails for a front image that is not stored: the first
    movie has no sidecar row, the update names the back image only, and the
    front image, nil before, is the default payload after. *)
Lemma unmentioned_nil_front_becomes_the_default :
  hasField {[ "back_image" ]} "front_image" = false
  /\ stored_image front_image 1 sample_db = None
  /\ stored_image front_image 1
       (snd (sample_MovieUpdate (sample_update_images "1" None (Some "back"))
               {[ "back_image" ]} sample_db))
     = Some (list_byte_of_string "default").
Proof. repeat split. Qed.

(** X1 on sample data: no movie has the key 7. *)
Lemma MovieUpdate_of_a_missing_movie_witness :
  row_by_id 7 sample_db = None
  /\ strict_MovieUpdate (sample_update_images "7" None (Some "back"))
       {[ "back_image" ]} sample_db
     = (Panicked, sample_db)
  /\ strict_MovieUpdate (sample_update "7") {[ "rating" ]} sample_db
     = (Returned None None, sample_db).
Proof.
  split; [reflexivity|]. split.
  - rewrite (MovieUpdate_of_a_missing_movie refuses_nil_front decimal_matches
               sample_date sample_cascade sample_MD5
               sample_decode "default" 200
               (sample_update_images "7" None (Some "back"))
               {[ "back_image" ]} sample_db eq_refl eq_refl eq_refl eq_refl eq_refl
               (fun _ _ => eq_refl) (fun _ _ => eq_refl) (fun _ _ => eq_refl)).
    vm_compute. reflexivity.
  - rewrite (MovieUpdate_of_a_missing_movie refuses_nil_front decimal_matches
               sample_date sample_cascade sample_MD5
               sample_decode "default" 200 (sample_update "7")
               {[ "rating" ]} sample_db eq_refl eq_refl eq_refl eq_refl eq_refl
               (fun _ _ => eq_refl) (fun _ _ => eq_refl) (fun _ _ => eq_refl)).
    vm_compute. reflexivity.
Defined.

(** ** More of the code on sample data *)

Local Abbreviation sample_UpdateMovieImages :=
  (UpdateMovieImages accepts_all decimal_matches sample_date sample_cascade).
Local Abbreviation sample_Create := (Create accepts_all decimal_matches sample_date sample_cascade).

(** X2 on sample data: the images of the second movie replaced by a front
    image alone. *)
Lemma UpdateMovieImages_then_read_witness :
  accepts_all (DeleteMoviesImages 2) sample_db = None
  /\ image_rows 2 (snd (sample_UpdateMovieImages 2 (Some (list_byte_of_string "f")) None
                          sample_db))
     = [mkMoviesImages 2 (Some (list_byte_of_string "f")) None]
  /\ GetBackImage accepts_all 2
       (snd (sample_UpdateMovieImages 2 (Some (list_byte_of_string "f")) None sample_db))
     = (None, None).
Proof.
  destruct (UpdateMovieImages_then_read accepts_all decimal_matches sample_date sample_cascade 2
              (Some (list_byte_of_string "f")) None sample_db eq_refl eq_refl)
    as (_ & Hrows & _ & Hback & _).
  split; [reflexivity|]. split; [exact Hrows | exact (Hback eq_refl)].
Defined.

(** X3 on sample data: the engine refuses the INSERT, and the images of the
    second movie are gone from the transaction. *)
Lemma UpdateMovieImages_refused_witness :
  stored_image back_image 2 sample_db = Some (list_byte_of_string "back2")
  /\ fst (UpdateMovieImages refuses_image_insert decimal_matches sample_date sample_cascade 2
            (Some (list_byte_of_string "f")) None sample_db)
     = Some (ErrStorage 19)
  /\ stored_image back_image 2
       (snd (UpdateMovieImages refuses_image_insert decimal_matches sample_date sample_cascade 2
               (Some (list_byte_of_string "f")) None sample_db))
     = None.
Proof.
  destruct (UpdateMovieImages_refused refuses_image_insert decimal_matches
              sample_date sample_cascade 2
              (Some (list_byte_of_string "f")) None sample_db) as [_ H].
  destruct (H 19%nat eq_refl eq_refl) as (Herr & _ & _ & Hback & _).
  split; [reflexivity|]. split; [exact Herr | exact Hback].
Defined.

(** X4 on sample data: the images of the second movie destroyed; the first
    movie had none. *)
Lemma DestroyMovieImages_then_read_witness :
  GetFrontImage accepts_all 2 (snd (DestroyMovieImages accepts_all decimal_matches
                                      sample_date sample_cascade 2 sample_db))
  = (None, None)
  /\ snd (DestroyMovieImages accepts_all decimal_matches
            sample_date sample_cascade 1 sample_db) = sample_db.
Proof.
  split.
  - destruct (DestroyMovieImages_then_read accepts_all decimal_matches
                sample_date sample_cascade 2 sample_db eq_refl)
      as (_ & _ & Hfront & _).
    exact (Hfront eq_refl).
  - destruct (DestroyMovieImages_then_read accepts_all decimal_matches
                sample_date sample_cascade 1 sample_db eq_refl)
      as (_ & _ & _ & _ & _ & Hsame).
    exact (Hsame eq_refl).
Defined.

(** X5 on sample data: a third movie gets the key 3, and its date, which
    the store does not read as one, comes back as the invalid date. *)
Lemma Create_then_Find_witness :
  fst (sample_Create (SetMovie.Date (SQLiteDate.mk "soon" true) (sample_movie 0 "C" 1))
         sample_db)
  = (Some (sample_movie 3 "C" 1), None)
  /\ Find accepts_all 3
       (snd (sample_Create (SetMovie.Date (SQLiteDate.mk "soon" true)
                              (sample_movie 0 "C" 1))
               sample_db))
     = (Some (sample_movie 3 "C" 1), None)
  /\ row_by_id 1
       (snd (sample_Create (SetMovie.Date (SQLiteDate.mk "soon" true)
                              (sample_movie 0 "C" 1))
               sample_db))
     = Some (sample_movie 1 "A" 5).
Proof.
  destruct (Create_then_Find accepts_all decimal_matches sample_date
              sample_cascade
              (SetMovie.Date (SQLiteDate.mk "soon" true) (sample_movie 0 "C" 1))
              sample_db)
    as (_ & _ & _ & H).
  destruct (H eq_refl eq_refl) as (Hc & Hfind & Hother & _).
  rewrite Hc. cbn [fst snd]. split; [reflexivity|]. split; [exact Hfind|].
  rewrite (Hother 1); [reflexivity | discriminate].
Defined.

(** X6 on sample data: the read of the second movie is refused. *)
Lemma FindMany_list_or_error_witness :
  FindMany refuses_read_2 [1; 2; 7] sample_db = ([], Some (ErrStorage 5)).
Proof.
  destruct (FindMany_list_or_error refuses_read_2 [1; 2; 7] sample_db) as (_ & _ & H).
  apply (H [1] 2 [7] 5%nat eq_refl); [| |reflexivity].
  - intros i [<-|[]]. reflexivity.
  - intros i [<-|[]]. discriminate.
Defined.

(** X7 on sample data: a movie created with an alias and a date, and
    nothing else. *)
Lemma MovieCreate_round_trip_witness :
  exists m,
    fst (sample_MovieCreate
           (MovieCreateInput.mk "C" (Some "c") None (Some "2001-02-03") None None None
                                None None None None)
           sample_db)
    = Returned (Some m) None
    /\ Movie.ID m = 3
    /\ column "aliases" m = SqlText "c"
    /\ column "rating" m = SqlNull
    /\ Movie.Date m = SQLiteDate.mk "2001-02-03" true
    /\ row_by_id 2
         (snd (sample_MovieCreate
                 (MovieCreateInput.mk "C" (Some "c") None (Some "2001-02-03") None None
                                      None None None None None)
                 sample_db))
       = Some (sample_movie 2 "B" 4).
Proof.
  destruct (MovieCreate_round_trip accepts_all decimal_matches sample_date
              sample_cascade sample_MD5 sample_decode "default" 200
              (MovieCreateInput.mk "C" (Some "c") None (Some "2001-02-03") None None None
                                   None None None None)
              sample_db _ _ eq_refl)
    as (m & Hm & _ & _ & Hother & _ & Hnull & Hdate & _).
  injection Hm as <-. eexists. split; [reflexivity|]. split; [reflexivity|].
  split; [reflexivity|]. split; [|split].
  - apply Hnull; [simpl; auto 10 | discriminate | reflexivity].
  - exact Hdate.
  - rewrite Hother; [reflexivity | discriminate].
Defined.

(** X8 on sample data: a movie created without images writes no sidecar
    row. *)
Lemma MovieCreate_sidecar_rule_witness :
  movies_images (snd (sample_MovieCreate (sample_create "C" None None) sample_db))
  = movies_images sample_db.
Proof.
  destruct (MovieCreate_sidecar_rule accepts_all decimal_matches
              sample_date sample_cascade sample_MD5 sample_decode
              "default" 200 (sample_create "C" None None) sample_db _ _ eq_refl)
    as (_ & _ & H & _).
  exact (H eq_refl eq_refl).
Defined.

(** X10 on sample data: the first movie renamed; the second is as it was. *)
Lemma MovieUpdate_touches_one_key_witness :
  Forall2 (fun old new =>
             Movie.ID new = Movie.ID old
             /\ Movie.CreatedAt new = Movie.CreatedAt old
             /\ (Movie.ID old <> 1 -> new = old)
             /\ (Movie.ID old = 1 -> Movie.UpdatedAt new = SQLiteTimestamp.mk 200))
          (movies sample_db)
          (movies (snd (sample_MovieUpdate
                          (MovieUpdateInput.mk "1" (Some "Z") None None None None None None
                                               None None None None)
                          {[ "name" ]} sample_db))).
Proof.
  eassert (E : sample_MovieUpdate
                 (MovieUpdateInput.mk "1" (Some "Z") None None None None None None None None
                                      None None)
                 {[ "name" ]} sample_db
               = (Returned _ None, _)) by (vm_compute; reflexivity).
  destruct (MovieUpdate_touches_one_key accepts_all decimal_matches
              sample_date sample_cascade sample_MD5 sample_decode
              "default" 200 _ _ _ _ _ E) as [H _].
  rewrite E. exact H.
Defined.

(** X11 on sample data: an image that does not decode, outside the presence
    set; and an image that decodes, outside the presence set. *)
Lemma MovieUpdate_images_out_of_the_set_witness :
  sample_MovieUpdate (sample_update_images "2" (Some "") None) {[ "rating" ]} sample_db
  = (Returned None (Some (ErrImage 0)), sample_db)
  /\ movies_images
       (snd (sample_MovieUpdate (sample_update_images "2" (Some "front3") None)
               {[ "rating" ]} sample_db))
     = movies_images sample_db.
Proof.
  split.
  - destruct (MovieUpdate_images_out_of_the_set accepts_all decimal_matches
                sample_date sample_cascade sample_MD5
                sample_decode "default" 200 (sample_update_images "2" (Some "") None)
                {[ "rating" ]} sample_db) as [H _].
    exact (H (ErrImage 0) eq_refl).
  - destruct (MovieUpdate_images_out_of_the_set accepts_all decimal_matches
                sample_date sample_cascade sample_MD5
                sample_decode "default" 200 (sample_update_images "2" (Some "front3") None)
                {[ "rating" ]} sample_db) as (_ & _ & H).
    eassert (E : sample_MovieUpdate (sample_update_images "2" (Some "front3") None)
                   {[ "rating" ]} sample_db
                 = (Returned _ None, _)) by (vm_compute; reflexivity).
    rewrite E. exact (H eq_refl eq_refl _ _ E).
Defined.

(** X12 on sample data: both images of the second movie set to null. *)
Lemma MovieUpdate_with_both_images_witness :
  exists m db',
    sample_MovieUpdate (sample_update_images "2" None None)
      {[ "front_image"; "back_image" ]} sample_db
    = (Returned (Some m) None, db')
    /\ image_rows 2 db' = [].
Proof.
  assert (Hfi : hasField {[ "front_image"; "back_image" ]} "front_image" = true)
    by (vm_compute; reflexivity).
  assert (Hbi : hasField {[ "front_image"; "back_image" ]} "back_image" = true)
    by (vm_compute; reflexivity).
  destruct (MovieUpdate_with_both_images accepts_all decimal_matches
              sample_date sample_cascade sample_MD5
              sample_decode "default" 200 (sample_update_images "2" None None)
              {[ "front_image"; "back_image" ]} sample_db (sample_movie 2 "B" 4) None None
              (fun _ _ => eq_refl) eq_refl eq_refl eq_refl Hfi Hbi)
    as (m & db' & E & _ & H & _).
  exists m, db'. split; [exact E | exact (H eq_refl eq_refl)].
Defined.

(** X13 on sample data: both movies are in scene 10, in one row each. *)
Lemma FindBySceneID_members_witness :
  List.NoDup (List.map Movie.ID (fst (FindBySceneID answers_all 10 sample_db)))
  /\ In 2 (List.map Movie.ID (fst (FindBySceneID answers_all 10 sample_db))).
Proof.
  destruct (FindBySceneID_members answers_all 10 sample_db eq_refl)
    as (_ & Hnodup & _ & Hall).
  split; [exact Hnodup|].
  apply (Hall (sample_movie 2 "B" 4) (mkMoviesScenes 2 10)); try reflexivity.
  - right. now left.
  - right. now left.
Defined.

(** X14 on sample data: the second movie destroyed; scene 10 keeps the
    first. *)
Lemma Destroy_then_FindBySceneID_witness :
  fst (FindBySceneID answers_all 10 (snd (Destroy accepts_all decimal_matches
                                            sample_date sample_cascade "2" sample_db)))
  = [sample_movie 1 "A" 5]
  /\ forall m,
       In m (fst (FindBySceneID answers_all 10
                    (snd (Destroy accepts_all decimal_matches
                            sample_date sample_cascade "2" sample_db)))) ->
       decimal_matches "2" (Movie.ID m) = false.
Proof.
  split; [reflexivity|].
  destruct (Destroy_then_FindBySceneID accepts_all decimal_matches
              sample_date sample_cascade answers_all "2"
              sample_db (snd (Destroy accepts_all decimal_matches
                                sample_date sample_cascade "2" sample_db)) 10
              eq_refl) as [H _].
  exact H.
Defined.

(** X15 on sample data: the name in lower case is found without the case
    only. *)
Lemma FindByName_gives_a_match_witness :
  fst (FindByName answers_all "b" sample_db true) = Some (sample_movie 2 "B" 4)
  /\ (fst (FindByName answers_all "b" sample_db false) = None
      <-> forall m, In m (movies sample_db) -> name_is false "b" m = false)
  /\ fst (FindByName answers_all "b" sample_db false) = None.
Proof.
  destruct (FindByName_gives_a_match answers_all "b" sample_db false (fun _ => eq_refl))
    as (_ & _ & _ & H & _).
  split; [reflexivity|]. split; [exact H | reflexivity].
Defined.

(** X16 on sample data: two names, one of them stored. *)
Lemma FindByNames_members_witness :
  fst (FindByNames answers_all ["B"; "Q"] sample_db false) = [sample_movie 2 "B" 4]
  /\ fst (FindByNames answers_all [] sample_db false) = [].
Proof.
  split; [reflexivity|].
  destruct (FindByNames_members answers_all [] sample_db false eq_refl) as (_ & _ & H & _).
  exact (H eq_refl).
Defined.

(** X17 on sample data: a movie created, then looked up by its name. *)
Lemma MovieCreate_then_FindByName_witness :
  exists m db',
    sample_MovieCreate (sample_create "C" None None) sample_db = (Returned (Some m) None, db')
    /\ FindByName answers_all "C" db' false = (Some m, None).
Proof.
  eexists. eexists. split; [reflexivity|].
  destruct (MovieCreate_then_FindByName accepts_all decimal_matches
              sample_date sample_cascade sample_MD5 sample_decode
              "default" 200 answers_all (sample_create "C" None None) sample_db _ _ false
              eq_refl (fun _ => eq_refl)) as (_ & H & _).
  apply H. intros old Hold. simpl in Hold.
  repeat (destruct Hold as [<-|Hold]; [reflexivity|]). destruct Hold.
Defined.

(** X18 on sample data: an empty search term, an empty studio list and an
    empty is-missing field. *)
Lemma Query_ignores_empty_filters_witness :
  Query_clauses sample_selectDistinctIDs sample_getSearchBinding
    sample_getMultiCriterionClause sample_appendClause
    (MovieFilterType.mk (Some (MultiCriterionInput.mk [] Includes)) (Some ""%string))
    (FindFilterType.mk (Some ""%string) None None None None)
  = Query_clauses sample_selectDistinctIDs sample_getSearchBinding
      sample_getMultiCriterionClause sample_appendClause
      MovieFilterType.zero FindFilterType.zero.
Proof.
  destruct (Query_ignores_empty_filters sample_selectDistinctIDs sample_getSearchBinding
              sample_getMultiCriterionClause sample_appendClause
              (MovieFilterType.mk (Some (MultiCriterionInput.mk [] Includes))
                                  (Some ""%string))
              (FindFilterType.mk (Some ""%string) None None None None)
              (or_intror eq_refl)
              (or_intror (ex_intro _ (MultiCriterionInput.mk [] Includes)
                                   (conj eq_refl eq_refl)))
              (or_intror eq_refl)) as [H _].
  exact H.
Defined.

(** X20 on sample data: the two ids once in one order, and in the other
    order with one of them twice. *)
Lemma MoviesDestroy_keeps_the_rest_witness :
  movies (snd (MoviesDestroy accepts_all decimal_matches sample_date
                 sample_cascade ["2"; "1"; "2"] sample_db))
  = movies (snd (MoviesDestroy accepts_all decimal_matches sample_date
                   sample_cascade ["1"; "2"] sample_db))
  /\ movies (snd (MoviesDestroy accepts_all decimal_matches sample_date
                    sample_cascade ["2"] sample_db))
     = [sample_movie 1 "A" 5].
Proof.
  split.
  - destruct (MoviesDestroy_keeps_the_rest accepts_all decimal_matches
                sample_date sample_cascade ["1"; "2"]
                sample_db eq_refl) as (_ & _ & _ & H).
    apply (H ["2"; "1"; "2"]); [|reflexivity].
    intros id. simpl. tauto.
  - destruct (MoviesDestroy_keeps_the_rest accepts_all decimal_matches
                sample_date sample_cascade ["2"]
                sample_db eq_refl) as (H & _).
    rewrite H. reflexivity.
Defined.

(** X21 on sample data: every id of the id query is still stored. *)
Lemma Query_agrees_with_FindMany_witness :
  fst (sample_Query None None sample_db sample_db)
  = fst (FindMany accepts_all [1; 2] sample_db).
Proof.
  destruct (Query_agrees_with_FindMany accepts_all sample_getColumn sample_getSort
              sample_selectDistinctIDs sample_getSearchBinding
              sample_getMultiCriterionClause sample_appendClause sample_getPagination
              sample_executeFindQuery None None sample_db sample_db eq_refl) as [H _].
  exact H.
Defined.

(** X22 on sample data: the second movie gets a new name, date and rating
    and keeps its checksum. *)
Lemma UpdateFull_returns_the_reread_row_witness :
  exists new,
    fst (UpdateFull accepts_all sample_date sample_SQLGenKeys_keys
           accepts_full_update
           (SetMovie.Date (SQLiteDate.mk "soon" true) (sample_movie 2 "Z" 9)) sample_db)
    = (Some new, None)
    /\ column "name" new = SqlText "Z"
    /\ column "rating" new = SqlInt 9
    /\ column "date" new = SqlDate SQLiteDate.zero
    /\ column "checksum" new = SqlText (sample_MD5 "B").
Proof.
  destruct (UpdateFull_returns_the_reread_row accepts_all sample_date
              sample_SQLGenKeys_keys accepts_full_update
              (SetMovie.Date (SQLiteDate.mk "soon" true) (sample_movie 2 "Z" 9))
              sample_db eq_refl eq_refl)
    as (_ & _ & H & _).
  destruct (H (sample_movie 2 "B" 4) eq_refl) as (new & Hnew & Hcol).
  exists new. split; [exact Hnew|].
  split; [|split; [|split]].
  - rewrite (Hcol "name") by (simpl; auto 20). reflexivity.
  - rewrite (Hcol "rating") by (simpl; auto 20). reflexivity.
  - rewrite (Hcol "date") by (simpl; auto 20). reflexivity.
  - rewrite (Hcol "checksum") by (simpl; auto 20). reflexivity.
Defined.
